(** * Spike-sorting clustering entry points: a shallow embedding

    The two clustering strategies of
    [spikeinterface/sortingcomponents/clustering]:

    - [CircusClustering.main_function]            (circus.py)
    - [RandomProjectionClustering.main_function]  (random_projections.py)

    Integers are [Z], NumPy integer arrays are [list Z], Python floats
    are IEEE binary64 values ([spec_float] with [prec = 53],
    [emax = 1024]), keyword dictionaries are lists of items in insertion
    order.  Calls that leave the two source files
    (hdbscan, scikit-learn, NumPy generators, the node pipeline, template
    estimation, sparsity, template matching) are fields of an
    environment record; each of them runs in a small monad that threads
    the hidden process state and may raise. *)

From Stdlib Require Import ZArith List Bool Lia SpecFloat.
From Stdlib Require Import Sorted.
From Stdlib Require String.
Import ListNotations.
Open Scope Z_scope.

(* ------------------------------------------------------------------ *)
(** ** Outcomes of a Python call *)

Inductive Res (A : Type) : Type :=
| Ok (a : A)
| Raise.
Arguments Ok {A} a.
Arguments Raise {A}.

Definition res_bind {A B} (r : Res A) (k : A -> Res B) : Res B :=
  match r with
  | Ok a => k a
  | Raise => Raise
  end.

(* ------------------------------------------------------------------ *)
(** ** Python floats *)

Module F64.

Definition prec : Z := 53.
Definition emax : Z := 1024.

Definition mul : spec_float -> spec_float -> spec_float := SFmul prec emax.
Definition div : spec_float -> spec_float -> spec_float := SFdiv prec emax.
Definition add : spec_float -> spec_float -> spec_float := SFadd prec emax.
Definition sqrt : spec_float -> spec_float := SFsqrt prec emax.
Definition abs : spec_float -> spec_float := SFabs.
Definition ltb : spec_float -> spec_float -> bool := SFltb.
Definition leb : spec_float -> spec_float -> bool := SFleb.

(** [float(n)] for a Python int. *)
Definition of_Z (n : Z) : spec_float := binary_normalize prec emax n 0 false.

Definition is_nan (x : spec_float) : bool :=
  match x with
  | S754_nan => true
  | _ => false
  end.


(** [int(x)]: the integer part, towards zero; [ValueError] on a NaN and
    [OverflowError] on an infinity. *)
Definition to_int (x : spec_float) : Res Z :=
  match x with
  | S754_zero _ => Ok 0
  | S754_finite s m e =>
      let v := if 0 <=? e then Zpos m * 2 ^ e else Zpos m / 2 ^ (- e) in
      Ok (if s then - v else v)
  | S754_infinity _ | S754_nan => Raise
  end.


End F64.

(* ------------------------------------------------------------------ *)
(** ** NumPy on one-dimensional arrays *)

Module Np.

(** [np.unique]: the sorted distinct values. *)
Fixpoint insert_sorted (x : Z) (l : list Z) : list Z :=
  match l with
  | [] => [x]
  | y :: l' =>
      if x <? y then x :: l
      else if x =? y then l
      else y :: insert_sorted x l'
  end.

Definition unique (l : list Z) : list Z := fold_right insert_sorted [] l.

(** [np.arange(n)]. *)
Definition arange (n : nat) : list Z := map Z.of_nat (seq 0 n).

(** [np.sum(mask)] of a boolean array. *)
Definition count (mask : list bool) : nat := length (filter (fun b => b) mask).

(** [a[mask]] with a boolean mask: [IndexError] when the mask does not
    have the length of the array. *)
Fixpoint select {A} (a : list A) (mask : list bool) : list A :=
  match a, mask with
  | x :: a', b :: mask' => if b then x :: select a' mask' else select a' mask'
  | _, _ => []
  end.

Definition bool_index {A} (a : list A) (mask : list bool) : Res (list A) :=
  if Nat.eqb (length a) (length mask) then Ok (select a mask) else Raise.

(** [a[mask] = vals] when the lengths agree: the values go to the
    selected positions in order. *)
Fixpoint scatter (a : list Z) (mask : list bool) (vals : list Z) : list Z :=
  match a, mask with
  | x :: a', b :: mask' =>
      if b then
        match vals with
        | v :: vals' => v :: scatter a' mask' vals'
        | [] => x :: scatter a' mask' []
        end
      else x :: scatter a' mask' vals
  | _, _ => a
  end.

(** [a[mask] = v] with a scalar. *)
Fixpoint fill (a : list Z) (mask : list bool) (v : Z) : list Z :=
  match a, mask with
  | x :: a', b :: mask' => (if b then v else x) :: fill a' mask' v
  | _, _ => a
  end.

(** [a[mask] = vals] as NumPy checks it: an array of one value is
    broadcast, any other length has to be the number of selected
    positions ([ValueError] otherwise); a mask of the wrong length is an
    [IndexError]. *)
Definition assign_masked (a : list Z) (mask : list bool) (vals : list Z)
  : Res (list Z) :=
  if negb (Nat.eqb (length a) (length mask)) then Raise
  else if Nat.eqb (length vals) (count mask) then Ok (scatter a mask vals)
  else match vals with
       | [v] => Ok (fill a mask v)
       | _ => Raise
       end.

(** [np.isin(a, s)]. *)
Definition isin (a s : list Z) : list bool :=
  map (fun x => existsb (Z.eqb x) s) a.

(** [np.where(mask)[0]]: the positions that hold [True]. *)
Definition where_from (start : Z) (mask : list bool) : list Z :=
  select (map (fun i => start + Z.of_nat i) (seq 0 (length mask))) mask.

Definition where_ (mask : list bool) : list Z := where_from 0 mask.

(** [np.argmax] of a float row: the first maximum, a NaN counting as
    the maximum as soon as it is met; [ValueError] on an empty row. *)
Fixpoint argmax_from (best : spec_float) (ibest i : nat)
         (row : list spec_float) : nat :=
  match row with
  | [] => ibest
  | x :: row' =>
      if F64.is_nan best then ibest
      else if negb (F64.leb x best) then argmax_from x i (S i) row'
      else argmax_from best ibest (S i) row'
  end.

Definition argmax (row : list spec_float) : Res nat :=
  match row with
  | [] => Raise
  | x :: row' => Ok (argmax_from x 0%nat 1%nat row')
  end.

(** [row / noise] with NumPy's broadcasting of two one-dimensional
    shapes: equal lengths, or one of the two of length one. *)
Definition broadcast_div (row noise : list spec_float)
  : Res (list spec_float) :=
  if Nat.eqb (length row) (length noise)
  then Ok (map (fun p => F64.div (fst p) (snd p)) (combine row noise))
  else match noise, row with
       | [n], _ => Ok (map (fun x => F64.div x n) row)
       | _, [x] => Ok (map (fun n => F64.div x n) noise)
       | _, _ => Raise
       end.

End Np.

(* ------------------------------------------------------------------ *)
(** ** Python dictionaries of keyword arguments *)

Module PyDict.
Import String.

(** The values the keyword dictionaries of the three files hold; an
    object the code only passes on (a path, an array, a [Templates]) is
    [PObj]. *)
#[warnings="-register-all"]
Inductive PyVal : Type :=
| PNone
| PBool (b : bool)
| PInt (z : Z)
| PFloat (x : spec_float)
| PStr (s : string)
| PObj (id : Z)
| PDict (d : list (string * PyVal)).

(** A dictionary: its items in insertion order, one per key. *)
Definition dict : Type := list (string * PyVal).

(** [d.get(k)]. *)
Fixpoint get (k : string) (d : dict) : option PyVal :=
  match d with
  | [] => None
  | (k', v) :: d' => if String.eqb k' k then Some v else get k d'
  end.

(** [k in d]. *)
Definition mem (k : string) (d : dict) : bool :=
  match get k d with
  | Some _ => true
  | None => false
  end.

(** [d[k]]: [KeyError] on a missing key. *)
Definition getitem (k : string) (d : dict) : Res PyVal :=
  match get k d with
  | Some v => Ok v
  | None => Raise
  end.

(** [d.get(k, default)]. *)
Definition get_default (k : string) (default : PyVal) (d : dict) : PyVal :=
  match get k d with
  | Some v => v
  | None => default
  end.

(** [d[k] = v]: the item of an existing key is replaced where it stands,
    a new key goes to the end. *)
Fixpoint set (k : string) (v : PyVal) (d : dict) : dict :=
  match d with
  | [] => [(k, v)]
  | (k', v') :: d' =>
      if String.eqb k' k then (k, v) :: d' else (k', v') :: set k v d'
  end.

(** The items left by [d.pop(k)]. *)
Definition remove (k : string) (d : dict) : dict :=
  filter (fun kv => negb (String.eqb (fst kv) k)) d.

(** [d.pop(k)]: the value and the dictionary without the key;
    [KeyError] on a missing key. *)
Definition pop (k : string) (d : dict) : Res (PyVal * dict) :=
  match get k d with
  | Some v => Ok (v, remove k d)
  | None => Raise
  end.

(** [v == -1]. *)
Definition eq_minus_one (v : PyVal) : bool :=
  match v with
  | PInt z => z =? -1
  | PFloat x => SFeqb x (F64.of_Z (-1))
  | _ => false
  end.

(** [bool(v)]. *)
Definition truthy (v : PyVal) : bool :=
  match v with
  | PNone => false
  | PBool b => b
  | PInt z => negb (z =? 0)
  | PFloat x =>
      match x with
      | S754_zero _ => false
      | _ => true
      end
  | PStr s => negb (String.eqb s "")
  | PObj _ => true
  | PDict d =>
      match d with
      | [] => false
      | _ => true
      end
  end.

(** The keys the three files name. *)
Definition k_n_jobs : string := "n_jobs".
Definition k_core_dist_n_jobs : string := "core_dist_n_jobs".
Definition k_verbose : string := "verbose".
Definition k_progress_bar : string := "progress_bar".
Definition k_chunk_size : string := "chunk_size".
Definition k_chunk_memory : string := "chunk_memory".
Definition k_total_memory : string := "total_memory".
Definition k_chunk_duration : string := "chunk_duration".
Definition k_tmp_folder : string := "tmp_folder".
Definition k_method : string := "method".
Definition k_templates : string := "templates".
Definition k_waveforms : string := "waveforms".
Definition k_sparsity : string := "sparsity".
Definition k_peak_sign : string := "peak_sign".
Definition k_radius_um : string := "radius_um".
Definition k_ms_before : string := "ms_before".
Definition k_ms_after : string := "ms_after".
Definition k_few_waveforms : string := "few_waveforms".
Definition k_noise_levels : string := "noise_levels".
Definition k_debug : string := "debug".
Definition k_noise_threshold : string := "noise_threshold".
Definition k_detect_threshold : string := "detect_threshold".
Definition k_legacy : string := "legacy".
Definition s_100ms : string := "100ms".
Definition s_circus : string := "circus".
Definition s_random_projections : string := "random_projections".
Definition s_circus_omp_svd : string := "circus-omp-svd".

End PyDict.

(* ------------------------------------------------------------------ *)
(** ** circus.py and random_projections.py: the keyword dictionaries *)

Module CircusKwargs.
Import PyDict.

(** Lines 73-75 (with ["n_jobs"]) and 77-79 (with ["core_dist_n_jobs"]):
    a value of [-1] under the key is replaced by [os.cpu_count()]. *)
Definition resolve_cpu_count (cpu_count : PyVal) (key : String.string) (d : dict)
  : dict :=
  if mem key d then
    match get key d with
    | Some v => if eq_minus_one v then set key cpu_count d else d
    | None => d
    end
  else d.

(** Lines 73-84: the two dictionaries after the replacement, the job
    keywords as [fix_job_kwargs] returns them and [verbose]. *)
Definition prologue
           (cpu_count : PyVal) (fix_job_kwargs : dict -> Res dict)
           (job_kwargs hdbscan_kwargs : dict)
  : Res (dict * dict * dict * PyVal) :=
  let job_kwargs := resolve_cpu_count cpu_count k_n_jobs job_kwargs in
  let hdbscan_kwargs :=
    resolve_cpu_count cpu_count k_core_dist_n_jobs hdbscan_kwargs in
  res_bind (fix_job_kwargs job_kwargs) (fun fixed =>
  res_bind (getitem k_verbose job_kwargs) (fun verbose =>
  Ok (job_kwargs, hdbscan_kwargs, fixed, verbose))).

(** Lines 207-214: the job keywords of the matching pass. *)
Definition cleaning_matching_params (job_kwargs : dict) : dict :=
  let d :=
    fold_left (fun d value => if mem value d then remove value d else d)
              [k_chunk_size; k_chunk_memory; k_total_memory; k_chunk_duration]
              job_kwargs in
  let d := set k_chunk_duration (PStr s_100ms) d in
  let d := set k_n_jobs (PInt 1) d in
  let d := set k_verbose (PBool false) d in
  set k_progress_bar (PBool false) d.

(** Lines 216-217: the cleaning keywords with the temporary folder. *)
Definition cleaning_params (cleaning_kwargs : dict) (tmp_folder : PyVal) : dict :=
  set k_tmp_folder tmp_folder cleaning_kwargs.

(** random_projections.py, lines 178-180. *)
Definition cleaning_job_kwargs (job_kwargs : dict) : dict :=
  set k_progress_bar (PBool false) job_kwargs.

End CircusKwargs.

(* ------------------------------------------------------------------ *)
(** ** Hidden process state and the monad of a Python call

    [np_global] is the state of NumPy's process-wide generator (the one
    behind [np.random.seed] and [np.random.*]); [ambient] is every other
    piece of hidden state a callee can reach (Python's [random] module,
    the working directory, the file system).  A computation maps the
    world before the call to an outcome and the world after it; the
    world survives a raise. *)

Record World (Rng Amb : Type) : Type := mkWorld {
  np_global : Rng;
  ambient : Amb
}.
Arguments mkWorld {Rng Amb}.
Arguments np_global {Rng Amb}.
Arguments ambient {Rng Amb}.

Definition M (Rng Amb A : Type) : Type :=
  World Rng Amb -> Res A * World Rng Amb.

Section Monad.
Context {Rng Amb : Type}.

Definition ret {A} (a : A) : M Rng Amb A := fun w => (Ok a, w).

Definition raise {A} : M Rng Amb A := fun w => (Raise, w).

Definition bind {A B} (m : M Rng Amb A) (k : A -> M Rng Amb B)
  : M Rng Amb B :=
  fun w =>
    match m w with
    | (Ok a, w') => k a w'
    | (Raise, w') => (Raise, w')
    end.

(** [try: m / except Exception: h]. *)
Definition try_except {A} (m h : M Rng Amb A) : M Rng Amb A :=
  fun w =>
    match m w with
    | (Ok a, w') => (Ok a, w')
    | (Raise, w') => h w'
    end.

Definition lift {A} (r : Res A) : M Rng Amb A := fun w => (r, w).

Fixpoint mapM {A B} (f : A -> M Rng Amb B) (l : list A)
  : M Rng Amb (list B) :=
  match l with
  | [] => ret []
  | x :: l' => bind (f x) (fun y => bind (mapM f l') (fun ys => ret (y :: ys)))
  end.

End Monad.

Declare Scope py_scope.
Delimit Scope py_scope with py.
Notation "x <- c ;; k" := (bind c (fun x => k))
  (at level 61, c at next level, right associativity) : py_scope.
Notation "c ;;; k" := (bind c (fun _ => k))
  (at level 61, right associativity) : py_scope.
Open Scope py_scope.

(* ------------------------------------------------------------------ *)
(** ** Data model *)

(** One detected peak (the rows of the [peaks] array). *)
Record Peak : Type := mkPeak {
  sample_index : Z;
  channel_index : Z;
  segment_index : Z;
  amplitude : spec_float
}.

(** One row of [minimum_spike_dtype]. *)
Record Spike : Type := mkSpike {
  spike_sample_index : Z;
  unit_index : Z;
  spike_segment_index : Z
}.

(** A three-dimensional float array (units, samples, channels) with the
    two trailing dimensions of its shape, which NumPy knows even when
    there is no unit. *)
Record Array3 : Type := mkArray3 {
  dim_samples : nat;
  dim_channels : nat;
  units : list (list (list spec_float))
}.

(** The fields of a [Templates] object that the two entry points and the
    pruning and matching stages read. *)
Record Templates : Type := mkTemplates {
  templates_array : Array3;
  sampling_frequency : spec_float;
  nbefore : Z;
  sparsity_mask : option (list (list bool));
  unit_ids : list Z
}.

(** The feature of [params["feature"]]. *)
Inductive feature_kind : Type := Ptp | Energy.

(** The projection matrix with its shape. *)
Record Matrix : Type := mkMatrix {
  n_rows : nat;
  n_cols : nat;
  entries : list (list spec_float)
}.

(* ------------------------------------------------------------------ *)
(** ** The environment: everything called but not defined in the two files *)

Record Env : Type := mkEnv {
  Rng : Type;
  Amb : Type;
  Recording : Type;
  Path : Type;
  Waveforms : Type;
  Tsvd : Type;
  PcData : Type;
  SparseWf : Type;
  DenoisedWf : Type;

  (** the module flag [HAVE_HDBSCAN], [os.cpu_count()] and
      [fix_job_kwargs] (core/job_tools.py) *)
  have_hdbscan : bool;
  cpu_count : PyDict.PyVal;
  fix_job_kwargs : PyDict.dict -> Res PyDict.dict;

  (** the recording provider *)
  get_sampling_frequency : Recording -> spec_float;
  get_num_channels : Recording -> nat;

  (** NumPy generators: the state a seed stands for ([np.random.seed(s)]
      installs it in the global generator, [np.random.RandomState(s)]
      starts a private one from it) and one normal draw *)
  seed_state : Z -> Rng;
  normal1 : Rng -> spec_float -> spec_float -> spec_float * Rng;

  (** the temporary folder: [get_global_tmp_folder() / name] with [name]
      from [random.choices], [Path(p).absolute()], [mkdir] *)
  fresh_tmp_folder : M Rng Amb Path;
  absolute : Path -> M Rng Amb Path;
  mkdir : Path -> M Rng Amb unit;

  (** circus.py: subsampling, waveforms, the first decomposition, the
      pickled model, the feature pipeline, the per-channel decomposition *)
  select_peaks : list Peak -> Z -> M Rng Amb (list Peak);
  extract_waveform_at_max_channel :
    Recording -> list Peak -> spec_float -> spec_float -> PyDict.dict ->
    M Rng Amb Waveforms;
  tsvd_fit : Z -> Waveforms -> M Rng Amb Tsvd;
  save_model :
    Path -> Tsvd -> spec_float -> spec_float -> spec_float -> M Rng Amb Path;
  extract_features :
    Recording -> list Peak -> spec_float -> spec_float -> spec_float ->
    Path -> PyDict.dict -> M Rng Amb (list PcData);
  tsvd_fit_transform : Z -> list PcData -> M Rng Amb (list (list spec_float));

  (** [hdbscan.hdbscan(data, **kwargs)[0]] *)
  hdbscan : list (list spec_float) -> PyDict.dict -> M Rng Amb (list Z);

  (** random_projections.py: the nodes of the pipeline, per peak *)
  extract_sparse_waveform :
    Recording -> Peak -> spec_float -> spec_float -> spec_float ->
    M Rng Amb SparseWf;
  savgol_denoise : Recording -> SparseWf -> PyDict.dict -> M Rng Amb DenoisedWf;
  channel_features : feature_kind -> DenoisedWf -> list spec_float;

  (** templates, noise, sparsity *)
  estimate_templates :
    Recording -> list Spike -> list Z -> Z -> Z -> option PyDict.dict ->
    M Rng Amb Array3;
  get_noise_levels : Recording -> option PyDict.dict -> M Rng Amb (list spec_float);
  compute_sparsity :
    Templates -> list spec_float -> PyDict.dict -> M Rng Amb (list (list bool));

  (** the template-matching pass and the duplicate detection behind
      [remove_duplicates_via_matching]: for some units of the dictionary,
      the unit is a duplicate, of the given representative if any; it is
      given what the function receives: the templates, the labels of the
      peaks, the job keywords, the cleaning keywords and the temporary
      folder *)
  find_duplicates :
    Templates -> list Z -> option PyDict.dict -> PyDict.dict -> option Path ->
    M Rng Amb (list (Z * option Z))
}.

Definition W (E : Env) : Type := World (Rng E) (Amb E).
Definition Py (E : Env) (A : Type) : Type := M (Rng E) (Amb E) A.

(** [np.random.RandomState(s)] and [np.random.seed(s)] accept an integer
    seed between 0 and 2**32 - 1 and raise [ValueError] otherwise. *)
Definition valid_seed (s : Z) : bool := (0 <=? s) && (s <? 2 ^ 32).

Definition np_random_seed {E : Env} (s : Z) : Py E unit :=
  fun w =>
    if valid_seed s then (Ok tt, mkWorld (seed_state E s) (ambient w))
    else (Raise, w).

Definition RandomState {E : Env} (s : Z) : Py E (Rng E) :=
  if valid_seed s then ret (seed_state E s) else raise.

(** [rng.normal(loc, scale, size=(r, c))] on a private generator: [r * c]
    successive draws, laid out row by row; a negative dimension is a
    [ValueError]. *)
Fixpoint draws {E : Env} (n : nat) (g : Rng E) (loc scale : spec_float)
  : list spec_float * Rng E :=
  match n with
  | O => ([], g)
  | S n' =>
      let '(x, g') := normal1 E g loc scale in
      let '(xs, g'') := draws n' g' loc scale in
      (x :: xs, g'')
  end.

Fixpoint chunks {A} (r c : nat) (l : list A) : list (list A) :=
  match r with
  | O => []
  | S r' => firstn c l :: chunks r' c (skipn c l)
  end.

Definition rng_normal {E : Env} (g : Rng E) (loc scale : spec_float)
           (r : nat) (c : Z) : Res (Matrix * Rng E) :=
  if c <? 0 then Raise
  else
    let '(xs, g') := draws (r * Z.to_nat c) g loc scale in
    Ok (mkMatrix r (Z.to_nat c) (chunks r (Z.to_nat c) xs), g').

(* ------------------------------------------------------------------ *)
(** ** Slices of the template array *)

(** [A[:, i, :]], with Python's negative indices; [IndexError] when [i]
    is outside the sample axis. *)
Definition sample_slice (A : Array3) (i : Z) : Res (list (list spec_float)) :=
  let n := Z.of_nat (dim_samples A) in
  if (- n <=? i) && (i <? n) then
    let k := Z.to_nat (if i <? 0 then i + n else i) in
    Ok (map (fun u => nth k u []) (units A))
  else Raise.

Fixpoint res_map {A B} (f : A -> Res B) (l : list A) : Res (list B) :=
  match l with
  | [] => Ok []
  | x :: l' =>
      res_bind (f x) (fun y => res_bind (res_map f l') (fun ys => Ok (y :: ys)))
  end.

(** [np.argmax(rows, axis=1)] for rows of [nc] channels. *)
Definition argmax_axis1 (nc : nat) (rows : list (list spec_float))
  : Res (list nat) :=
  if Nat.eqb nc 0 then Raise else res_map Np.argmax rows.

(** [(rows / noise)[np.arange(len(rows)), best]]: the quotient is
    broadcast along the channel axis, then one entry per row is read;
    [IndexError] when the quotient has no such column (one channel
    against an empty [noise]). *)
Definition ratio_at_best (nc : nat) (rows : list (list spec_float))
           (noise : list spec_float) (best : list nat)
  : Res (list spec_float) :=
  let k := length noise in
  if Nat.eqb nc k || Nat.eqb k 1 || Nat.eqb nc 1 then
    res_map
      (fun rb => res_bind (Np.broadcast_div (fst rb) noise)
                   (fun q => match nth_error q (snd rb) with
                             | Some x => Ok x
                             | None => Raise
                             end))
      (combine rows best)
  else Raise.

(* ------------------------------------------------------------------ *)
(** ** Collaborators of this repository that are not in the two files *)

Module TemplatesOps.

(** Modelled from the spec: [Templates.to_sparse] (core/template.py is
    missing).  "Templates are created once per clustering pass, then
    narrowed (masked to sparse channels)": the object keeps its units
    and carries the channel mask of the sparsity rule. *)
Definition to_sparse (T : Templates) (sparsity : list (list bool)) : Templates :=
  mkTemplates (templates_array T) (sampling_frequency T) (nbefore T)
              (Some sparsity) (unit_ids T).

(** [templates.sparsity_mask.sum(axis=1) == 0], one flag per unit. *)
Definition empty_rows (mask : list (list bool)) : list bool :=
  map (fun row => Nat.eqb (Np.count row) 0) mask.

End TemplatesOps.

Module Tools.

(** Modelled from the spec: [remove_empty_templates]
    (sortingcomponents/tools.py is missing).  "Any unit whose resulting
    mask has zero active channels ... is removed from the unit set": the
    units whose mask row has an active channel are kept, in order, with
    their rows of the array and of the mask. *)
Definition remove_empty_templates (T : Templates) : Templates :=
  match sparsity_mask T with
  | None => T
  | Some mask =>
      let not_empty := map negb (TemplatesOps.empty_rows mask) in
      let A := templates_array T in
      mkTemplates
        (mkArray3 (dim_samples A) (dim_channels A) (Np.select (units A) not_empty))
        (sampling_frequency T) (nbefore T)
        (Some (Np.select mask not_empty))
        (Np.select (unit_ids T) not_empty)
  end.

End Tools.

Module Features.

Definition dot (x y : list spec_float) : spec_float :=
  fold_left (fun acc p => F64.add acc (F64.mul (fst p) (snd p)))
            (combine x y) (S754_zero false).

Definition column (P : Matrix) (j : nat) : list spec_float :=
  map (fun row => nth j row (S754_zero false)) (entries P).

(** Modelled from the spec: [RandomProjectionsFeature]
    (sortingcomponents/features_from_peaks.py is missing).  "Compute a
    scalar feature (e.g. energy norm or peak-to-peak) per projected
    channel, producing one feature vector per peak of length
    num_projections": the per-channel scalars of the peak times the
    projection matrix, one entry per column. *)
Definition RandomProjectionsFeature (P : Matrix) (x : list spec_float)
  : list spec_float :=
  map (fun j => dot x (column P j)) (seq 0 (n_cols P)).

End Features.

Module ClusteringTools.
Section WithEnv.
Context {E : Env}.

(** The verdicts that concern a unit of the dictionary. *)
Definition about (T : Templates) (merges : list (Z * option Z))
  : list (Z * option Z) :=
  filter (fun m => existsb (Z.eqb (fst m)) (unit_ids T)) merges.

Definition discarded (merges : list (Z * option Z)) (u : Z) : bool :=
  existsb (fun m => fst m =? u) merges.

Definition survivor (T : Templates) (merges : list (Z * option Z)) (u : Z)
  : bool :=
  (0 <=? u) && existsb (Z.eqb u) (unit_ids T) && negb (discarded merges u).

(** The surviving unit a duplicate of [r] ends in: [r] itself when it
    survives, the unit its own representative ends in when [r] is a
    duplicate too, [-1] when the chain of representatives reaches no
    survivor. *)
Fixpoint merged_into (fuel : nat) (T : Templates) (merges : list (Z * option Z))
         (r : Z) : Z :=
  if survivor T merges r then r
  else
    match fuel with
    | O => -1
    | S fuel' =>
        match find (fun m => fst m =? r) merges with
        | Some (_, Some r') => merged_into fuel' T merges r'
        | _ => -1
        end
    end.

Definition redirect (T : Templates) (merges : list (Z * option Z)) (l : Z)
  : Z :=
  if l <? 0 then l
  else match find (fun m => fst m =? l) merges with
       | None => l
       | Some (_, None) => -1
       | Some (_, Some r) => merged_into (length merges) T merges r
       end.

(** Modelled from the spec: [remove_duplicates_via_matching]
    (clustering/clustering_tools.py is missing).  The matching pass
    and the duplicate detection are the black box [find_duplicates];
    a duplicate is "merged, keeping one representative template and
    redirecting peak labels of the discarded unit to the surviving
    one" (when its representative is a duplicate too, the unit that
    one is merged into), its assignments are "set to -1 where no
    survivor could be matched"; noise stays noise.  "labels = sorted unique surviving
    unit indices; peak_labels = original-length array": the labels
    are read off the relabelled array with the idiom of
    circus.py:177-178, which is also how the caller pairs the two
    (spyking_circus2.py:281-283). *)
Definition remove_duplicates_via_matching
           (T : Templates) (peak_labels : list Z)
           (job_kwargs : option PyDict.dict) (cleaning : PyDict.dict)
           (tmp_folder : option (Path E))
  : Py E (list Z * list Z) :=
  found <- find_duplicates E T peak_labels job_kwargs cleaning tmp_folder ;;
  let merges := about T found in
  let new_labels := map (redirect T merges) peak_labels in
  let labels := Np.unique new_labels in
  let labels := filter (fun l => 0 <=? l) labels in
  ret (labels, new_labels).

End WithEnv.
End ClusteringTools.

(** The spikes of the labelled peaks (circus.py:180-184,
    random_projections.py:123-127): [mask = peak_labels > -1], then the
    sample and segment of [peaks[mask]] with the label [peak_labels[mask]]. *)
Definition spikes_of (peaks : list Peak) (peak_labels : list Z)
  : Res (list Spike) :=
  let mask := map (fun l => -1 <? l) peak_labels in
  res_bind (Np.bool_index peaks mask) (fun sel =>
  res_bind (Np.bool_index peak_labels mask) (fun units =>
  Ok (map (fun pu => mkSpike (sample_index (fst pu)) (snd pu)
                             (segment_index (fst pu)))
          (combine sel units)))).

(* ------------------------------------------------------------------ *)
(** ** circus.py *)

Module CircusClustering.

Record Params (E : Env) : Type := mkParams {
  hdbscan_kwargs : PyDict.dict;
  cleaning_kwargs : PyDict.dict;
  waveforms_ms_before : spec_float;
  waveforms_ms_after : spec_float;
  sparsity : PyDict.dict;
  radius_um : spec_float;
  n_svd : Z * Z;
  ms_before : spec_float;
  ms_after : spec_float;
  random_seed : Z;
  noise_levels : option (list spec_float);
  tmp_folder : option (Path E);
  job_kwargs : PyDict.dict
}.
Arguments hdbscan_kwargs {E}.
Arguments cleaning_kwargs {E}.
Arguments waveforms_ms_before {E}.
Arguments waveforms_ms_after {E}.
Arguments sparsity {E}.
Arguments radius_um {E}.
Arguments n_svd {E}.
Arguments ms_before {E}.
Arguments ms_after {E}.
Arguments random_seed {E}.
Arguments noise_levels {E}.
Arguments tmp_folder {E}.
Arguments job_kwargs {E}.

(** Lines 88-93: [int(ms * fs / 1000.0)] for the two windows and their
    sum. *)
Definition samples (ms fs : spec_float) : Res Z :=
  F64.to_int (F64.div (F64.mul ms fs) (F64.of_Z 1000)).

Definition window (fs ms_before ms_after : spec_float) : Res (Z * Z * Z) :=
  res_bind (samples ms_before fs) (fun nbefore =>
  res_bind (samples ms_after fs) (fun nafter =>
  let num_samples := nbefore + nafter in
  Ok (nbefore, nafter, num_samples))).

Section WithEnv.
Context {E : Env}.

(** Lines 71-84: the assert, the two in-place rewrites of [params],
    [fix_job_kwargs] and [verbose].  Returns [params] as the lines leave
    it, the job keywords of [fix_job_kwargs] and [verbose]. *)
Definition prologue (params : Params E)
  : Res (Params E * PyDict.dict * PyDict.PyVal) :=
  if have_hdbscan E then
    res_bind (CircusKwargs.prologue (cpu_count E) (fix_job_kwargs E)
                                    (job_kwargs params) (hdbscan_kwargs params))
             (fun pro =>
    let '(params_job_kwargs, params_hdbscan_kwargs, fixed_job_kwargs, verbose) :=
      pro in
    Ok (mkParams E params_hdbscan_kwargs (cleaning_kwargs params)
                 (waveforms_ms_before params) (waveforms_ms_after params)
                 (sparsity params) (radius_um params) (n_svd params)
                 (ms_before params) (ms_after params) (random_seed params)
                 (noise_levels params) (tmp_folder params) params_job_kwargs,
        fixed_job_kwargs, verbose))
  else Raise.

(** [local_labels[valid] += nb_clusters]. *)
Definition add_masked (a : list Z) (mask : list bool) (v : Z) : list Z :=
  Np.scatter a mask (map (fun x => x + v) (Np.select a mask)).

(** Lines 161-175: the body of the loop over channels, on the running
    pair [(peak_labels, nb_clusters)]. *)
Definition cluster_channel
           (peaks : list Peak) (all_pc_data : list (PcData E))
           (params : Params E) (c : Z) (st : list Z * Z)
  : Py E (list Z * Z) :=
  let '(peak_labels, nb_clusters) := st in
  let mask := map (fun p => channel_index p =? c) peaks in
  sub_data <- lift (Np.bool_index all_pc_data mask) ;;
  hdbscan_data <- tsvd_fit_transform E (snd (n_svd params)) sub_data ;;
  local_labels <-
    try_except (hdbscan E hdbscan_data (hdbscan_kwargs params))
               (ret (repeat 0 (length hdbscan_data))) ;;
  let valid_clusters := map (fun l => -1 <? l) local_labels in
  if (0 <? Np.count valid_clusters)%nat then
    let local_labels := add_masked local_labels valid_clusters nb_clusters in
    peak_labels <- lift (Np.assign_masked peak_labels mask local_labels) ;;
    let nb_clusters :=
      nb_clusters
      + Z.of_nat (length (Np.unique (Np.select local_labels valid_clusters))) in
    ret (peak_labels, nb_clusters)
  else ret (peak_labels, nb_clusters).

Fixpoint cluster_channels
         (peaks : list Peak) (all_pc_data : list (PcData E))
         (params : Params E) (channels : list Z) (st : list Z * Z)
  : Py E (list Z * Z) :=
  match channels with
  | [] => ret st
  | c :: channels' =>
      st' <- cluster_channel peaks all_pc_data params c st ;;
      cluster_channels peaks all_pc_data params channels' st'
  end.

(** Lines 88-177: everything up to the label array of the clustering:
    the seed, the temporary folder, the two decompositions and the
    loop over [np.unique(peaks["channel_index"])].  The folder is
    returned with the labels.  [params] is the object as lines 73-79
    left it. *)
Definition clustering_stage
           (recording : Recording E) (peaks : list Peak) (params : Params E)
  : Py E (list Z * Path E) :=
  let fs := get_sampling_frequency E recording in
  let ms_before := ms_before params in
  let ms_after := ms_after params in
  wnd <- lift (window fs ms_before ms_after) ;;
  np_random_seed (random_seed params) ;;;
  tmp_folder <-
    match tmp_folder params with
    | None => fresh_tmp_folder E
    | Some p => absolute E p
    end ;;
  mkdir E tmp_folder ;;;
  few_peaks <- select_peaks E peaks 10000 ;;
  few_peaks <- select_peaks E peaks 10000 ;;
  few_wfs <-
    extract_waveform_at_max_channel E recording few_peaks ms_before ms_after
                                    (job_kwargs params) ;;
  tsvd <- tsvd_fit E (fst (n_svd params)) few_wfs ;;
  model_folder <- save_model E tmp_folder tsvd ms_before ms_after fs ;;
  all_pc_data <-
    extract_features E recording peaks ms_before ms_after (radius_um params)
                     model_folder (job_kwargs params) ;;
  let peak_labels := repeat (-1) (length peaks) in
  let nb_clusters := 0 in
  st <- cluster_channels peaks all_pc_data params
                         (Np.unique (map channel_index peaks))
                         (peak_labels, nb_clusters) ;;
  ret (fst st, tmp_folder).

(** Lines 177-202: spikes, templates, sparsity and the removal of the
    empty templates.  [peak_labels] is not written.  [job_kwargs] is the
    local variable of line 82. *)
Definition template_stage
           (recording : Recording E) (peaks : list Peak) (params : Params E)
           (job_kwargs : PyDict.dict) (peak_labels : list Z)
  : Py E Templates :=
  let fs := get_sampling_frequency E recording in
  let labels := Np.unique peak_labels in
  let labels := filter (fun l => 0 <=? l) labels in
  spikes <- lift (spikes_of peaks peak_labels) ;;
  let unit_ids := Np.arange (length (Np.unique (map unit_index spikes))) in
  nbefore <- lift (samples (waveforms_ms_before params) fs) ;;
  nafter <- lift (samples (waveforms_ms_after params) fs) ;;
  templates_array <-
    estimate_templates E recording spikes unit_ids nbefore nafter
                       (Some job_kwargs) ;;
  let templates := mkTemplates templates_array fs nbefore None unit_ids in
  noise_levels <-
    match noise_levels params with
    | None => get_noise_levels E recording None
    | Some nl => ret nl
    end ;;
  sparsity <- compute_sparsity E templates noise_levels (sparsity params) ;;
  let templates := TemplatesOps.to_sparse templates sparsity in
  let templates := Tools.remove_empty_templates templates in
  ret templates.

(** Lines 88-202: what [remove_duplicates_via_matching] receives.
    [params] is the object as lines 73-79 left it. *)
Definition before_matching
           (recording : Recording E) (peaks : list Peak) (params : Params E)
           (job_kwargs : PyDict.dict)
  : Py E (Templates * list Z * Path E) :=
  cl <- clustering_stage recording peaks params ;;
  let '(peak_labels, tmp_folder) := cl in
  templates <- template_stage recording peaks params job_kwargs peak_labels ;;
  ret (templates, peak_labels, tmp_folder).

(** Lines 71-221.  [verbose] only guards the two prints. *)
Definition main_function
           (recording : Recording E) (peaks : list Peak) (params : Params E)
  : Py E (list Z * list Z) :=
  pro <- lift (prologue params) ;;
  let '(params, fixed_job_kwargs, verbose) := pro in
  st <- before_matching recording peaks params fixed_job_kwargs ;;
  let '(templates, peak_labels, tmp_folder) := st in
  let cleaning_matching_params :=
    CircusKwargs.cleaning_matching_params (job_kwargs params) in
  ClusteringTools.remove_duplicates_via_matching
    templates peak_labels (Some cleaning_matching_params) (cleaning_kwargs params)
    (Some tmp_folder).

End WithEnv.
End CircusClustering.

(* ------------------------------------------------------------------ *)
(** ** random_projections.py *)

Module RandomProjectionClustering.

Record Params (E : Env) : Type := mkParams {
  hdbscan_kwargs : PyDict.dict;
  cleaning_kwargs : PyDict.dict;
  waveforms_ms_before : spec_float;
  waveforms_ms_after : spec_float;
  sparsity : PyDict.dict;
  radius_um : spec_float;
  nb_projections : Z;
  feature : feature_kind;
  ms_before : spec_float;
  ms_after : spec_float;
  random_seed : Z;
  noise_levels : option (list spec_float);
  smoothing_kwargs : PyDict.dict;
  noise_threshold : spec_float
}.
Arguments hdbscan_kwargs {E}.
Arguments cleaning_kwargs {E}.
Arguments waveforms_ms_before {E}.
Arguments waveforms_ms_after {E}.
Arguments sparsity {E}.
Arguments radius_um {E}.
Arguments nb_projections {E}.
Arguments feature {E}.
Arguments ms_before {E}.
Arguments ms_after {E}.
Arguments random_seed {E}.
Arguments noise_levels {E}.
Arguments smoothing_kwargs {E}.
Arguments noise_threshold {E}.

(** Lines 71-72, 91-92, 131-132: [int(ms * fs / 1000.0)]. *)
Definition samples (ms fs : spec_float) : Res Z :=
  F64.to_int (F64.div (F64.mul ms fs) (F64.of_Z 1000)).

(** Line 88. *)
Definition num_projections (num_chans : nat) (nb_projections : Z) : Z :=
  Z.min (Z.of_nat num_chans) nb_projections.

(** Line 89: the scale handed to [rng.normal]. *)
Definition projection_scale (num_chans : nat) : spec_float :=
  F64.div (F64.of_Z 1) (F64.sqrt (F64.of_Z (Z.of_nat num_chans))).

Section WithEnv.
Context {E : Env}.

(** Lines 74 and 88-89: the private generator and the projection
    matrix. *)
Definition projections (num_chans : nat) (params : Params E) : Py E Matrix :=
  rng <- RandomState (random_seed params) ;;
  let num_projections := num_projections num_chans (nb_projections params) in
  drawn <- lift (rng_normal rng (S754_zero false) (projection_scale num_chans)
                            num_chans num_projections) ;;
  ret (fst drawn).

(** Modelled from the spec: [run_node_pipeline] on the four nodes of
    lines 76-111 (core/node_pipeline.py is missing).  One feature
    vector per peak, in the order of the peaks: the sparse waveform of
    the peak, its smoothed version, its per-channel scalars and their
    image under the projection matrix. *)
Definition run_node_pipeline
           (recording : Recording E) (peaks : list Peak) (params : Params E)
           (P : Matrix)
  : Py E (list (list spec_float)) :=
  mapM (fun p =>
          wf <- extract_sparse_waveform E recording p (ms_before params)
                                        (ms_after params) (radius_um params) ;;
          den <- savgol_denoise E recording wf (smoothing_kwargs params) ;;
          ret (Features.RandomProjectionsFeature
                 P (channel_features E (feature params) den)))
       peaks.

(** Lines 69-118: windows, generator, projections, features and the
    one global call of hdbscan. *)
Definition clustering_stage
           (recording : Recording E) (peaks : list Peak) (params : Params E)
           (job_kwargs : PyDict.dict)
  : Py E (list Z) :=
  let fs := get_sampling_frequency E recording in
  nbefore <- lift (samples (ms_before params) fs) ;;
  nafter <- lift (samples (ms_after params) fs) ;;
  let num_chans := get_num_channels E recording in
  P <- projections num_chans params ;;
  nbefore <- lift (samples (ms_before params) fs) ;;
  nafter <- lift (samples (ms_after params) fs) ;;
  hdbscan_data <- run_node_pipeline recording peaks params P ;;
  peak_labels <- hdbscan E hdbscan_data (hdbscan_kwargs params) ;;
  ret peak_labels.

(** Lines 148-151: which templates pass the noise threshold. *)
Definition valid_templates_of
           (templates_array : Array3) (nbefore : Z)
           (noise_levels : list spec_float) (noise_threshold : spec_float)
  : Res (list bool) :=
  res_bind (sample_slice templates_array nbefore) (fun rows =>
  let peak_snrs := map (map F64.abs) rows in
  res_bind (argmax_axis1 (dim_channels templates_array) peak_snrs)
           (fun best_channels =>
  res_bind (ratio_at_best (dim_channels templates_array) peak_snrs
                          noise_levels best_channels)
           (fun best_snrs_ratio =>
  Ok (map (fun r => F64.ltb noise_threshold r) best_snrs_ratio)))).

(** Lines 120-173: spikes, templates, the noise threshold, sparsity,
    the removal of the empty templates and the two resets of
    [peak_labels]. *)
Definition pruning_stage
           (recording : Recording E) (peaks : list Peak) (params : Params E)
           (job_kwargs : PyDict.dict) (peak_labels : list Z)
  : Py E (Templates * list Z) :=
  let fs := get_sampling_frequency E recording in
  let labels := Np.unique peak_labels in
  let labels := filter (fun l => 0 <=? l) labels in
  spikes <- lift (spikes_of peaks peak_labels) ;;
  let unit_ids := Np.arange (length (Np.unique (map unit_index spikes))) in
  nbefore <- lift (samples (waveforms_ms_before params) fs) ;;
  nafter <- lift (samples (waveforms_ms_after params) fs) ;;
  noise_levels <-
    match noise_levels params with
    | None => get_noise_levels E recording (Some job_kwargs)
    | Some nl => ret nl
    end ;;
  templates_array <-
    estimate_templates E recording spikes unit_ids nbefore nafter
                       (Some job_kwargs) ;;
  valid_templates <-
    lift (valid_templates_of templates_array nbefore noise_levels
                             (noise_threshold params)) ;;
  kept_units <- lift (Np.bool_index unit_ids valid_templates) ;;
  let templates :=
    mkTemplates
      (mkArray3 (dim_samples templates_array) (dim_channels templates_array)
                (Np.select (units templates_array) valid_templates))
      fs nbefore None kept_units in
  sparsity <- compute_sparsity E templates noise_levels (sparsity params) ;;
  let templates := TemplatesOps.to_sparse templates sparsity in
  empty_templates <-
    lift (match sparsity_mask templates with
          | Some mask => Ok (TemplatesOps.empty_rows mask)
          | None => Raise
          end) ;;
  let templates := Tools.remove_empty_templates templates in
  let mask := Np.isin peak_labels (Np.where_ empty_templates) in
  let peak_labels := Np.fill peak_labels mask (-1) in
  let mask := Np.isin peak_labels (Np.where_ (map negb valid_templates)) in
  let peak_labels := Np.fill peak_labels mask (-1) in
  ret (templates, peak_labels).

(** Lines 69-173: what [remove_duplicates_via_matching] receives. *)
Definition before_matching
           (recording : Recording E) (peaks : list Peak) (params : Params E)
           (job_kwargs : PyDict.dict)
  : Py E (Templates * list Z) :=
  peak_labels <- clustering_stage recording peaks params job_kwargs ;;
  pruning_stage recording peaks params job_kwargs peak_labels.

(** Lines 64-184: the assert of line 64, then the stages.  [verbose]
    (line 67) only guards the two prints. *)
Definition main_function
           (recording : Recording E) (peaks : list Peak) (params : Params E)
           (job_kwargs : PyDict.dict)
  : Py E (list Z * list Z) :=
  lift (if have_hdbscan E then Ok tt else Raise) ;;;
  st <- before_matching recording peaks params job_kwargs ;;
  let '(templates, peak_labels) := st in
  let cleaning_job_kwargs := CircusKwargs.cleaning_job_kwargs job_kwargs in
  ClusteringTools.remove_duplicates_via_matching
    templates peak_labels (Some cleaning_job_kwargs) (cleaning_kwargs params) None.

End WithEnv.
End RandomProjectionClustering.

(* ------------------------------------------------------------------ *)
(** ** spyking_circus2.py: what the sorter does with the two outputs *)

Module Spykingcircus2Sorter.

(** Lines 282-284: [for count, l in enumerate(labels)], each round
    writing [count] where [peak_labels[mask] == l]; [labeled_peaks] comes
    from [np.zeros]. *)
Definition unit_index_of (labels sub : list Z) : list Z :=
  fold_left
    (fun unit_index cl =>
       let '(count, l) := cl in
       let sub_mask := map (fun x => x =? l) sub in
       Np.fill unit_index sub_mask count)
    (combine (Np.arange (length labels)) labels)
    (repeat 0 (length sub)).

(** Lines 277-285: the labelled peaks as spikes, with the unit ids of the
    sorting. *)
Definition labeled_peaks
           (labels peak_labels : list Z) (selected_peaks : list Peak)
  : Res (list Spike * list Z) :=
  let mask := map (fun l => -1 <? l) peak_labels in
  res_bind (Np.bool_index selected_peaks mask) (fun sel =>
  res_bind (Np.bool_index peak_labels mask) (fun sub =>
  let units := unit_index_of labels sub in
  let labeled :=
    map (fun pu => mkSpike (sample_index (fst pu)) (snd pu) (segment_index (fst pu)))
        (combine sel units) in
  let unit_ids := Np.arange (length (Np.unique (map unit_index labeled))) in
  Ok (labeled, unit_ids))).

End Spykingcircus2Sorter.

(* ------------------------------------------------------------------ *)
(** ** spyking_circus2.py: the keyword dictionaries *)

Module SorterKwargs.
Import PyDict.

(** spyking_circus2.py, lines 246-263: the parameters handed to the
    clustering. *)
Definition clustering_params
           (clustering sparsity detection_params : dict)
           (peak_sign radius_um ms_before ms_after waveforms noise_levels
            verbose tmp_folder debug : PyVal)
  : dict :=
  let p := clustering in
  let p := set k_waveforms (PDict []) p in
  let sparsity_kwargs :=
    if negb (mem k_peak_sign sparsity) then set k_peak_sign peak_sign sparsity
    else sparsity in
  let p := set k_sparsity (PDict sparsity_kwargs) p in
  let p := set k_radius_um radius_um p in
  let p := set k_waveforms (PDict (set k_ms_before ms_before [])) p in
  let p :=
    set k_waveforms (PDict (set k_ms_after ms_after (set k_ms_before ms_before [])))
        p in
  let p := set k_few_waveforms waveforms p in
  let p := set k_noise_levels noise_levels p in
  let p := set k_ms_before ms_before p in
  let p := set k_ms_after ms_after p in
  let p := set k_verbose verbose p in
  let p := set k_tmp_folder tmp_folder p in
  let p := set k_debug debug p in
  set k_noise_threshold (get_default k_detect_threshold (PInt 4) detection_params) p.

(** Lines 265-270. *)
Definition clustering_method (clustering_params : dict) : String.string :=
  let legacy := get_default k_legacy (PBool true) clustering_params in
  if truthy legacy then s_circus else s_random_projections.

(** Lines 317-319: the method is popped from [params["matching"]]
    itself, the copy made afterwards gets the templates.  Returns the
    method, the parameters of the matching and [params["matching"]] as
    the call leaves it. *)
Definition matching_setup (matching : dict) (templates : PyVal)
  : Res (PyVal * dict * dict) :=
  res_bind (pop k_method matching) (fun popped =>
  let '(matching_method, matching) := popped in
  let matching_params := set k_templates templates matching in
  Ok (matching_method, matching_params, matching)).

End SorterKwargs.

(* ------------------------------------------------------------------ *)
(** ** Vocabulary of the statements *)


(** [local_labels > -1], and [local_labels[valid] += nb] as a map. *)
Definition valid_label (l : Z) : bool := -1 <? l.

Definition shifted (local : list Z) (nb : Z) : list Z :=
  map (fun x => if valid_label x then x + nb else x) local.

(** The contract of the clustering library: noise is [-1], and the [k]
    clusters of one call are numbered [0 .. k-1]. *)
Definition hdbscan_noise_convention (E : Env) : Prop :=
  forall hd kw w local w',
    hdbscan E hd kw w = (Ok local, w') -> Forall (fun l => -1 <= l) local.

Definition hdbscan_contiguous (E : Env) : Prop :=
  forall hd kw w local w',
    hdbscan E hd kw w = (Ok local, w') ->
    Forall (fun l => l < Z.of_nat (length (Np.unique (filter valid_label local))))
           local.

Section LoopPredicates.
Context {E : Env}.
Variable peaks : list Peak.

(** [peaks["channel_index"] == c]. *)
Definition chan_mask (c : Z) : list bool :=
  map (fun p => channel_index p =? c) peaks.

(** Where the labels of one channel come from: a call of hdbscan that
    returned, or the zeros of the [except] branch. *)
Definition local_source (local : list Z) : Prop :=
  (exists hd kw w1 w2, hdbscan E hd kw w1 = (Ok local, w2))
  \/ (exists n, local = repeat 0 n).

(** Invariant of the loop: every label is at least [-1]. *)
Definition labels_well_formed (st : list Z * Z) : Prop :=
  Forall (fun l => -1 <= l) (fst st) /\ 0 <= snd st
  /\ length (fst st) = length peaks.

(** Peaks of two channels never share a non-noise label. *)
Definition separated (pl : list Z) : Prop :=
  forall i j pi pj li lj,
    nth_error peaks i = Some pi -> nth_error peaks j = Some pj ->
    nth_error pl i = Some li -> nth_error pl j = Some lj ->
    channel_index pi <> channel_index pj ->
    0 <= li -> 0 <= lj -> li <> lj.

(** Invariant of the loop: the labels in use are below the running
    offset, and the channels seen so far are separated. *)
Definition labels_separated (st : list Z * Z) : Prop :=
  length (fst st) = length peaks /\ 0 <= snd st
  /\ (forall i l, nth_error (fst st) i = Some l -> l < snd st)
  /\ separated (fst st).

End LoopPredicates.

(** [peak_labels[i] == -1 or peak_labels[i] in labels], for every index
    of the peak array. *)
Definition label_validity (peaks : list Peak) (labels peak_labels : list Z) : Prop :=
  length peak_labels = length peaks /\
  forall i, (i < length peaks)%nat ->
            exists l, nth_error peak_labels i = Some l /\ (l = -1 \/ In l labels).

(** The labels of [peak_labels] that name a unit of [before] which is no
    longer a unit of [T]. *)
Definition dangling (before : list Z) (T : Templates) (peak_labels : list Z)
  : list Z :=
  filter (fun l => (0 <=? l) && existsb (Z.eqb l) before
                   && negb (existsb (Z.eqb l) (unit_ids T)))
         (Np.unique peak_labels).

(** What a computation does to the global generator: it leaves it as it
    was, it leaves it in the state [g], or it never looks at it. *)
Definition keeps_global {Rng Amb A} (m : M Rng Amb A) : Prop :=
  forall w, np_global (snd (m w)) = np_global w.

Definition sets_global {Rng Amb A} (g : Rng) (m : M Rng Amb A) : Prop :=
  forall w, np_global (snd (m w)) = g.

Definition rng_blind {Rng Amb A} (m : M Rng Amb A) : Prop :=
  forall w1 w2, ambient w1 = ambient w2 -> m w1 = m w2.

(** No callee of circus.py touches the global generator. *)
Record global_rng_untouched (E : Env) : Prop := {
  keep_fresh_tmp_folder : keeps_global (fresh_tmp_folder E);
  keep_absolute : forall p, keeps_global (absolute E p);
  keep_mkdir : forall p, keeps_global (mkdir E p);
  keep_select_peaks : forall peaks n, keeps_global (select_peaks E peaks n);
  keep_extract_waveform_at_max_channel :
    forall r p a b k, keeps_global (extract_waveform_at_max_channel E r p a b k);
  keep_tsvd_fit : forall n wf, keeps_global (tsvd_fit E n wf);
  keep_save_model : forall p t a b fs, keeps_global (save_model E p t a b fs);
  keep_extract_features :
    forall r p a b rad mf k, keeps_global (extract_features E r p a b rad mf k);
  keep_tsvd_fit_transform : forall n d, keeps_global (tsvd_fit_transform E n d);
  keep_hdbscan : forall d k, keeps_global (hdbscan E d k);
  keep_estimate_templates :
    forall r s u a b k, keeps_global (estimate_templates E r s u a b k);
  keep_get_noise_levels : forall r k, keeps_global (get_noise_levels E r k);
  keep_compute_sparsity : forall T nl k, keeps_global (compute_sparsity E T nl k);
  keep_find_duplicates :
    forall T pl jk ck tmp, keeps_global (find_duplicates E T pl jk ck tmp)
}.

(** No callee of random_projections.py touches the global generator. *)
Record projections_rng_untouched (E : Env) : Prop := {
  rp_keep_extract_sparse_waveform :
    forall r p a b rad, keeps_global (extract_sparse_waveform E r p a b rad);
  rp_keep_savgol_denoise : forall r wf k, keeps_global (savgol_denoise E r wf k);
  rp_keep_hdbscan : forall d k, keeps_global (hdbscan E d k);
  rp_keep_estimate_templates :
    forall r s u a b k, keeps_global (estimate_templates E r s u a b k);
  rp_keep_get_noise_levels : forall r k, keeps_global (get_noise_levels E r k);
  rp_keep_compute_sparsity :
    forall T nl k, keeps_global (compute_sparsity E T nl k);
  rp_keep_find_duplicates :
    forall T pl jk ck tmp, keeps_global (find_duplicates E T pl jk ck tmp)
}.

(** Invariant of the loop over channels, with the channels already seen:
    the labels in use are exactly [0 .. nb_clusters - 1], and the peaks
    of the channels still to come are noise. *)
Definition labels_cover (peaks : list Peak) (visited : list Z) (st : list Z * Z)
  : Prop :=
  length (fst st) = length peaks /\ 0 <= snd st
  /\ (forall i p l,
         nth_error peaks i = Some p -> nth_error (fst st) i = Some l ->
         -1 <= l < snd st /\ (~ In (channel_index p) visited -> l = -1))
  /\ (forall v, 0 <= v < snd st -> In v (fst st)).

(** [l] is the position of a [True] of [flags]: what
    [np.isin(l, np.where(flags)[0])] tests. *)
Definition flagged (flags : list bool) (l : Z) : bool :=
  (0 <=? l) && nth (Z.to_nat l) flags false.

(** The two arrays of flags of one run of lines 120-165 of
    random_projections.py on [peak_labels], from the world [w] to the
    world [w']: [valid] is [valid_templates] (line 151), computed from
    the templates [estimate_templates] returned for the spikes of
    [peak_labels] and from the noise levels; [mask] is what
    [compute_sparsity] returned (line 164) for the templates that passed
    the threshold. *)
Definition pruning_flags {E : Env}
           (rec : Recording E) (peaks : list Peak)
           (params : RandomProjectionClustering.Params E) (jk : PyDict.dict)
           (peak_labels : list Z) (w : W E)
           (valid : list bool) (mask : list (list bool)) (w' : W E) : Prop :=
  let fs := get_sampling_frequency E rec in
  exists spikes nb na noise w1 arr w2 kept,
    spikes_of peaks peak_labels = Ok spikes
    /\ RandomProjectionClustering.samples
         (RandomProjectionClustering.waveforms_ms_before params) fs = Ok nb
    /\ RandomProjectionClustering.samples
         (RandomProjectionClustering.waveforms_ms_after params) fs = Ok na
    /\ match RandomProjectionClustering.noise_levels params with
       | None => get_noise_levels E rec (Some jk)
       | Some nl => ret nl
       end w = (Ok noise, w1)
    /\ estimate_templates
         E rec spikes (Np.arange (length (Np.unique (map unit_index spikes))))
         nb na (Some jk) w1 = (Ok arr, w2)
    /\ RandomProjectionClustering.valid_templates_of
         arr nb noise (RandomProjectionClustering.noise_threshold params)
       = Ok valid
    /\ Np.bool_index (Np.arange (length (Np.unique (map unit_index spikes)))) valid
       = Ok kept
    /\ compute_sparsity
         E (mkTemplates (mkArray3 (dim_samples arr) (dim_channels arr)
                                  (Np.select (units arr) valid))
                        fs nb None kept)
         noise (RandomProjectionClustering.sparsity params) w2
       = (Ok mask, w').

(** The last position of [l] in [labels], if any. *)
Fixpoint last_position (l : Z) (labels : list Z) : option nat :=
  match labels with
  | [] => None
  | x :: rest =>
      match last_position l rest with
      | Some u => Some (S u)
      | None => if x =? l then Some 0%nat else None
      end
  end.

(** The contract of [estimate_templates]: the sample axis of the array
    it returns has [nbefore + nafter] entries. *)
Definition templates_span_window (E : Env) (rec : Recording E) (nb na : Z) : Prop :=
  forall spikes ids kw w arr w',
    estimate_templates E rec spikes ids nb na kw w = (Ok arr, w') ->
    dim_samples arr = Z.to_nat (nb + na).

(* ------------------------------------------------------------------ *)
(** ** A small concrete environment

    Generator states are integers ([seed_state] is the identity, every
    draw adds one), the ambient state is a counter of temporary folders,
    a recording is its sampling frequency and channel count, a feature
    row is the sample index of its peak, a waveform is its number of
    channels and carries the value 1 on each of them.  Subsampling and
    the first decomposition advance the global generator by [k].  The
    clusterer, the template estimator, the sparsity rule and the
    duplicate detection are parameters.  hdbscan is installed, the
    machine has 8 processors and [fix_job_kwargs] returns its argument. *)

Record ToyRecording : Type := mkToyRecording {
  toy_fs : spec_float;
  toy_channels : nat
}.

Definition toy_draw {A} (k : Z) (a : A) : M Z Z A :=
  fun w => (Ok a, mkWorld (np_global w + k) (ambient w)).

Definition toy
           (k : Z)
           (hdb : list (list spec_float) -> Res (list Z))
           (templ : list Z -> Z -> Z -> Array3)
           (spars : Templates -> list (list bool))
           (dups : list Z -> list (Z * option Z))
  : Env :=
  {| Rng := Z;
     Amb := Z;
     Recording := ToyRecording;
     Path := Z;
     Waveforms := unit;
     Tsvd := unit;
     PcData := Z;
     SparseWf := nat;
     DenoisedWf := nat;
     have_hdbscan := true;
     cpu_count := PyDict.PInt 8;
     fix_job_kwargs := fun d => Ok d;
     get_sampling_frequency := toy_fs;
     get_num_channels := toy_channels;
     seed_state := fun s => s;
     normal1 := fun g _ scale => (scale, g + 1);
     fresh_tmp_folder :=
       fun w => (Ok (ambient w), mkWorld (np_global w) (ambient w + 1));
     absolute := fun p => ret p;
     mkdir := fun _ => ret tt;
     select_peaks := fun peaks _ => toy_draw k peaks;
     extract_waveform_at_max_channel := fun _ _ _ _ _ => ret tt;
     tsvd_fit := fun _ _ => toy_draw k tt;
     save_model := fun p _ _ _ _ => ret p;
     extract_features := fun _ peaks _ _ _ _ _ => ret (map sample_index peaks);
     tsvd_fit_transform := fun _ rows => ret (map (fun z => [F64.of_Z z]) rows);
     hdbscan := fun data _ => lift (hdb data);
     extract_sparse_waveform := fun r _ _ _ _ => ret (toy_channels r);
     savgol_denoise := fun _ wf _ => ret wf;
     channel_features := fun _ n => repeat (F64.of_Z 1) n;
     estimate_templates :=
       fun _ _ unit_ids nbefore nafter _ => ret (templ unit_ids nbefore nafter);
     get_noise_levels := fun _ _ => ret [F64.of_Z 1];
     compute_sparsity := fun T _ _ => ret (spars T);
     find_duplicates := fun T _ _ _ _ => ret (dups (unit_ids T)) |}.

Definition toy_world : World Z Z := mkWorld 7 0.

Definition f_half : spec_float := F64.div (F64.of_Z 1) (F64.of_Z 2).

Definition toy_rec (channels : nat) : ToyRecording :=
  mkToyRecording (F64.of_Z 1000) channels.

Definition peak_at (sample channel : Z) : Peak :=
  mkPeak sample channel 0 (F64.of_Z (-50)).

(** Clusterers: one cluster for the whole call; a call that raises; one
    that raises on an empty array only; one cluster per row. *)
Definition hdb_zeros (data : list (list spec_float)) : Res (list Z) :=
  Ok (repeat 0 (length data)).

Definition hdb_fails (data : list (list spec_float)) : Res (list Z) := Raise.

Definition hdb_strict (data : list (list spec_float)) : Res (list Z) :=
  match data with
  | [] => Raise
  | _ => Ok (repeat 0 (length data))
  end.

Definition hdb_singletons (data : list (list spec_float)) : Res (list Z) :=
  Ok (Np.arange (length data)).

(** Templates of four samples on one channel, with the amplitude
    [amp u] at the third sample, whatever the window asked for. *)
Definition toy_templates (amp : Z -> Z) (ids : list Z) (nbefore nafter : Z)
  : Array3 :=
  mkArray3 4 1
    (map (fun u => [[F64.of_Z 0]; [F64.of_Z 0]; [F64.of_Z (amp u)]; [F64.of_Z 0]])
         ids).

Definition strong_templates : list Z -> Z -> Z -> Array3 :=
  toy_templates (fun _ => 9).


(** A sparsity rule by amplitude: a channel is active for a unit when
    the template reaches [thr] on it, in absolute value. *)
Definition toy_sparsity (thr : Z) (T : Templates) : list (list bool) :=
  map (fun u =>
         map (fun c =>
                existsb (fun sample =>
                           F64.leb (F64.of_Z thr)
                                   (F64.abs (nth c sample (S754_zero false))))
                        u)
             (seq 0 (dim_channels (templates_array T))))
      (units (templates_array T)).

Definition no_duplicates (ids : list Z) : list (Z * option Z) := [].

(** Keywords for the small environment: a job dictionary that asks for
    every processor. *)
Definition toy_kwargs : PyDict.dict :=
  [(PyDict.k_n_jobs, PyDict.PInt (-1)); (PyDict.k_verbose, PyDict.PBool false)].

(** The default parameters, with a window of two samples on each side for
    the templates at 1 kHz. *)
Definition circus_params (E : Env) (kw : PyDict.dict) : CircusClustering.Params E :=
  CircusClustering.mkParams E kw kw (F64.of_Z 2) (F64.of_Z 2) kw (F64.of_Z 100)
                            (5, 10) f_half f_half 42 None None kw.

Definition rp_params (E : Env) (kw : PyDict.dict) (nb : Z)
  : RandomProjectionClustering.Params E :=
  RandomProjectionClustering.mkParams E kw kw (F64.of_Z 2) (F64.of_Z 2) kw
                                      (F64.of_Z 30) nb Energy f_half f_half 42 None
                                      kw (F64.of_Z 4).

Definition peaks_two_channels : list Peak :=
  [peak_at 10 0; peak_at 20 1; peak_at 30 0].

Definition peaks_one_channel : list Peak :=
  [peak_at 10 0; peak_at 20 0; peak_at 30 0].

(** One cluster per call, every template kept, unit 1 a duplicate of
    unit 0. *)
Definition env_merging (k : Z) : Env :=
  toy k hdb_zeros strong_templates (toy_sparsity 1) (fun _ => [(1, Some 0)]).

(** Flat templates: the sparsity rule leaves them no channel. *)
Definition env_all_empty : Env :=
  toy 1 hdb_zeros (toy_templates (fun _ => 0)) (toy_sparsity 1) no_duplicates.

(** Three units of amplitudes 1, 5 and 9, for a noise threshold of 4 and
    a sparsity threshold of 6: unit 0 is under the noise threshold, unit
    1 gets an empty mask, unit 2 is kept. *)
Definition env_index_slip : Env :=
  toy 1 hdb_singletons
      (toy_templates (fun u => if u =? 0 then 1 else if u =? 1 then 5 else 9))
      (toy_sparsity 6) no_duplicates.

Definition env_failing : Env :=
  toy 1 hdb_fails strong_templates (toy_sparsity 1) no_duplicates.

Definition env_strict : Env :=
  toy 1 hdb_strict strong_templates (toy_sparsity 1) no_duplicates.


(** Parameters with a seed NumPy refuses. *)
Definition circus_params_bad_seed (E : Env) (kw : PyDict.dict)
  : CircusClustering.Params E :=
  CircusClustering.mkParams E kw kw (F64.of_Z 2) (F64.of_Z 2) kw (F64.of_Z 100)
                            (5, 10) f_half f_half (-1) None None kw.

Definition four_peaks : list Peak :=
  [peak_at 10 0; peak_at 20 0; peak_at 30 1; peak_at 40 1].

(** [params["matching"]] as the sorter's defaults give it. *)
Definition matching_default : PyDict.dict :=
  [(PyDict.k_method, PyDict.PStr PyDict.s_circus_omp_svd)].

(* ================================================================== *)
(** * Proofs *)

(* ------------------------------------------------------------------ *)
(** ** Facts about the monad *)

Section MonadFacts.
Context {Rng Amb : Type}.

Lemma bind_ok {A B} (m : M Rng Amb A) (k : A -> M Rng Amb B) w b w' :
  bind m k w = (Ok b, w') ->
  exists a w1, m w = (Ok a, w1) /\ k a w1 = (Ok b, w').
Proof.
  unfold bind. destruct (m w) as [[a|] w1]; intros H.
  - exists a, w1. split; [reflexivity | exact H].
  - discriminate H.
Qed.

Lemma bind_step {A B} (m : M Rng Amb A) (k : A -> M Rng Amb B) w a w1 :
  m w = (Ok a, w1) -> bind m k w = k a w1.
Proof. unfold bind. intros ->. reflexivity. Qed.

Lemma bind_raise {A B} (m : M Rng Amb A) (k : A -> M Rng Amb B) w w1 :
  m w = (Raise, w1) -> bind m k w = (Raise, w1).
Proof. unfold bind. intros ->. reflexivity. Qed.

Lemma lift_ok {A} (r : Res A) (w : World Rng Amb) a w' :
  lift r w = (Ok a, w') -> r = Ok a /\ w' = w.
Proof. unfold lift. intros H. inversion H. split; reflexivity. Qed.

Lemma ret_ok {A} (x : A) (w : World Rng Amb) a w' :
  ret x w = (Ok a, w') -> a = x /\ w' = w.
Proof. unfold ret. intros H. inversion H. split; reflexivity. Qed.

Lemma try_except_ok {A} (m h : M Rng Amb A) w a w' :
  try_except m h w = (Ok a, w') ->
  m w = (Ok a, w') \/ exists w1, m w = (Raise, w1) /\ h w1 = (Ok a, w').
Proof.
  unfold try_except. destruct (m w) as [[x|] w1]; intros H.
  - left. exact H.
  - right. exists w1. split; [reflexivity | exact H].
Qed.

End MonadFacts.

(* ------------------------------------------------------------------ *)
(** ** Truncation *)


Lemma res_bind_ok {A B} (r : Res A) (k : A -> Res B) b :
  res_bind r k = Ok b -> exists a, r = Ok a /\ k a = Ok b.
Proof. destruct r as [a|]; simpl; intros H; [eauto | discriminate]. Qed.

(* ------------------------------------------------------------------ *)
(** ** Facts about [np.unique] *)

Lemma in_insert_sorted x y l :
  In x (Np.insert_sorted y l) <-> x = y \/ In x l.
Proof.
  induction l as [|z l IH]; simpl.
  - intuition.
  - destruct (y <? z) eqn:Hlt; [simpl; intuition|].
    destruct (y =? z) eqn:Heq.
    + apply Z.eqb_eq in Heq. subst. simpl. intuition.
    + simpl. rewrite IH. intuition.
Qed.

Lemma in_unique x l : In x (Np.unique l) <-> In x l.
Proof.
  induction l as [|y l IH]; simpl; [reflexivity|].
  rewrite in_insert_sorted, IH. intuition.
Qed.

(* ------------------------------------------------------------------ *)
(** ** The matching-based deduplication *)

Section Dedup.
Context {E : Env}.

Lemma merged_into_lower_bound fuel T merges r :
  -1 <= ClusteringTools.merged_into fuel T merges r.
Proof.
  revert r. induction fuel as [|fuel IH]; intros r; simpl;
    destruct (ClusteringTools.survivor T merges r) eqn:Hs;
    try (unfold ClusteringTools.survivor in Hs;
         apply andb_prop in Hs as [Hs _]; apply andb_prop in Hs as [Hs _];
         apply Z.leb_le in Hs; lia);
    try lia.
  destruct (find _ merges) as [[u [r'|]]|]; try lia. apply IH.
Qed.

Lemma redirect_lower_bound T merges l :
  -1 <= l -> -1 <= ClusteringTools.redirect T merges l.
Proof.
  intros Hl. unfold ClusteringTools.redirect.
  destruct (l <? 0) eqn:Hneg; [exact Hl|].
  apply Z.ltb_ge in Hneg.
  destruct (find _ merges) as [[u [r|]]|]; try lia.
  apply merged_into_lower_bound.
Qed.

Lemma label_valid_after_unique (new_labels : list Z) l :
  In l new_labels -> -1 <= l ->
  l = -1 \/ In l (filter (fun l => 0 <=? l) (Np.unique new_labels)).
Proof.
  intros Hin Hl.
  destruct (Z.eq_dec l (-1)) as [->|Hne]; [left; reflexivity | right].
  apply filter_In. split; [apply in_unique; exact Hin | apply Z.leb_le; lia].
Qed.

(** What [remove_duplicates_via_matching] returns, whenever it returns. *)
Lemma remove_duplicates_ok T pl jk ck tmp w labels pl' w' :
  ClusteringTools.remove_duplicates_via_matching T pl jk ck tmp w
  = (Ok (labels, pl'), w') ->
  exists found,
    find_duplicates E T pl jk ck tmp w = (Ok found, w') /\
    pl' = map (ClusteringTools.redirect T (ClusteringTools.about T found)) pl /\
    labels = filter (fun l => 0 <=? l) (Np.unique pl').
Proof.
  unfold ClusteringTools.remove_duplicates_via_matching. intros H.
  apply bind_ok in H as (found & w1 & Hf & H).
  apply ret_ok in H as [H ->]. inversion H; subst.
  exists found. repeat split. exact Hf.
Qed.

End Dedup.

(* ------------------------------------------------------------------ *)
(** ** Facts about masks *)

Lemma select_map {A B} (h : A -> B) (f : A -> bool) (a : list A) :
  Np.select (map h a) (map f a) = map h (filter f a).
Proof.
  induction a as [|x a IH]; simpl; [reflexivity|].
  destruct (f x); simpl; rewrite IH; reflexivity.
Qed.

Lemma select_filter {A} (f : A -> bool) (a : list A) :
  Np.select a (map f a) = filter f a.
Proof.
  rewrite <- (map_id a) at 1. rewrite select_map. apply map_id.
Qed.

Lemma count_map {A} (f : A -> bool) (a : list A) :
  Np.count (map f a) = length (filter f a).
Proof.
  unfold Np.count. induction a as [|x a IH]; simpl; [reflexivity|].
  destruct (f x); simpl; rewrite IH; reflexivity.
Qed.

Lemma length_select_le {A} (a : list A) mask :
  (length (Np.select a mask) <= length a)%nat.
Proof.
  revert mask. induction a as [|x a IH]; intros [|b mask]; simpl; try lia.
  specialize (IH mask). destruct b; simpl; lia.
Qed.

Lemma length_select {A} (a : list A) mask :
  length a = length mask -> length (Np.select a mask) = Np.count mask.
Proof.
  unfold Np.count. revert mask.
  induction a as [|x a IH]; intros [|b mask]; simpl; intros H; try lia.
  destruct b; simpl; rewrite IH by lia; reflexivity.
Qed.

Lemma scatter_map (f : Z -> bool) (g : Z -> Z) (a : list Z) :
  Np.scatter a (map f a) (map g (filter f a))
  = map (fun x => if f x then g x else x) a.
Proof.
  induction a as [|x a IH]; simpl; [reflexivity|].
  destruct (f x); simpl; rewrite IH; reflexivity.
Qed.

Lemma length_scatter a : forall mask vals,
  length (Np.scatter a mask vals) = length a.
Proof.
  induction a as [|x a IH]; intros [|b mask] vals; simpl; try reflexivity.
  destruct b; [destruct vals|]; simpl; rewrite IH; reflexivity.
Qed.

Lemma length_fill a : forall mask v, length (Np.fill a mask v) = length a.
Proof.
  induction a as [|x a IH]; intros [|b mask] v; simpl; try reflexivity.
  rewrite IH. reflexivity.
Qed.

Lemma scatter_repeat a : forall mask v,
  Np.scatter a mask (repeat v (Np.count mask)) = Np.fill a mask v.
Proof.
  unfold Np.count.
  induction a as [|x a IH]; intros [|b mask] v; simpl; try reflexivity.
  destruct b; simpl; rewrite IH; reflexivity.
Qed.

Lemma fill_nth a : forall mask v i,
  length a = length mask ->
  (nth_error mask i = Some true -> nth_error (Np.fill a mask v) i = Some v) /\
  (nth_error mask i = Some false -> nth_error (Np.fill a mask v) i = nth_error a i).
Proof.
  induction a as [|x a IH]; intros [|b mask] v i Hlen; simpl in *; try lia.
  { destruct i; simpl; split; discriminate. }
  destruct i as [|i]; simpl.
  - split; intros H; inversion H; subst; reflexivity.
  - apply IH. lia.
Qed.

Lemma scatter_nth a : forall mask vals i,
  length a = length mask -> (Np.count mask <= length vals)%nat ->
  (nth_error mask i = Some false ->
   nth_error (Np.scatter a mask vals) i = nth_error a i) /\
  (nth_error mask i = Some true ->
   exists v, nth_error (Np.scatter a mask vals) i = Some v /\ In v vals).
Proof.
  unfold Np.count.
  induction a as [|x a IH]; intros [|b mask] vals i Hlen Hcnt; simpl in *; try lia.
  { destruct i; simpl; split; discriminate. }
  destruct b; simpl in *.
  - destruct vals as [|v vals]; simpl in *; [lia|].
    destruct i as [|i]; simpl.
    + split; [discriminate|]. intros _. exists v. split; [reflexivity | now left].
    + destruct (IH mask vals i) as [H1 H2]; try lia.
      split; [exact H1|]. intros H. destruct (H2 H) as (u & Hu & Hin).
      exists u. split; [exact Hu | now right].
  - destruct i as [|i]; simpl.
    + split; [reflexivity | discriminate].
    + apply IH; lia.
Qed.

Lemma assign_masked_nth a mask vals a' :
  Np.assign_masked a mask vals = Ok a' ->
  length a' = length a /\ length a = length mask /\
  forall i,
    (nth_error mask i = Some false -> nth_error a' i = nth_error a i) /\
    (nth_error mask i = Some true ->
     exists v, nth_error a' i = Some v /\ In v vals).
Proof.
  unfold Np.assign_masked.
  destruct (Nat.eqb (length a) (length mask)) eqn:Hlen; simpl; [|discriminate].
  apply Nat.eqb_eq in Hlen.
  destruct (Nat.eqb (length vals) (Np.count mask)) eqn:Hcnt.
  - apply Nat.eqb_eq in Hcnt. intros H. inversion H; subst.
    split; [apply length_scatter|]. split; [exact Hlen|].
    intros i. apply scatter_nth; lia.
  - destruct vals as [|v [|v' vals]]; try discriminate.
    intros H. inversion H; subst.
    split; [apply length_fill|]. split; [exact Hlen|].
    intros i. destruct (fill_nth a mask v i Hlen) as [H1 H2].
    split; [exact H2|]. intros Ht. exists v. split; [auto | now left].
Qed.

(* ------------------------------------------------------------------ *)
(** ** More facts about [np.unique] *)

Lemma insert_sorted_shift v x l :
  Np.insert_sorted (x + v) (map (fun y => y + v) l)
  = map (fun y => y + v) (Np.insert_sorted x l).
Proof.
  induction l as [|y l IH]; simpl; [reflexivity|].
  replace (x + v <? y + v) with (x <? y)
    by (destruct (Z.ltb_spec x y), (Z.ltb_spec (x + v) (y + v)); lia || reflexivity).
  replace (x + v =? y + v) with (x =? y)
    by (destruct (Z.eqb_spec x y), (Z.eqb_spec (x + v) (y + v)); lia || reflexivity).
  destruct (x <? y); [reflexivity|].
  destruct (x =? y); [reflexivity|]. simpl. rewrite IH. reflexivity.
Qed.

Lemma unique_shift v l :
  Np.unique (map (fun y => y + v) l) = map (fun y => y + v) (Np.unique l).
Proof.
  induction l as [|x l IH]; simpl; [reflexivity|].
  rewrite IH. apply insert_sorted_shift.
Qed.

Lemma unique_repeat v n : Np.unique (repeat v (S n)) = [v].
Proof.
  induction n as [|n IH].
  - reflexivity.
  - change (repeat v (S (S n))) with (v :: repeat v (S n)).
    unfold Np.unique in *. simpl fold_right. simpl in IH. rewrite IH.
    simpl. rewrite Z.ltb_irrefl, Z.eqb_refl. reflexivity.
Qed.

Lemma unique_nonempty x l : In x l -> (0 < length (Np.unique l))%nat.
Proof.
  intros H. apply in_unique in H.
  destruct (Np.unique l); [destruct H | simpl; lia].
Qed.

(* ------------------------------------------------------------------ *)
(** ** The loop over channels of circus.py *)

Lemma add_masked_shifted local nb :
  CircusClustering.add_masked local (map valid_label local) nb = shifted local nb.
Proof.
  unfold CircusClustering.add_masked, shifted.
  rewrite select_filter. apply scatter_map.
Qed.

Lemma select_shifted local nb :
  Np.select (shifted local nb) (map valid_label local)
  = map (fun x => x + nb) (filter valid_label local).
Proof.
  unfold shifted. rewrite select_map.
  apply map_ext_in. intros x Hx. apply filter_In in Hx as [_ Hx].
  rewrite Hx. reflexivity.
Qed.

Lemma shifted_repeat n nb : shifted (repeat 0 n) nb = repeat nb n.
Proof.
  unfold shifted. induction n as [|n IH]; simpl; [reflexivity|].
  rewrite IH. reflexivity.
Qed.

Lemma filter_valid_repeat n : filter valid_label (repeat 0 n) = repeat 0 n.
Proof. induction n as [|n IH]; simpl; [reflexivity | rewrite IH; reflexivity]. Qed.
Section Loop.
Context {E : Env}.
Variables (peaks : list Peak) (data : list (PcData E))
          (params : CircusClustering.Params E).

Lemma cluster_channel_ok c pl nb w pl' nb' w' :
  CircusClustering.cluster_channel peaks data params c (pl, nb) w
  = (Ok (pl', nb'), w') ->
  exists local,
    local_source (E:=E) local /\
    ((filter valid_label local = [] /\ pl' = pl /\ nb' = nb) \/
     (Np.assign_masked pl (chan_mask peaks c) (shifted local nb) = Ok pl' /\
      nb' = nb + Z.of_nat (length (Np.unique (filter valid_label local))))).
Proof.
  unfold CircusClustering.cluster_channel. intros H.
  apply bind_ok in H as (sub & w1 & _ & H).
  apply bind_ok in H as (hd & w2 & _ & H).
  apply bind_ok in H as (local & w3 & Hloc & H).
  exists local. split.
  { apply try_except_ok in Hloc as [Hloc | (w4 & _ & Hloc)].
    - left. eauto.
    - right. apply ret_ok in Hloc as [-> _]. eauto. }
  change (map (fun l : Z => -1 <? l) local) with (map valid_label local) in H.
  destruct (0 <? Np.count (map valid_label local))%nat eqn:Hcnt.
  - right. rewrite add_masked_shifted in H.
    apply bind_ok in H as (pl1 & w4 & Hass & H).
    apply lift_ok in Hass as [Hass _].
    apply ret_ok in H as [H _]. inversion H; subst. split; [exact Hass|].
    rewrite select_shifted, unique_shift, length_map. reflexivity.
  - left. apply Nat.ltb_ge in Hcnt. rewrite count_map in Hcnt.
    apply ret_ok in H as [H _]. inversion H; subst.
    split; [|split; reflexivity].
    destruct (filter valid_label local); [reflexivity | simpl in Hcnt; lia].
Qed.

Lemma cluster_channels_inv (I : list Z * Z -> Prop) :
  (forall c st w st' w',
      CircusClustering.cluster_channel peaks data params c st w = (Ok st', w') ->
      I st -> I st') ->
  forall cs st w st' w',
    CircusClustering.cluster_channels peaks data params cs st w = (Ok st', w') ->
    I st -> I st'.
Proof.
  intros Hstep. induction cs as [|c cs IH]; simpl; intros st w st' w' H HI.
  - apply ret_ok in H as [-> _]. exact HI.
  - apply bind_ok in H as (st1 & w1 & H1 & H).
    eapply IH; [exact H | eapply Hstep; eauto].
Qed.

Lemma chan_mask_nth c i b :
  nth_error (chan_mask peaks c) i = Some b ->
  exists p, nth_error peaks i = Some p /\ b = (channel_index p =? c).
Proof.
  unfold chan_mask. rewrite nth_error_map.
  destruct (nth_error peaks i) as [p|]; simpl; intros H; inversion H.
  exists p. split; reflexivity.
Qed.

Lemma chan_mask_total c i p :
  nth_error peaks i = Some p ->
  nth_error (chan_mask peaks c) i = Some (channel_index p =? c).
Proof. unfold chan_mask. rewrite nth_error_map. intros ->. reflexivity. Qed.

Lemma length_chan_mask c : length (chan_mask peaks c) = length peaks.
Proof. apply length_map. Qed.

(** *** Labels stay at or above [-1] *)

Lemma local_source_lower :
  hdbscan_noise_convention E ->
  forall local, local_source (E:=E) local -> Forall (fun l => -1 <= l) local.
Proof.
  intros Hc local [(hd & kw & w1 & w2 & H) | (n & ->)].
  - eapply Hc; eauto.
  - apply Forall_forall. intros x Hx. apply repeat_spec in Hx. lia.
Qed.

Lemma shifted_lower local nb :
  Forall (fun l => -1 <= l) local -> 0 <= nb ->
  forall v, In v (shifted local nb) -> -1 <= v.
Proof.
  intros Hl Hnb v Hv. unfold shifted in Hv. apply in_map_iff in Hv as (x & <- & Hx).
  rewrite Forall_forall in Hl. specialize (Hl x Hx).
  destruct (valid_label x) eqn:Hx1; unfold valid_label in Hx1;
    [apply Z.ltb_lt in Hx1|]; lia.
Qed.

Lemma step_well_formed :
  hdbscan_noise_convention E ->
  forall c st w st' w',
    CircusClustering.cluster_channel peaks data params c st w = (Ok st', w') ->
    labels_well_formed peaks st -> labels_well_formed peaks st'.
Proof.
  intros Hc c [pl nb] w [pl' nb'] w' H (Hpl & Hnb & Hlen). simpl in *.
  apply cluster_channel_ok in H as (local & Hsrc & [(_ & -> & ->) | (Hass & ->)]).
  { repeat split; assumption. }
  pose proof (local_source_lower Hc local Hsrc) as Hlow.
  apply assign_masked_nth in Hass as (Hlen' & Hlm & Hnth).
  unfold labels_well_formed; simpl. repeat split; try lia.
  apply Forall_forall. intros v Hv. apply In_nth_error in Hv as (i & Hi).
  assert (Hlt : (i < length pl')%nat) by (apply nth_error_Some; congruence).
  destruct (nth_error (chan_mask peaks c) i) as [b|] eqn:Hb.
  2:{ apply nth_error_None in Hb. lia. }
  destruct (Hnth i) as [Hfalse Htrue]. destruct b.
  - destruct (Htrue Hb) as (u & Hu & Hin). rewrite Hi in Hu. inversion Hu; subst.
    eapply shifted_lower; eauto.
  - rewrite (Hfalse Hb) in Hi. rewrite Forall_forall in Hpl.
    apply Hpl. eapply nth_error_In; eauto.
Qed.

(** *** Labels of distinct channels do not meet *)

Lemma local_source_contiguous :
  hdbscan_contiguous E ->
  forall local, local_source (E:=E) local ->
    Forall (fun l => l < Z.of_nat (length (Np.unique (filter valid_label local))))
           local.
Proof.
  intros Hc local [(hd & kw & w1 & w2 & H) | (n & ->)].
  - eapply Hc; eauto.
  - apply Forall_forall. intros x Hx.
    rewrite filter_valid_repeat.
    pose proof (unique_nonempty x _ Hx) as Hpos.
    apply repeat_spec in Hx. lia.
Qed.

Lemma shifted_range local nb :
  Forall (fun l => l < Z.of_nat (length (Np.unique (filter valid_label local))))
         local ->
  forall v, In v (shifted local nb) ->
    v <= -1 \/
    nb <= v < nb + Z.of_nat (length (Np.unique (filter valid_label local))).
Proof.
  intros Hl v Hv. unfold shifted in Hv. apply in_map_iff in Hv as (x & <- & Hx).
  rewrite Forall_forall in Hl. specialize (Hl x Hx).
  destruct (valid_label x) eqn:Hx1; unfold valid_label in Hx1.
  - apply Z.ltb_lt in Hx1. right. lia.
  - apply Z.ltb_ge in Hx1. left. lia.
Qed.

Lemma step_separated :
  hdbscan_contiguous E ->
  forall c st w st' w',
    CircusClustering.cluster_channel peaks data params c st w = (Ok st', w') ->
    labels_separated peaks st -> labels_separated peaks st'.
Proof.
  intros Hc c [pl nb] w [pl' nb'] w' H (Hlen & Hnb & Hbound & Hsep). simpl in *.
  apply cluster_channel_ok in H as (local & Hsrc & [(_ & -> & ->) | (Hass & ->)]).
  { repeat split; assumption. }
  pose proof (shifted_range local nb (local_source_contiguous Hc local Hsrc))
    as Hrange.
  set (k := Z.of_nat (length (Np.unique (filter valid_label local)))) in *.
  assert (Hk : 0 <= k) by (unfold k; lia).
  apply assign_masked_nth in Hass as (Hlen' & Hlm & Hnth).
  (* every label of the new array *)
  assert (Hnew : forall i p l,
             nth_error peaks i = Some p -> nth_error pl' i = Some l ->
             (channel_index p = c /\ (l <= -1 \/ nb <= l < nb + k))
             \/ (channel_index p <> c /\ nth_error pl i = Some l /\ l < nb)).
  { intros i p l Hp Hl. pose proof (chan_mask_total c i p Hp) as Hm.
    destruct (Hnth i) as [Hfalse Htrue].
    destruct (Z.eqb_spec (channel_index p) c) as [Heq | Hne].
    - left. split; [exact Heq|].
      destruct (Htrue Hm) as (u & Hu & Hin). rewrite Hl in Hu. inversion Hu; subst.
      apply Hrange. exact Hin.
    - right. split; [exact Hne|]. rewrite (Hfalse Hm) in Hl.
      split; [exact Hl | eapply Hbound; eauto]. }
  unfold labels_separated; simpl. split; [lia|]. split; [lia|]. split.
  - intros i l Hl.
    assert (Hlt : (i < length peaks)%nat)
      by (rewrite <- Hlen, <- Hlen'; apply nth_error_Some; congruence).
    destruct (nth_error peaks i) as [p|] eqn:Hp.
    2:{ apply nth_error_None in Hp. lia. }
    destruct (Hnew i p l Hp Hl) as [(_ & [H1 | H1]) | (_ & _ & H1)]; lia.
  - intros i j pi pj li lj Hpi Hpj Hli Hlj Hch Hi0 Hj0.
    destruct (Hnew i pi li Hpi Hli) as [(Hci & [H1 | H1]) | (Hci & Holdi & H1)];
      destruct (Hnew j pj lj Hpj Hlj) as [(Hcj & [H2 | H2]) | (Hcj & Holdj & H2)];
      try lia; try congruence.
    exact (Hsep i j pi pj li lj Hpi Hpj Holdi Holdj Hch Hi0 Hj0).
Qed.

End Loop.

(* ------------------------------------------------------------------ *)
(** ** The outcome of the loop *)

Ltac bind_inv H :=
  repeat (let a := fresh "a" in
          let w := fresh "w" in
          let Hm := fresh "Hm" in
          apply bind_ok in H as (a & w & Hm & H)).

Lemma bool_index_ok {A} (a : list A) mask :
  length a = length mask -> Np.bool_index a mask = Ok (Np.select a mask).
Proof.
  intros H. unfold Np.bool_index. rewrite H, Nat.eqb_refl. reflexivity.
Qed.

Lemma bool_index_length {A} (a : list A) mask r :
  Np.bool_index a mask = Ok r -> length a = length mask.
Proof.
  unfold Np.bool_index. destruct (Nat.eqb (length a) (length mask)) eqn:H;
    [intros _; apply Nat.eqb_eq; exact H | discriminate].
Qed.

Lemma zeros_contiguous n :
  Forall (fun l => l < Z.of_nat (length (Np.unique (filter valid_label (repeat 0 n)))))
         (repeat 0 n).
Proof.
  apply Forall_forall. intros x Hx. rewrite filter_valid_repeat.
  pose proof (unique_nonempty x _ Hx) as Hpos.
  apply repeat_spec in Hx. lia.
Qed.

Section Circus.
Context {E : Env}.

Lemma clustering_stage_ok rec peaks (params : CircusClustering.Params E) w pl tmp w' :
  CircusClustering.clustering_stage rec peaks params w = (Ok (pl, tmp), w') ->
  exists data st w1 w2,
    CircusClustering.cluster_channels
      peaks data params (Np.unique (map channel_index peaks))
      (repeat (-1) (length peaks), 0) w1 = (Ok st, w2)
    /\ pl = fst st.
Proof.
  unfold CircusClustering.clustering_stage. intros H.
  bind_inv H. apply ret_ok in H as [H _]. inversion H; subst.
  eauto 10.
Qed.

Lemma initial_separated peaks :
  labels_separated peaks (repeat (-1) (length peaks), 0).
Proof.
  assert (Hrep : forall i l, nth_error (repeat (-1) (length peaks)) i = Some l -> l = -1).
  { intros i l H. apply nth_error_In in H. apply repeat_spec in H. exact H. }
  unfold labels_separated; simpl.
  split; [apply repeat_length|]. split; [lia|]. split.
  - intros i l H. apply Hrep in H. lia.
  - intros i j pi pj li lj _ _ Hi _ _ Hi0 _. apply Hrep in Hi. lia.
Qed.

Lemma initial_well_formed peaks :
  labels_well_formed peaks (repeat (-1) (length peaks), 0).
Proof.
  unfold labels_well_formed; simpl. split; [|split; [lia | apply repeat_length]].
  apply Forall_forall. intros x Hx. apply repeat_spec in Hx. lia.
Qed.

End Circus.

(** C6.  When each call of hdbscan numbers its clusters [0 .. k-1], the
    label array produced by the loop over channels of circus.py has one
    entry per peak, and two peaks of different channels never carry the
    same non-noise label. *)
Theorem channels_get_disjoint_clusters
        (E : Env) (Hc : hdbscan_contiguous E)
        rec peaks (params : CircusClustering.Params E) w pl tmp w'
        (Hrun : CircusClustering.clustering_stage rec peaks params w
                = (Ok (pl, tmp), w')) :
  length pl = length peaks /\ separated peaks pl.
Proof.
  apply clustering_stage_ok in Hrun as (data & st & w1 & w2 & Hloop & ->).
  pose proof (cluster_channels_inv peaks data params (labels_separated peaks)
                (step_separated peaks data params Hc) _ _ _ _ _ Hloop
                (initial_separated peaks)) as (Hlen & _ & _ & Hsep).
  split; [exact Hlen | exact Hsep].
Qed.

(** C2, as amended.  When hdbscan raises on a channel that has peaks, the
    [except] branch gives every peak of that channel the local label 0,
    which the running offset turns into the new cluster [nb_clusters]:
    the peaks of the channel get that label, the counter grows by one,
    the labels of the other channels are kept, and the loop goes on with
    the remaining channels. *)
Theorem failed_channel_becomes_one_cluster
        (E : Env) peaks (data : list (PcData E))
        (params : CircusClustering.Params E) c cs pl nb w hd w1 w2
        (Hpl : length pl = length peaks)
        (Hdata : length data = length peaks)
        (Hfit : tsvd_fit_transform E (snd (CircusClustering.n_svd params))
                                   (Np.select data (chan_mask peaks c)) w
                = (Ok hd, w1))
        (Hrows : length hd = Np.count (chan_mask peaks c))
        (Hsome : (0 < Np.count (chan_mask peaks c))%nat)
        (Hraise : hdbscan E hd (CircusClustering.hdbscan_kwargs params) w1
                  = (Raise, w2)) :
  let pl' := Np.fill pl (chan_mask peaks c) nb in
  CircusClustering.cluster_channel peaks data params c (pl, nb) w
  = (Ok (pl', nb + 1), w2)
  /\ CircusClustering.cluster_channels peaks data params (c :: cs) (pl, nb) w
     = CircusClustering.cluster_channels peaks data params cs (pl', nb + 1) w2
  /\ (forall i p, nth_error peaks i = Some p -> channel_index p = c ->
                  nth_error pl' i = Some nb)
  /\ (forall i p, nth_error peaks i = Some p -> channel_index p <> c ->
                  nth_error pl' i = nth_error pl i).
Proof.
  intros pl'.
  assert (Hmask : length (chan_mask peaks c) = length peaks) by apply length_chan_mask.
  assert (Hstep : CircusClustering.cluster_channel peaks data params c (pl, nb) w
                  = (Ok (pl', nb + 1), w2)).
  { unfold CircusClustering.cluster_channel.
    fold (chan_mask peaks c).
    rewrite (bool_index_ok data (chan_mask peaks c)) by lia.
    erewrite bind_step by reflexivity.
    erewrite bind_step by exact Hfit.
    erewrite bind_step
      by (unfold try_except; rewrite Hraise; reflexivity).
    change (map (fun l : Z => -1 <? l) (repeat 0 (length hd)))
      with (map valid_label (repeat 0 (length hd))).
    rewrite count_map, filter_valid_repeat, repeat_length.
    replace (0 <? length hd)%nat with true
      by (symmetry; apply Nat.ltb_lt; lia).
    rewrite add_masked_shifted, shifted_repeat.
    assert (Hass : Np.assign_masked pl (chan_mask peaks c) (repeat nb (length hd))
                   = Ok pl').
    { unfold Np.assign_masked.
      replace (Nat.eqb (length pl) (length (chan_mask peaks c))) with true
        by (symmetry; apply Nat.eqb_eq; lia).
      simpl. rewrite repeat_length, Hrows, Nat.eqb_refl.
      rewrite scatter_repeat. reflexivity. }
    rewrite Hass. erewrite bind_step by reflexivity.
    unfold ret. f_equal. f_equal. f_equal.
    rewrite <- (shifted_repeat (length hd) nb), select_shifted, unique_shift.
    rewrite filter_valid_repeat, length_map.
    destruct (length hd) as [|n] eqn:Hn; [lia|].
    rewrite unique_repeat. reflexivity. }
  split; [exact Hstep|]. split.
  { simpl. erewrite bind_step by exact Hstep. reflexivity. }
  split.
  - intros i p Hp Hch.
    destruct (fill_nth pl (chan_mask peaks c) nb i) as [Ht _]; [lia|].
    apply Ht. rewrite (chan_mask_total peaks c i p Hp).
    f_equal. apply Z.eqb_eq. exact Hch.
  - intros i p Hp Hch.
    destruct (fill_nth pl (chan_mask peaks c) nb i) as [_ Hf]; [lia|].
    apply Hf. rewrite (chan_mask_total peaks c i p Hp).
    f_equal. apply Z.eqb_neq. exact Hch.
Qed.

(* ------------------------------------------------------------------ *)
(** ** What the entry points return *)

Lemma fill_in a : forall mask v x, In x (Np.fill a mask v) -> x = v \/ In x a.
Proof.
  induction a as [|y a IH]; intros [|b mask] v x; simpl; auto.
  intros [H|H].
  - destruct b; auto.
  - apply IH in H. tauto.
Qed.

Lemma spikes_of_length peaks pl spikes :
  spikes_of peaks pl = Ok spikes -> length pl = length peaks.
Proof.
  unfold spikes_of. intros H.
  apply res_bind_ok in H as (sel & Hsel & _).
  apply bool_index_length in Hsel. rewrite length_map in Hsel. lia.
Qed.

Section Outputs.
Context {E : Env}.

Lemma circus_before_matching_ok rec peaks (params : CircusClustering.Params E)
      jk w T pl tmp w' :
  CircusClustering.before_matching rec peaks params jk w = (Ok (T, pl, tmp), w') ->
  exists w1,
    CircusClustering.clustering_stage rec peaks params w = (Ok (pl, tmp), w1)
    /\ CircusClustering.template_stage rec peaks params jk pl w1 = (Ok T, w').
Proof.
  unfold CircusClustering.before_matching. intros H.
  apply bind_ok in H as ([pl0 tmp0] & w1 & Hcl & H).
  apply bind_ok in H as (T0 & w2 & Ht & H).
  apply ret_ok in H as [H ->]. inversion H; subst.
  exists w1. split; assumption.
Qed.

(** What lines 71-84 leave: the two dictionaries rewritten, every other
    parameter as it was. *)
Lemma circus_prologue_ok (params : CircusClustering.Params E) params' jk verbose :
  CircusClustering.prologue params = Ok (params', jk, verbose) ->
  have_hdbscan E = true
  /\ CircusKwargs.prologue (cpu_count E) (fix_job_kwargs E)
                           (CircusClustering.job_kwargs params)
                           (CircusClustering.hdbscan_kwargs params)
     = Ok (CircusClustering.job_kwargs params',
           CircusClustering.hdbscan_kwargs params', jk, verbose)
  /\ CircusClustering.job_kwargs params'
     = CircusKwargs.resolve_cpu_count (cpu_count E) PyDict.k_n_jobs
                                      (CircusClustering.job_kwargs params)
  /\ CircusClustering.hdbscan_kwargs params'
     = CircusKwargs.resolve_cpu_count (cpu_count E) PyDict.k_core_dist_n_jobs
                                      (CircusClustering.hdbscan_kwargs params)
  /\ CircusClustering.ms_before params' = CircusClustering.ms_before params
  /\ CircusClustering.ms_after params' = CircusClustering.ms_after params
  /\ CircusClustering.waveforms_ms_before params'
     = CircusClustering.waveforms_ms_before params
  /\ CircusClustering.waveforms_ms_after params'
     = CircusClustering.waveforms_ms_after params
  /\ CircusClustering.n_svd params' = CircusClustering.n_svd params
  /\ CircusClustering.random_seed params' = CircusClustering.random_seed params
  /\ CircusClustering.tmp_folder params' = CircusClustering.tmp_folder params
  /\ CircusClustering.radius_um params' = CircusClustering.radius_um params.
Proof.
  unfold CircusClustering.prologue. intros H.
  destruct (have_hdbscan E); [|discriminate H].
  split; [reflexivity|].
  apply res_bind_ok in H as ([[[pjk phk] fixed] verb] & Hp & H).
  injection H as <- <- <-. simpl.
  split; [exact Hp|].
  unfold CircusKwargs.prologue in Hp.
  apply res_bind_ok in Hp as (f & _ & Hp).
  apply res_bind_ok in Hp as (v & _ & Hp).
  injection Hp as <- <- _ _.
  repeat split; reflexivity.
Qed.

Lemma circus_main_function_ok rec peaks (params : CircusClustering.Params E)
      w labels pl w' :
  CircusClustering.main_function rec peaks params w = (Ok (labels, pl), w') ->
  exists params' jk verbose T pl0 tmp w1,
    CircusClustering.prologue params = Ok (params', jk, verbose)
    /\ CircusClustering.before_matching rec peaks params' jk w
       = (Ok (T, pl0, tmp), w1)
    /\ ClusteringTools.remove_duplicates_via_matching
         T pl0
         (Some (CircusKwargs.cleaning_matching_params
                  (CircusClustering.job_kwargs params')))
         (CircusClustering.cleaning_kwargs params') (Some tmp) w1
       = (Ok (labels, pl), w').
Proof.
  unfold CircusClustering.main_function. intros H.
  apply bind_ok in H as ([[params' jk] verbose] & w0 & Hp & H).
  apply lift_ok in Hp as [Hp ->].
  apply bind_ok in H as ([[T pl0] tmp] & w1 & Hb & H).
  exists params', jk, verbose, T, pl0, tmp, w1. repeat split; assumption.
Qed.

Lemma circus_clustering_well_formed
      (Hc : hdbscan_noise_convention E)
      rec peaks (params : CircusClustering.Params E) w pl tmp w' :
  CircusClustering.clustering_stage rec peaks params w = (Ok (pl, tmp), w') ->
  Forall (fun l => -1 <= l) pl /\ length pl = length peaks.
Proof.
  intros Hrun.
  apply clustering_stage_ok in Hrun as (data & st & w1 & w2 & Hloop & ->).
  pose proof (cluster_channels_inv peaks data params (labels_well_formed peaks)
                (step_well_formed peaks data params Hc) _ _ _ _ _ Hloop
                (initial_well_formed peaks)) as (Hlow & _ & Hlen).
  split; assumption.
Qed.

Lemma rp_pruning_stage_ok rec peaks (params : RandomProjectionClustering.Params E)
      jk pl w T pl' w' :
  RandomProjectionClustering.pruning_stage rec peaks params jk pl w
  = (Ok (T, pl'), w') ->
  length pl = length peaks /\
  exists m1 m2, pl' = Np.fill (Np.fill pl m1 (-1)) m2 (-1).
Proof.
  unfold RandomProjectionClustering.pruning_stage. intros H.
  apply bind_ok in H as (spikes & w1 & Hsp & H).
  apply lift_ok in Hsp as [Hsp _]. apply spikes_of_length in Hsp.
  bind_inv H. apply ret_ok in H as [H _]. inversion H; subst.
  split; [exact Hsp|]. eauto.
Qed.

Lemma rp_main_function_ok rec peaks (params : RandomProjectionClustering.Params E)
      jk w labels pl w' :
  RandomProjectionClustering.main_function rec peaks params jk w
  = (Ok (labels, pl), w') ->
  exists T pl0 pl1 w1 w2,
    RandomProjectionClustering.clustering_stage rec peaks params jk w
    = (Ok pl0, w1)
    /\ RandomProjectionClustering.pruning_stage rec peaks params jk pl0 w1
       = (Ok (T, pl1), w2)
    /\ ClusteringTools.remove_duplicates_via_matching
         T pl1 (Some (CircusKwargs.cleaning_job_kwargs jk))
         (RandomProjectionClustering.cleaning_kwargs params) None w2
       = (Ok (labels, pl), w').
Proof.
  unfold RandomProjectionClustering.main_function,
         RandomProjectionClustering.before_matching. intros H.
  apply bind_ok in H as (u & w0 & Ha & H).
  apply lift_ok in Ha as [_ ->].
  apply bind_ok in H as ([T pl1] & w2 & Hb & H).
  apply bind_ok in Hb as (pl0 & w1 & Hc & Hp).
  exists T, pl0, pl1, w1, w2. repeat split; assumption.
Qed.

Lemma rp_clustering_stage_ok rec peaks (params : RandomProjectionClustering.Params E)
      jk w pl w' :
  RandomProjectionClustering.clustering_stage rec peaks params jk w = (Ok pl, w') ->
  exists hd w1,
    hdbscan E hd (RandomProjectionClustering.hdbscan_kwargs params) w1 = (Ok pl, w').
Proof.
  unfold RandomProjectionClustering.clustering_stage. intros H.
  bind_inv H. apply ret_ok in H as [H <-]. inversion H; subst. eauto.
Qed.

Lemma deduplicated_valid T pl0 jk ck tmp w labels pl w' :
  Forall (fun l => -1 <= l) pl0 ->
  ClusteringTools.remove_duplicates_via_matching (E:=E) T pl0 jk ck tmp w
  = (Ok (labels, pl), w') ->
  length pl = length pl0 /\
  forall l, In l pl -> l = -1 \/ In l labels.
Proof.
  intros Hlow Hrun.
  apply remove_duplicates_ok in Hrun as (found & _ & -> & ->).
  split; [apply length_map|].
  intros l Hin. apply label_valid_after_unique; [exact Hin|].
  apply in_map_iff in Hin as (l0 & <- & Hl0).
  apply redirect_lower_bound.
  rewrite Forall_forall in Hlow. apply Hlow. exact Hl0.
Qed.

End Outputs.

Lemma label_validity_of peaks labels pl :
  length pl = length peaks ->
  (forall l, In l pl -> l = -1 \/ In l labels) ->
  label_validity peaks labels pl.
Proof.
  intros Hlen Hin. split; [exact Hlen|].
  intros i Hi. destruct (nth_error pl i) as [l|] eqn:Hl.
  - exists l. split; [reflexivity|]. apply Hin. eapply nth_error_In. exact Hl.
  - apply nth_error_None in Hl. lia.
Qed.

(** C3.  When hdbscan numbers noise [-1] and clusters from 0, the pair
    [(labels, peak_labels)] returned by either entry point has one label
    per input peak, and each of them is [-1] or an element of [labels]. *)
Theorem returned_labels_are_valid
        (E : Env) (Hc : hdbscan_noise_convention E) :
  (forall rec peaks (params : CircusClustering.Params E) w labels pl w',
      CircusClustering.main_function rec peaks params w = (Ok (labels, pl), w') ->
      label_validity peaks labels pl)
  /\
  (forall rec peaks (params : RandomProjectionClustering.Params E) jk w labels pl w',
      RandomProjectionClustering.main_function rec peaks params jk w
      = (Ok (labels, pl), w') ->
      label_validity peaks labels pl).
Proof.
  split.
  - intros rec peaks params w labels pl w' Hrun.
    apply circus_main_function_ok in Hrun
      as (params' & jk & verbose & T & pl0 & tmp & w1 & _ & Hb & Hd).
    apply circus_before_matching_ok in Hb as (w0 & Hcl & _).
    apply (circus_clustering_well_formed Hc) in Hcl as [Hlow Hlen].
    apply (deduplicated_valid _ _ _ _ _ _ _ _ _ Hlow) in Hd as [Hlen' Hin].
    apply label_validity_of; [lia | exact Hin].
  - intros rec peaks params jk w labels pl w' Hrun.
    apply rp_main_function_ok in Hrun as (T & pl0 & pl1 & w1 & w2 & Hcl & Hp & Hd).
    apply rp_clustering_stage_ok in Hcl as (hd & w0 & Hh).
    apply Hc in Hh.
    apply rp_pruning_stage_ok in Hp as (Hlen & m1 & m2 & ->).
    assert (Hlow : Forall (fun l => -1 <= l) (Np.fill (Np.fill pl0 m1 (-1)) m2 (-1))).
    { apply Forall_forall. intros x Hx.
      apply fill_in in Hx as [->|Hx]; [lia|].
      apply fill_in in Hx as [->|Hx]; [lia|].
      rewrite Forall_forall in Hh. apply Hh. exact Hx. }
    apply (deduplicated_valid _ _ _ _ _ _ _ _ _ Hlow) in Hd as [Hlen' Hin].
    apply label_validity_of; [|exact Hin].
    rewrite Hlen', !length_fill. exact Hlen.
Qed.

(* ------------------------------------------------------------------ *)
(** ** The projection matrix *)

Section Projections.
Context {E : Env}.

Lemma draws_length n : forall (g : Rng E) loc scale,
  length (fst (draws n g loc scale)) = n.
Proof.
  induction n as [|n IH]; intros g loc scale; simpl; [reflexivity|].
  destruct (normal1 E g loc scale) as [x g'].
  specialize (IH g' loc scale).
  destruct (draws n g' loc scale) as [xs g'']. simpl in *. lia.
Qed.

Lemma chunks_length {A} r c : forall (l : list A), length (chunks r c l) = r.
Proof.
  induction r as [|r IH]; intros l; simpl; [reflexivity | rewrite IH; reflexivity].
Qed.

Lemma chunks_rows {A} r c : forall (l : list A),
  (r * c <= length l)%nat ->
  Forall (fun row => length row = c) (chunks r c l).
Proof.
  induction r as [|r IH]; intros l Hl; simpl; constructor.
  - apply firstn_length_le. lia.
  - apply IH. rewrite length_skipn. lia.
Qed.

Lemma RandomState_ok s (w : W E) g w' :
  RandomState s w = (Ok g, w') ->
  valid_seed s = true /\ g = seed_state E s /\ w' = w.
Proof.
  unfold RandomState. destruct (valid_seed s); [|discriminate].
  intros H. apply ret_ok in H as [H ->]. inversion H. auto.
Qed.

Lemma mapM_ok {A B} (f : A -> Py E B) (P : B -> Prop) :
  (forall a w b w', f a w = (Ok b, w') -> P b) ->
  forall l w bs w', mapM f l w = (Ok bs, w') ->
                    length bs = length l /\ Forall P bs.
Proof.
  intros Hf. induction l as [|a l IH]; simpl; intros w bs w' H.
  - apply ret_ok in H as [H _]. inversion H; subst. split; [reflexivity | constructor].
  - apply bind_ok in H as (b & w1 & Hb & H).
    apply bind_ok in H as (bs0 & w2 & Hbs & H).
    apply ret_ok in H as [H _]. inversion H; subst.
    apply IH in Hbs as [Hlen Hall]. simpl. split; [lia|].
    constructor; [eapply Hf; exact Hb | exact Hall].
Qed.

Lemma feature_length (P : Matrix) x :
  length (Features.RandomProjectionsFeature P x) = n_cols P.
Proof.
  unfold Features.RandomProjectionsFeature. rewrite length_map, length_seq.
  reflexivity.
Qed.

End Projections.

(** C7, as amended.  The projection matrix has [num_chans] rows and
    [min(num_chans, nb_projections)] columns; its entries are the
    successive normal draws of a private generator started from the
    seed, with mean 0 and scale [1 / sqrt(num_chans)], and the hidden
    state is left alone; every feature vector has one entry per column,
    so its length is that minimum and not [nb_projections]. *)
Theorem projections_shape
        (E : Env) (num_chans : nat) (params : RandomProjectionClustering.Params E)
        (w : W E) P w'
        (Hrun : RandomProjectionClustering.projections num_chans params w = (Ok P, w')) :
  let cols := Z.min (Z.of_nat num_chans)
                    (RandomProjectionClustering.nb_projections params) in
  w' = w
  /\ n_rows P = num_chans
  /\ 0 <= cols /\ n_cols P = Z.to_nat cols
  /\ entries P
     = chunks num_chans (n_cols P)
              (fst (draws (num_chans * n_cols P)
                          (seed_state E (RandomProjectionClustering.random_seed params))
                          (S754_zero false)
                          (RandomProjectionClustering.projection_scale num_chans)))
  /\ length (entries P) = num_chans
  /\ Forall (fun row => length row = n_cols P) (entries P)
  /\ (forall x, length (Features.RandomProjectionsFeature P x) = n_cols P)
  /\ (forall rec peaks w1 rows w2,
         RandomProjectionClustering.run_node_pipeline rec peaks params P w1
         = (Ok rows, w2) ->
         length rows = length peaks
         /\ Forall (fun row => length row = n_cols P) rows).
Proof.
  intros cols.
  unfold RandomProjectionClustering.projections in Hrun.
  apply bind_ok in Hrun as (g & w1 & Hg & Hrun).
  apply RandomState_ok in Hg as (_ & -> & ->).
  apply bind_ok in Hrun as ([P0 g'] & w2 & Hd & Hrun).
  apply lift_ok in Hd as [Hd ->].
  apply ret_ok in Hrun as [Hrun ->]. simpl in Hrun. subst P0.
  unfold rng_normal, RandomProjectionClustering.num_projections in Hd.
  fold cols in Hd.
  destruct (cols <? 0) eqn:Hneg; [discriminate|].
  apply Z.ltb_ge in Hneg.
  destruct (draws (num_chans * Z.to_nat cols)
                  (seed_state E (RandomProjectionClustering.random_seed params))
                  (S754_zero false)
                  (RandomProjectionClustering.projection_scale num_chans))
    as [xs g0] eqn:Hdr.
  injection Hd as <- <-. simpl.
  assert (Hxs : length xs = (num_chans * Z.to_nat cols)%nat).
  { pose proof (draws_length (num_chans * Z.to_nat cols)
                  (seed_state E (RandomProjectionClustering.random_seed params))
                  (S754_zero false)
                  (RandomProjectionClustering.projection_scale num_chans)) as Hl.
    rewrite Hdr in Hl. exact Hl. }
  rewrite Hdr. simpl.
  repeat split; try reflexivity; try assumption.
  - apply chunks_length.
  - apply chunks_rows. lia.
  - intros x. apply feature_length.
  - eapply mapM_ok with (P := fun row => length row = Z.to_nat cols) in H; [apply H|].
    intros p wa b wb Hb. bind_inv Hb. apply ret_ok in Hb as [Hb _].
    inversion Hb; subst. apply feature_length.
  - eapply mapM_ok with (P := fun row => length row = Z.to_nat cols) in H; [apply H|].
    intros p wa b wb Hb. bind_inv Hb. apply ret_ok in Hb as [Hb _].
    inversion Hb; subst. apply feature_length.
Qed.

(* ------------------------------------------------------------------ *)
(** ** The global generator *)

Section Frame.
Context {Rng Amb : Type}.

Lemma keeps_ret {A} (a : A) : keeps_global (ret (Rng:=Rng) (Amb:=Amb) a).
Proof. intros w. reflexivity. Qed.

Lemma keeps_raise {A} : keeps_global (raise (Rng:=Rng) (Amb:=Amb) (A:=A)).
Proof. intros w. reflexivity. Qed.

Lemma keeps_lift {A} (r : Res A) : keeps_global (lift (Rng:=Rng) (Amb:=Amb) r).
Proof. intros w. reflexivity. Qed.

Lemma keeps_bind {A B} (m : M Rng Amb A) (k : A -> M Rng Amb B) :
  keeps_global m -> (forall a, keeps_global (k a)) -> keeps_global (bind m k).
Proof.
  intros Hm Hk w. unfold bind. specialize (Hm w).
  destruct (m w) as [[a|] w1]; simpl in *; [rewrite Hk|]; exact Hm.
Qed.

Lemma keeps_try_except {A} (m h : M Rng Amb A) :
  keeps_global m -> keeps_global h -> keeps_global (try_except m h).
Proof.
  intros Hm Hh w. unfold try_except. specialize (Hm w).
  destruct (m w) as [[a|] w1]; simpl in *; [|rewrite Hh]; exact Hm.
Qed.

Lemma keeps_mapM {A B} (f : A -> M Rng Amb B) (l : list A) :
  (forall a, keeps_global (f a)) -> keeps_global (mapM f l).
Proof.
  intros Hf. induction l as [|x l IH]; simpl.
  - apply keeps_ret.
  - apply keeps_bind; [apply Hf|]. intros y.
    apply keeps_bind; [exact IH|]. intros ys. apply keeps_ret.
Qed.

Lemma sets_bind {A B} g (m : M Rng Amb A) (k : A -> M Rng Amb B) :
  sets_global g m -> (forall a, keeps_global (k a)) -> sets_global g (bind m k).
Proof.
  intros Hm Hk w. unfold bind. specialize (Hm w).
  destruct (m w) as [[a|] w1]; simpl in *; [rewrite Hk|]; exact Hm.
Qed.

Lemma sets_bind_lift {A B} g (a : A) (k : A -> M Rng Amb B) :
  sets_global g (k a) -> sets_global g (bind (lift (Ok a)) k).
Proof. intros Hk w. exact (Hk w). Qed.

Lemma blind_bind {A B} (m : M Rng Amb A) (k : A -> M Rng Amb B) :
  rng_blind m -> rng_blind (bind m k).
Proof. intros Hm w1 w2 Hw. unfold bind. rewrite (Hm w1 w2 Hw). reflexivity. Qed.

Lemma blind_bind_lift {A B} (a : A) (k : A -> M Rng Amb B) :
  rng_blind (k a) -> rng_blind (bind (lift (Ok a)) k).
Proof. intros Hk w1 w2 Hw. exact (Hk w1 w2 Hw). Qed.

End Frame.

Ltac keeps_step :=
  first
    [ apply keeps_ret | apply keeps_raise | apply keeps_lift
    | apply keeps_try_except
    | apply keeps_mapM; intros ?
    | apply keeps_bind; [| intros ?]
    | match goal with
      | |- keeps_global (match ?x with _ => _ end) => destruct x
      end ].

Section GlobalRng.
Context {E : Env}.

Lemma seed_sets s :
  valid_seed s = true -> sets_global (seed_state E s) (np_random_seed (E:=E) s).
Proof. intros Hs w. unfold np_random_seed. rewrite Hs. reflexivity. Qed.

Lemma seed_blind s :
  valid_seed s = true -> rng_blind (np_random_seed (E:=E) s).
Proof.
  intros Hs w1 w2 Hw. unfold np_random_seed. rewrite Hs, Hw. reflexivity.
Qed.

Lemma keeps_RandomState s : keeps_global (RandomState (E:=E) s).
Proof. unfold RandomState. destruct (valid_seed s); [apply keeps_ret | apply keeps_raise]. Qed.

Lemma keeps_dedup T pl jk ck tmp :
  (forall T pl jk ck tmp, keeps_global (find_duplicates E T pl jk ck tmp)) ->
  keeps_global (ClusteringTools.remove_duplicates_via_matching (E:=E) T pl jk ck tmp).
Proof.
  intros Hf. unfold ClusteringTools.remove_duplicates_via_matching.
  apply keeps_bind; [apply Hf | intros ?; apply keeps_ret].
Qed.

(** Past lines 71-84 the entry point of circus.py is the rest of its
    body on the rewritten parameters. *)
Lemma circus_past_prologue rec peaks (params : CircusClustering.Params E)
      params' jk verbose :
  CircusClustering.prologue params = Ok (params', jk, verbose) ->
  CircusClustering.main_function rec peaks params
  = bind (CircusClustering.before_matching rec peaks params' jk)
         (fun st =>
            let '(templates, peak_labels, tmp_folder) := st in
            ClusteringTools.remove_duplicates_via_matching
              templates peak_labels
              (Some (CircusKwargs.cleaning_matching_params
                       (CircusClustering.job_kwargs params')))
              (CircusClustering.cleaning_kwargs params') (Some tmp_folder)).
Proof.
  intros Hp. unfold CircusClustering.main_function. rewrite Hp. reflexivity.
Qed.

Lemma circus_stops_before_seed rec peaks (params : CircusClustering.Params E) :
  CircusClustering.prologue params = Raise
  \/ CircusClustering.window (get_sampling_frequency E rec)
                             (CircusClustering.ms_before params)
                             (CircusClustering.ms_after params) = Raise
  \/ valid_seed (CircusClustering.random_seed params) = false ->
  forall w, CircusClustering.main_function rec peaks params w = (Raise, w).
Proof.
  intros H w.
  destruct (CircusClustering.prologue params) as [[[params' jk] verbose]|] eqn:Hp.
  - rewrite (circus_past_prologue rec peaks params params' jk verbose Hp).
    apply circus_prologue_ok in Hp
      as (_ & _ & _ & _ & Hb & Ha & _ & _ & _ & Hs & _).
    unfold CircusClustering.before_matching, CircusClustering.clustering_stage.
    rewrite Hb, Ha, Hs.
    destruct H as [H | [H | H]]; [discriminate H | |].
    + unfold bind, lift. rewrite H. reflexivity.
    + unfold bind, lift, np_random_seed. rewrite H.
      destruct (CircusClustering.window _ _ _); reflexivity.
  - unfold CircusClustering.main_function, bind, lift. rewrite Hp. reflexivity.
Qed.

Section CircusFrame.
Hypothesis Hframe : global_rng_untouched E.

Lemma keeps_cluster_channels peaks data (params : CircusClustering.Params E) cs :
  forall st, keeps_global (CircusClustering.cluster_channels peaks data params cs st).
Proof.
  induction cs as [|c cs IH]; intros st; simpl; [apply keeps_ret|].
  apply keeps_bind; [|exact IH].
  unfold CircusClustering.cluster_channel. destruct st as [pl nb].
  apply keeps_bind; [apply keeps_lift | intros sub].
  apply keeps_bind; [apply (keep_tsvd_fit_transform E Hframe) | intros hd].
  apply keeps_bind;
    [apply keeps_try_except; [apply (keep_hdbscan E Hframe) | apply keeps_ret]
    | intros local].
  match goal with |- keeps_global (if ?b then _ else _) => destruct b end;
    repeat keeps_step.
Qed.

Lemma keeps_template_stage rec peaks (params : CircusClustering.Params E) jk pl :
  keeps_global (CircusClustering.template_stage rec peaks params jk pl).
Proof.
  unfold CircusClustering.template_stage.
  apply keeps_bind; [apply keeps_lift | intros spikes].
  apply keeps_bind; [apply keeps_lift | intros nb].
  apply keeps_bind; [apply keeps_lift | intros na].
  apply keeps_bind; [apply (keep_estimate_templates E Hframe) | intros arr].
  apply keeps_bind;
    [destruct (CircusClustering.noise_levels params);
     [apply keeps_ret | apply (keep_get_noise_levels E Hframe)]
    | intros nl].
  apply keeps_bind; [apply (keep_compute_sparsity E Hframe) | intros sp].
  apply keeps_ret.
Qed.

Lemma circus_after_seed rec peaks (params : CircusClustering.Params E) pro wnd :
  CircusClustering.prologue params = Ok pro ->
  CircusClustering.window (get_sampling_frequency E rec)
                          (CircusClustering.ms_before params)
                          (CircusClustering.ms_after params) = Ok wnd ->
  valid_seed (CircusClustering.random_seed params) = true ->
  sets_global (seed_state E (CircusClustering.random_seed params))
              (CircusClustering.main_function rec peaks params).
Proof.
  intros Hp Hw Hs. destruct pro as [[params' jk] verbose].
  rewrite (circus_past_prologue rec peaks params params' jk verbose Hp).
  apply circus_prologue_ok in Hp
    as (_ & _ & _ & _ & Hb & Ha & _ & _ & _ & Hseed & _).
  unfold CircusClustering.before_matching.
  apply sets_bind;
    [|intros [[T pl] tmp]; apply keeps_dedup; apply (keep_find_duplicates E Hframe)].
  apply sets_bind;
    [|intros [pl tmp]; apply keeps_bind;
      [apply keeps_template_stage | intros T; apply keeps_ret]].
  unfold CircusClustering.clustering_stage. rewrite Hb, Ha, Hseed, Hw.
  apply sets_bind_lift.
  apply sets_bind; [apply seed_sets; exact Hs | intros _].
  apply keeps_bind;
    [destruct (CircusClustering.tmp_folder params');
     [apply (keep_absolute E Hframe) | apply (keep_fresh_tmp_folder E Hframe)]
    | intros tmp].
  apply keeps_bind; [apply (keep_mkdir E Hframe) | intros _].
  apply keeps_bind; [apply (keep_select_peaks E Hframe) | intros few].
  apply keeps_bind; [apply (keep_select_peaks E Hframe) | intros few'].
  apply keeps_bind;
    [apply (keep_extract_waveform_at_max_channel E Hframe) | intros wfs].
  apply keeps_bind; [apply (keep_tsvd_fit E Hframe) | intros tsvd].
  apply keeps_bind; [apply (keep_save_model E Hframe) | intros mf].
  apply keeps_bind; [apply (keep_extract_features E Hframe) | intros data].
  apply keeps_bind; [apply keeps_cluster_channels | intros st].
  apply keeps_ret.
Qed.

End CircusFrame.

Section ProjectionsFrame.
Hypothesis Hframe : projections_rng_untouched E.

Lemma rp_keeps rec peaks (params : RandomProjectionClustering.Params E) jk :
  keeps_global (RandomProjectionClustering.main_function rec peaks params jk).
Proof.
  unfold RandomProjectionClustering.main_function,
         RandomProjectionClustering.before_matching.
  apply keeps_bind; [apply keeps_lift | intros _].
  apply keeps_bind;
    [|intros [T pl]; apply keeps_dedup; apply (rp_keep_find_duplicates E Hframe)].
  apply keeps_bind.
  - unfold RandomProjectionClustering.clustering_stage.
    apply keeps_bind; [apply keeps_lift | intros nb].
    apply keeps_bind; [apply keeps_lift | intros na].
    apply keeps_bind.
    { unfold RandomProjectionClustering.projections.
      apply keeps_bind; [apply keeps_RandomState | intros g].
      apply keeps_bind; [apply keeps_lift | intros d; apply keeps_ret]. }
    intros P.
    apply keeps_bind; [apply keeps_lift | intros nb'].
    apply keeps_bind; [apply keeps_lift | intros na'].
    apply keeps_bind.
    { unfold RandomProjectionClustering.run_node_pipeline.
      apply keeps_mapM. intros p.
      apply keeps_bind;
        [apply (rp_keep_extract_sparse_waveform E Hframe) | intros wf].
      apply keeps_bind; [apply (rp_keep_savgol_denoise E Hframe) | intros den].
      apply keeps_ret. }
    intros hd.
    apply keeps_bind; [apply (rp_keep_hdbscan E Hframe) | intros pl; apply keeps_ret].
  - intros pl. unfold RandomProjectionClustering.pruning_stage.
    apply keeps_bind; [apply keeps_lift | intros spikes].
    apply keeps_bind; [apply keeps_lift | intros nb].
    apply keeps_bind; [apply keeps_lift | intros na].
    apply keeps_bind;
      [destruct (RandomProjectionClustering.noise_levels params);
       [apply keeps_ret | apply (rp_keep_get_noise_levels E Hframe)]
      | intros nl].
    apply keeps_bind; [apply (rp_keep_estimate_templates E Hframe) | intros arr].
    apply keeps_bind; [apply keeps_lift | intros valid].
    apply keeps_bind; [apply keeps_lift | intros kept].
    apply keeps_bind; [apply (rp_keep_compute_sparsity E Hframe) | intros sp].
    apply keeps_bind; [apply keeps_lift | intros empty].
    apply keeps_ret.
Qed.

End ProjectionsFrame.

Lemma circus_blind rec peaks (params : CircusClustering.Params E) pro wnd :
  CircusClustering.prologue params = Ok pro ->
  CircusClustering.window (get_sampling_frequency E rec)
                          (CircusClustering.ms_before params)
                          (CircusClustering.ms_after params) = Ok wnd ->
  valid_seed (CircusClustering.random_seed params) = true ->
  rng_blind (CircusClustering.main_function rec peaks params).
Proof.
  intros Hp Hw Hs. destruct pro as [[params' jk] verbose].
  rewrite (circus_past_prologue rec peaks params params' jk verbose Hp).
  apply circus_prologue_ok in Hp
    as (_ & _ & _ & _ & Hb & Ha & _ & _ & _ & Hseed & _).
  unfold CircusClustering.before_matching.
  apply blind_bind. apply blind_bind.
  unfold CircusClustering.clustering_stage. rewrite Hb, Ha, Hseed, Hw.
  apply blind_bind_lift. apply blind_bind. apply seed_blind. exact Hs.
Qed.

End GlobalRng.

(** C10.  [CircusClustering.main_function] reseeds the global generator:
    once lines 71-84, the window and the seed check have passed, a call
    from any state of the generator is the call from the state of the
    configured seed, so neither its outcome nor the state it leaves
    depends on what the generator held before, whatever the callees draw
    from it afterwards; when no callee draws, the state it leaves is
    that of the seed.  A call that stops before line 95 raises and
    leaves the hidden state as it was.
    [RandomProjectionClustering.main_function] draws from a private
    generator: when none of its callees touches the global generator,
    it is left as it was found. *)
Theorem global_generator_effects (E : Env) :
  (forall rec peaks (params : CircusClustering.Params E) pro wnd,
      CircusClustering.prologue params = Ok pro ->
      CircusClustering.window (get_sampling_frequency E rec)
                              (CircusClustering.ms_before params)
                              (CircusClustering.ms_after params) = Ok wnd ->
      valid_seed (CircusClustering.random_seed params) = true ->
      (forall w,
          CircusClustering.main_function rec peaks params w
          = CircusClustering.main_function
              rec peaks params
              (mkWorld (seed_state E (CircusClustering.random_seed params))
                       (ambient w)))
      /\ (forall w1 w2,
             ambient w1 = ambient w2 ->
             CircusClustering.main_function rec peaks params w1
             = CircusClustering.main_function rec peaks params w2)
      /\ (global_rng_untouched E ->
          forall w,
            np_global (snd (CircusClustering.main_function rec peaks params w))
            = seed_state E (CircusClustering.random_seed params)))
  /\
  (forall rec peaks (params : CircusClustering.Params E),
      CircusClustering.prologue params = Raise
      \/ CircusClustering.window (get_sampling_frequency E rec)
                                 (CircusClustering.ms_before params)
                                 (CircusClustering.ms_after params) = Raise
      \/ valid_seed (CircusClustering.random_seed params) = false ->
      forall w, CircusClustering.main_function rec peaks params w = (Raise, w))
  /\
  (projections_rng_untouched E ->
   forall rec peaks (params : RandomProjectionClustering.Params E) jk w,
     np_global (snd (RandomProjectionClustering.main_function rec peaks params jk w))
     = np_global w).
Proof.
  split; [|split].
  - intros rec peaks params pro wnd Hp Hw Hs.
    pose proof (circus_blind rec peaks params pro wnd Hp Hw Hs) as Hblind.
    split; [|split].
    + intros w. apply Hblind. reflexivity.
    + exact Hblind.
    + intros Hframe. exact (circus_after_seed Hframe rec peaks params pro wnd Hp Hw Hs).
  - intros rec peaks params H. exact (circus_stops_before_seed rec peaks params H).
  - intros Hframe rec peaks params jk w.
    exact (rp_keeps Hframe rec peaks params jk w).
Qed.

(* ------------------------------------------------------------------ *)
(** ** Empty input and the window *)


Section Empty.
Context {E : Env}.

Lemma dedup_of_nil T jk ck tmp (w : W E) labels pl w' :
  ClusteringTools.remove_duplicates_via_matching (E:=E) T [] jk ck tmp w
  = (Ok (labels, pl), w') -> labels = [] /\ pl = [].
Proof.
  intros H. apply remove_duplicates_ok in H as (found & _ & -> & ->).
  split; reflexivity.
Qed.

Lemma rp_features_of_nil rec (params : RandomProjectionClustering.Params E) P w :
  RandomProjectionClustering.run_node_pipeline rec [] params P w = (Ok [], w).
Proof. reflexivity. Qed.

End Empty.

(** C8, as amended.  Neither entry point guards against an empty peak
    array.  Whenever one of them returns on it, both outputs are empty;
    and it returns only if its callees accept empty input: the first
    decomposition of circus.py has to fit the waveforms of no peak, and
    hdbscan has to cluster the empty feature array of
    random_projections.py. *)
Theorem empty_input_outcome (E : Env) :
  (forall rec (params : CircusClustering.Params E) w labels pl w',
      CircusClustering.main_function rec [] params w = (Ok (labels, pl), w') ->
      labels = [] /\ pl = []
      /\ exists few w0 w1 wfs w2 tsvd w3,
          select_peaks E [] 10000 w0 = (Ok few, w1)
          /\ extract_waveform_at_max_channel
               E rec few (CircusClustering.ms_before params)
               (CircusClustering.ms_after params)
               (CircusKwargs.resolve_cpu_count
                  (cpu_count E) PyDict.k_n_jobs (CircusClustering.job_kwargs params))
               w1 = (Ok wfs, w2)
          /\ tsvd_fit E (fst (CircusClustering.n_svd params)) wfs w2 = (Ok tsvd, w3))
  /\
  (forall rec (params : RandomProjectionClustering.Params E) jk w labels pl w',
      RandomProjectionClustering.main_function rec [] params jk w
      = (Ok (labels, pl), w') ->
      labels = [] /\ pl = []
      /\ exists w1 w2,
          hdbscan E [] (RandomProjectionClustering.hdbscan_kwargs params) w1
          = (Ok [], w2)).
Proof.
  split.
  - intros rec params w labels pl w' Hrun.
    apply circus_main_function_ok in Hrun
      as (params' & jk & verbose & T & pl0 & tmp & w1 & Hp & Hb & Hd).
    apply circus_prologue_ok in Hp
      as (_ & _ & Hjk & _ & Hmb & Hma & _ & _ & Hsvd & _).
    apply circus_before_matching_ok in Hb as (w0 & Hcl & _).
    unfold CircusClustering.clustering_stage in Hcl.
    rewrite Hjk, Hmb, Hma, Hsvd in Hcl.
    apply bind_ok in Hcl as (wnd & wa & _ & Hcl).
    apply bind_ok in Hcl as (u & wb & _ & Hcl).
    apply bind_ok in Hcl as (tmp0 & wc & _ & Hcl).
    apply bind_ok in Hcl as (u' & wd & _ & Hcl).
    apply bind_ok in Hcl as (few0 & we & _ & Hcl).
    apply bind_ok in Hcl as (few & wf & Hsel & Hcl).
    apply bind_ok in Hcl as (wfs & wg & Hwf & Hcl).
    apply bind_ok in Hcl as (tsvd & wh & Hfit & Hcl).
    apply bind_ok in Hcl as (mf & wi & _ & Hcl).
    apply bind_ok in Hcl as (data & wj & _ & Hcl).
    apply bind_ok in Hcl as (st & wk & Hloop & Hcl).
    simpl in Hloop. apply ret_ok in Hloop as [-> _].
    apply ret_ok in Hcl as [Hcl _]. injection Hcl as -> _.
    simpl in Hd. apply dedup_of_nil in Hd as [-> ->].
    split; [reflexivity|]. split; [reflexivity|].
    exists few, we, wf, wfs, wg, tsvd, wh. repeat split; assumption.
  - intros rec params jk w labels pl w' Hrun.
    apply rp_main_function_ok in Hrun as (T & pl0 & pl1 & w1 & w2 & Hcl & Hp & Hd).
    pose proof Hp as Hp'.
    apply rp_pruning_stage_ok in Hp' as (Hlen & m1 & m2 & ->).
    destruct pl0 as [|l pl0]; [|discriminate Hlen].
    simpl in Hd. apply dedup_of_nil in Hd as [-> ->].
    split; [reflexivity|]. split; [reflexivity|].
    unfold RandomProjectionClustering.clustering_stage in Hcl.
    apply bind_ok in Hcl as (nb & wa & _ & Hcl).
    apply bind_ok in Hcl as (na & wb & _ & Hcl).
    apply bind_ok in Hcl as (P & wc & _ & Hcl).
    apply bind_ok in Hcl as (nb' & wd & _ & Hcl).
    apply bind_ok in Hcl as (na' & we & _ & Hcl).
    apply bind_ok in Hcl as (hd & wf & Hpipe & Hcl).
    rewrite rp_features_of_nil in Hpipe. injection Hpipe as <- <-.
    apply bind_ok in Hcl as (pl & wg & Hh & Hcl).
    apply ret_ok in Hcl as [Hpl Hw]. subst pl wg.
    exists we, w1. exact Hh.
Qed.


(* ------------------------------------------------------------------ *)
(** ** Runs of the small environment *)

Lemma toy_noise_convention k hdb templ spars dups :
  (forall d l, hdb d = Ok l -> Forall (fun x => -1 <= x) l) ->
  hdbscan_noise_convention (toy k hdb templ spars dups).
Proof.
  intros H hd kw w local w' Hrun. simpl in Hrun.
  apply lift_ok in Hrun as [Hr _]. exact (H _ _ Hr).
Qed.

Lemma toy_contiguous k hdb templ spars dups :
  (forall d l, hdb d = Ok l ->
               Forall (fun x => x < Z.of_nat (length (Np.unique (filter valid_label l)))) l) ->
  hdbscan_contiguous (toy k hdb templ spars dups).
Proof.
  intros H hd kw w local w' Hrun. simpl in Hrun.
  apply lift_ok in Hrun as [Hr _]. exact (H _ _ Hr).
Qed.

Lemma hdb_zeros_noise d l : hdb_zeros d = Ok l -> Forall (fun x => -1 <= x) l.
Proof.
  unfold hdb_zeros. intros H. injection H as <-.
  apply Forall_forall. intros x Hx. apply repeat_spec in Hx. lia.
Qed.

Lemma hdb_zeros_contiguous d l :
  hdb_zeros d = Ok l ->
  Forall (fun x => x < Z.of_nat (length (Np.unique (filter valid_label l)))) l.
Proof.
  unfold hdb_zeros. intros H. injection H as <-. apply zeros_contiguous.
Qed.

Lemma toy_quiet hdb templ spars dups :
  global_rng_untouched (toy 0 hdb templ spars dups).
Proof.
  constructor; intros; intros w; simpl; try reflexivity; apply Z.add_0_r.
Qed.

Lemma toy_projections_quiet k hdb templ spars dups :
  projections_rng_untouched (toy k hdb templ spars dups).
Proof.
  constructor; intros; intros w; reflexivity.
Qed.

(** C1 (the code departs from the claim).  Labels of removed units stay in
    [peak_labels] when deduplication starts.  circus.py: a run whose only
    unit has a flat template and loses every channel to the sparsity rule
    ends with no unit and with the three peaks still labelled 0; and in every run the array
    handed to the matching stage is the one the loop over channels
    produced, whatever [remove_empty_templates] removed.
    random_projections.py: with unit 0 under the noise threshold and unit
    1 left with an empty mask, the two resets index the filtered template
    list, so label 1 survives while unit 1 is gone. *)
Theorem removed_units_stay_referenced :
  (exists T tmp w',
      CircusClustering.before_matching
        (E:=env_all_empty) (toy_rec 1) peaks_one_channel
        (circus_params env_all_empty toy_kwargs) toy_kwargs toy_world
      = (Ok (T, [0; 0; 0], tmp), w')
      /\ unit_ids T = []
      /\ dangling [0] T [0; 0; 0] = [0])
  /\
  (exists T w',
      RandomProjectionClustering.before_matching
        (E:=env_index_slip) (toy_rec 1) peaks_one_channel
        (rp_params env_index_slip toy_kwargs 10) toy_kwargs toy_world
      = (Ok (T, [-1; 1; 2]), w')
      /\ unit_ids T = [2]
      /\ dangling [0; 1; 2] T [-1; 1; 2] = [1])
  /\
  (forall (E : Env) rec peaks (params : CircusClustering.Params E) jk w T pl tmp w',
      CircusClustering.before_matching rec peaks params jk w
      = (Ok (T, pl, tmp), w') ->
      exists w1, CircusClustering.clustering_stage rec peaks params w
                 = (Ok (pl, tmp), w1)).
Proof.
  split; [|split].
  - eexists _, _, _. split; [vm_compute; reflexivity|].
    split; vm_compute; reflexivity.
  - eexists _, _. split; [vm_compute; reflexivity|].
    split; vm_compute; reflexivity.
  - intros E rec peaks params jk w T pl tmp w' H.
    apply circus_before_matching_ok in H as (w1 & H & _). eauto.
Qed.

(** C2, an instance.  hdbscan raises on channel 0, whose two peaks open
    cluster 0; the peak of channel 1 is not touched. *)
Lemma failed_channel_becomes_one_cluster_witness :
  hdbscan env_failing [[F64.of_Z 10]; [F64.of_Z 30]] toy_kwargs toy_world = (Raise, toy_world)
  /\ CircusClustering.cluster_channel
       (E:=env_failing) peaks_two_channels [10; 20; 30]
       (circus_params env_failing toy_kwargs) 0 ([-1; -1; -1], 0) toy_world
     = (Ok ([0; -1; 0], 1), toy_world).
Proof.
  split; [reflexivity|].
  refine (proj1 (failed_channel_becomes_one_cluster
                   env_failing peaks_two_channels [10; 20; 30]
                   (circus_params env_failing toy_kwargs) 0 [1] [-1; -1; -1] 0 toy_world
                   [[F64.of_Z 10]; [F64.of_Z 30]] toy_world toy_world
                   _ _ _ _ _ _)).
  - reflexivity.
  - reflexivity.
  - reflexivity.
  - reflexivity.
  - vm_compute. lia.
  - reflexivity.
Defined.

(** C2, counterexample.  hdbscan raises on both channels, and the peaks end
    up in clusters 0 and 1, which are returned as units: none of them is
    noise. *)
Lemma failed_channels_are_not_noise :
  hdbscan env_failing [[F64.of_Z 10]; [F64.of_Z 30]] toy_kwargs toy_world = (Raise, toy_world)
  /\ hdbscan env_failing [[F64.of_Z 20]] toy_kwargs toy_world = (Raise, toy_world)
  /\ fst (CircusClustering.clustering_stage
            (E:=env_failing) (toy_rec 1) peaks_two_channels
            (circus_params env_failing toy_kwargs) toy_world)
     = Ok ([0; 1; 0], 0)
  /\ fst (CircusClustering.main_function
            (E:=env_failing) (toy_rec 1) peaks_two_channels
            (circus_params env_failing toy_kwargs) toy_world)
     = Ok ([0; 1], [0; 1; 0])
  /\ [0; 1; 0] <> [-1; -1; -1].
Proof.
  repeat split; try (vm_compute; reflexivity). discriminate.
Qed.

(** C3, an instance.  Two channels with one cluster each, the second a
    duplicate of the first. *)
Lemma returned_labels_are_valid_witness :
  CircusClustering.main_function
    (E:=env_merging 1) (toy_rec 1) peaks_two_channels
    (circus_params (env_merging 1) toy_kwargs) toy_world
  = (Ok ([0], [0; 0; 0]), mkWorld 45 1)
  /\ label_validity peaks_two_channels [0] [0; 0; 0].
Proof.
  split; [vm_compute; reflexivity|].
  apply (proj1 (returned_labels_are_valid
                  (env_merging 1)
                  (toy_noise_convention _ _ _ _ _ hdb_zeros_noise))
               (toy_rec 1) peaks_two_channels (circus_params (env_merging 1) toy_kwargs)
               toy_world [0] [0; 0; 0] (mkWorld 45 1)).
  vm_compute. reflexivity.
Defined.



(** C6, an instance.  Channel 0 gets cluster 0, channel 1 gets cluster 1. *)
Lemma channels_get_disjoint_clusters_witness :
  CircusClustering.clustering_stage
    (E:=env_merging 1) (toy_rec 1) peaks_two_channels
    (circus_params (env_merging 1) toy_kwargs) toy_world
  = (Ok ([0; 1; 0], 0), mkWorld 45 1)
  /\ separated peaks_two_channels [0; 1; 0].
Proof.
  split; [vm_compute; reflexivity|].
  apply (channels_get_disjoint_clusters
           (env_merging 1)
           (toy_contiguous _ _ _ _ _ hdb_zeros_contiguous)
           (toy_rec 1) peaks_two_channels (circus_params (env_merging 1) toy_kwargs)
           toy_world [0; 1; 0] 0 (mkWorld 45 1)).
  vm_compute. reflexivity.
Defined.

(** C7, an instance.  Four channels and ten projections asked for. *)
Lemma projections_shape_witness :
  exists P,
    RandomProjectionClustering.projections
      (E:=env_merging 1) 4 (rp_params (env_merging 1) toy_kwargs 10) toy_world
    = (Ok P, toy_world)
    /\ n_rows P = 4%nat /\ n_cols P = Z.to_nat (Z.min 4 10).
Proof.
  eexists. split; [vm_compute; reflexivity|].
  match goal with
  | |- n_rows ?P = _ /\ _ =>
      pose proof (projections_shape
                    (env_merging 1) 4 (rp_params (env_merging 1) toy_kwargs 10)
                    toy_world P toy_world) as H
  end.
  destruct H as (_ & Hrows & _ & Hcols & _); [vm_compute; reflexivity|].
  split; [exact Hrows | exact Hcols].
Defined.

(** C7, counterexample.  Four channels and [nb_projections = 10]: the
    matrix is 4 x 4 and every feature vector has length 4. *)
Lemma fewer_projections_than_configured :
  exists P rows,
    RandomProjectionClustering.projections
      (E:=env_merging 1) 4 (rp_params (env_merging 1) toy_kwargs 10) toy_world
    = (Ok P, toy_world)
    /\ RandomProjectionClustering.nb_projections (rp_params (env_merging 1) toy_kwargs 10) = 10
    /\ n_rows P = 4%nat /\ n_cols P = 4%nat
    /\ RandomProjectionClustering.run_node_pipeline
         (E:=env_merging 1) (toy_rec 4) peaks_one_channel
         (rp_params (env_merging 1) toy_kwargs 10) P toy_world
       = (Ok rows, toy_world)
    /\ map (@length spec_float) rows = [4; 4; 4]%nat
    /\ 4 <> 10.
Proof.
  eexists _, _. split; [vm_compute; reflexivity|].
  split; [reflexivity|]. split; [reflexivity|]. split; [reflexivity|].
  split; [vm_compute; reflexivity|].
  split; [vm_compute; reflexivity | lia].
Qed.

(** C8, an instance.  A clusterer that accepts the empty array. *)
Lemma empty_input_outcome_witness :
  RandomProjectionClustering.main_function
    (E:=env_merging 1) (toy_rec 1) [] (rp_params (env_merging 1) toy_kwargs 10) toy_kwargs toy_world
  = (Ok ([], []), toy_world)
  /\ exists w1 w2, hdbscan (env_merging 1) [] toy_kwargs w1 = (Ok [], w2).
Proof.
  split; [vm_compute; reflexivity|].
  apply (proj2 (empty_input_outcome (env_merging 1))
               (toy_rec 1) (rp_params (env_merging 1) toy_kwargs 10) toy_kwargs toy_world
               [] [] toy_world).
  vm_compute. reflexivity.
Defined.

(** C8, counterexample.  With a clusterer that refuses an empty array, the
    random-projection entry point raises on an empty peak array. *)
Lemma empty_input_raises :
  hdbscan env_strict [] toy_kwargs toy_world = (Raise, toy_world)
  /\ RandomProjectionClustering.main_function
       (E:=env_strict) (toy_rec 1) [] (rp_params env_strict toy_kwargs 10) toy_kwargs toy_world
     = (Raise, toy_world).
Proof. split; vm_compute; reflexivity. Qed.

(** C10, an instance.  Subsampling and the first decomposition draw from
    the global generator.  Started with the generator in state 7,
    circus.py runs as it does from the state of seed 42 and leaves the
    generator in state 45; with callees that do not draw it leaves it
    in state 42; random_projections.py leaves it in state 7. *)
Lemma global_generator_effects_witness :
  np_global toy_world = 7
  /\ CircusClustering.main_function
       (E:=env_merging 1) (toy_rec 1) peaks_two_channels
       (circus_params (env_merging 1) toy_kwargs) toy_world
     = CircusClustering.main_function
         (E:=env_merging 1) (toy_rec 1) peaks_two_channels
         (circus_params (env_merging 1) toy_kwargs) (mkWorld 42 0)
  /\ CircusClustering.main_function
       (E:=env_merging 1) (toy_rec 1) peaks_two_channels
       (circus_params (env_merging 1) toy_kwargs) (mkWorld 42 0)
     = (Ok ([0], [0; 0; 0]), mkWorld 45 1)
  /\ np_global (snd (CircusClustering.main_function
                       (E:=env_merging 0) (toy_rec 1) peaks_two_channels
                       (circus_params (env_merging 0) toy_kwargs) toy_world)) = 42
  /\ np_global (snd (RandomProjectionClustering.main_function
                       (E:=env_merging 1) (toy_rec 1) peaks_two_channels
                       (rp_params (env_merging 1) toy_kwargs 10) toy_kwargs
                       toy_world)) = 7.
Proof.
  split; [reflexivity|]. split; [|split; [vm_compute; reflexivity|split]].
  - destruct (global_generator_effects (env_merging 1)) as [Hcircus _].
    refine (proj1 (Hcircus (toy_rec 1) peaks_two_channels
                           (circus_params (env_merging 1) toy_kwargs)
                           _
                           (0, 0, 0) _ _ _) toy_world);
      vm_compute; reflexivity.
  - destruct (global_generator_effects (env_merging 0)) as [Hcircus _].
    refine (proj2 (proj2 (Hcircus (toy_rec 1) peaks_two_channels
                                  (circus_params (env_merging 0) toy_kwargs)
                                  _
                                  (0, 0, 0) _ _ _))
                  (toy_quiet _ _ _ _) toy_world);
      vm_compute; reflexivity.
  - destruct (global_generator_effects (env_merging 1)) as (_ & _ & Hrp).
    exact (Hrp (toy_projections_quiet _ _ _ _ _) (toy_rec 1) peaks_two_channels
               (rp_params (env_merging 1) toy_kwargs 10) toy_kwargs toy_world).
Defined.

(* ================================================================== *)
(** * More of the code *)

(* ------------------------------------------------------------------ *)
(** ** Sorted lists and [np.unique] *)

Lemma insert_sorted_sorted x l :
  StronglySorted Z.lt l -> StronglySorted Z.lt (Np.insert_sorted x l).
Proof.
  induction 1 as [|y l Hs IH Hy]; simpl.
  - repeat constructor.
  - destruct (Z.ltb_spec x y) as [Hlt | Hge].
    + constructor; [constructor; assumption|].
      constructor; [exact Hlt|].
      rewrite Forall_forall in *. intros z Hz. specialize (Hy z Hz). lia.
    + destruct (Z.eqb_spec x y) as [Heq | Hne].
      * constructor; assumption.
      * constructor; [exact IH|].
        rewrite Forall_forall in *. intros z Hz.
        apply in_insert_sorted in Hz as [-> | Hz]; [lia | exact (Hy z Hz)].
Qed.

Lemma unique_sorted l : StronglySorted Z.lt (Np.unique l).
Proof.
  induction l as [|x l IH]; simpl; [constructor | apply insert_sorted_sorted, IH].
Qed.

Lemma sorted_ext (l1 : list Z) : forall l2,
  StronglySorted Z.lt l1 -> StronglySorted Z.lt l2 ->
  (forall x, In x l1 <-> In x l2) -> l1 = l2.
Proof.
  induction l1 as [|a l1 IH]; intros [|b l2] H1 H2 Hx.
  - reflexivity.
  - destruct (proj2 (Hx b) (or_introl eq_refl)).
  - destruct (proj1 (Hx a) (or_introl eq_refl)).
  - inversion H1 as [|? ? Hs1 Ha]; subst. inversion H2 as [|? ? Hs2 Hb]; subst.
    rewrite Forall_forall in Ha, Hb.
    assert (Hab : a = b).
    { destruct (proj1 (Hx a) (or_introl eq_refl)) as [Hba | Hin]; [congruence|].
      destruct (proj2 (Hx b) (or_introl eq_refl)) as [Hba | Hin']; [congruence|].
      specialize (Ha b Hin'). specialize (Hb a Hin). lia. }
    subst b. f_equal. apply IH; try assumption.
    intros x. split; intros Hin.
    + destruct (proj1 (Hx x) (or_intror Hin)) as [-> | H]; [|exact H].
      specialize (Ha x Hin). lia.
    + destruct (proj2 (Hx x) (or_intror Hin)) as [-> | H]; [|exact H].
      specialize (Hb x Hin). lia.
Qed.

Lemma arange_from_sorted m n :
  StronglySorted Z.lt (map Z.of_nat (seq m n)).
Proof.
  revert m. induction n as [|n IH]; intros m; simpl; constructor.
  - apply IH.
  - apply Forall_forall. intros x Hx. apply in_map_iff in Hx as (i & <- & Hi).
    apply in_seq in Hi. lia.
Qed.

Lemma in_arange n v : In v (Np.arange n) <-> 0 <= v < Z.of_nat n.
Proof.
  unfold Np.arange. rewrite in_map_iff. split.
  - intros (i & <- & Hi). apply in_seq in Hi. lia.
  - intros Hv. exists (Z.to_nat v). split; [lia | apply in_seq; lia].
Qed.

Lemma length_arange n : length (Np.arange n) = n.
Proof. unfold Np.arange. rewrite length_map, length_seq. reflexivity. Qed.

(** A sorted list of [n] integers taken from [m .. m+n-1] is that range. *)
Lemma sorted_in_range_full (l : list Z) : forall m,
  StronglySorted Z.lt l ->
  (forall x, In x l -> Z.of_nat m <= x < Z.of_nat (m + length l)) ->
  l = map Z.of_nat (seq m (length l)).
Proof.
  induction l as [|a l IH]; intros m Hs Hr; [reflexivity|].
  inversion Hs as [|? ? Hs' Ha]; subst. rewrite Forall_forall in Ha.
  assert (Htl : l = map Z.of_nat (seq (S m) (length l))).
  { apply IH; [exact Hs'|]. intros x Hx.
    specialize (Ha x Hx). pose proof (Hr a (or_introl eq_refl)).
    pose proof (Hr x (or_intror Hx)). simpl in *. lia. }
  assert (Hhd : a = Z.of_nat m).
  { pose proof (Hr a (or_introl eq_refl)) as Hra. simpl in Hra.
    destruct l as [|b l'].
    - simpl in Hra. lia.
    - simpl in Htl. injection Htl as Hb _.
      specialize (Ha b (or_introl eq_refl)). lia. }
  simpl. rewrite Hhd. f_equal. exact Htl.
Qed.

Lemma sorted_filter (f : Z -> bool) l :
  StronglySorted Z.lt l -> StronglySorted Z.lt (filter f l).
Proof.
  induction 1 as [|a l Hs IH Ha]; simpl; [constructor|].
  destruct (f a); [|exact IH]. constructor; [exact IH|].
  rewrite Forall_forall in *. intros x Hx. apply filter_In in Hx as [Hx _]. auto.
Qed.

Lemma unique_filter_valid l :
  filter (fun x => 0 <=? x) (Np.unique l) = Np.unique (filter valid_label l).
Proof.
  apply sorted_ext.
  - apply sorted_filter, unique_sorted.
  - apply unique_sorted.
  - intros x. rewrite filter_In, !in_unique, filter_In. unfold valid_label.
    destruct (Z.leb_spec 0 x), (Z.ltb_spec (-1) x); intuition (try lia; try discriminate).
Qed.

(** The pigeonhole behind the running offset: [k] distinct labels below
    [k] are all of [0 .. k-1]. *)
Lemma contiguous_labels_cover local :
  Forall (fun l => -1 <= l) local ->
  Forall (fun l => l < Z.of_nat (length (Np.unique (filter valid_label local)))) local ->
  forall v, 0 <= v < Z.of_nat (length (Np.unique (filter valid_label local))) ->
            In v local /\ valid_label v = true.
Proof.
  intros Hlow Hup v Hv.
  set (u := Np.unique (filter valid_label local)) in *.
  assert (Hu : u = map Z.of_nat (seq 0 (length u))).
  { apply sorted_in_range_full; [apply unique_sorted|].
    intros x Hx. unfold u in Hx. apply (proj1 (in_unique _ _)) in Hx.
    apply filter_In in Hx as [Hx Hval].
    rewrite Forall_forall in Hup. specialize (Hup x Hx).
    unfold valid_label in Hval. apply Z.ltb_lt in Hval. fold u in Hup. lia. }
  assert (Hin : In v u).
  { rewrite Hu. apply in_map_iff. exists (Z.to_nat v). split; [lia | apply in_seq; lia]. }
  unfold u in Hin. apply (proj1 (in_unique _ _)) in Hin.
  apply filter_In in Hin. exact Hin.
Qed.

(* ------------------------------------------------------------------ *)
(** ** The labels of the loop are the unit ids *)

Lemma sorted_NoDup (l : list Z) : StronglySorted Z.lt l -> NoDup l.
Proof.
  induction 1 as [|a l Hs IH Ha]; constructor; [|exact IH].
  intros Hin. rewrite Forall_forall in Ha. specialize (Ha a Hin). lia.
Qed.

Lemma scatter_covers a : forall mask vals v,
  length a = length mask -> length vals = Np.count mask ->
  In v vals -> In v (Np.scatter a mask vals).
Proof.
  unfold Np.count.
  induction a as [|x a IH]; intros [|b mask] vals v Hlen Hcnt Hin;
    simpl in *; try lia.
  - destruct vals; [destruct Hin | discriminate].
  - destruct b; simpl in *.
    + destruct vals as [|y vals]; [destruct Hin|]. simpl in *.
      destruct Hin as [-> | Hin]; [left; reflexivity | right].
      apply IH; [lia | lia | exact Hin].
    + right. apply IH; [lia | exact Hcnt | exact Hin].
Qed.

Lemma fill_covers a : forall mask v,
  length a = length mask -> (0 < Np.count mask)%nat -> In v (Np.fill a mask v).
Proof.
  unfold Np.count.
  induction a as [|x a IH]; intros [|b mask] v Hlen Hcnt; simpl in *; try lia.
  destruct b; simpl in *; [left; reflexivity | right; apply IH; lia].
Qed.

Lemma assign_masked_covers a mask vals a' :
  Np.assign_masked a mask vals = Ok a' -> (0 < Np.count mask)%nat ->
  forall v, In v vals -> In v a'.
Proof.
  unfold Np.assign_masked. intros H Hpos v Hin.
  destruct (Nat.eqb (length a) (length mask)) eqn:Hlen; simpl in H; [|discriminate].
  apply Nat.eqb_eq in Hlen.
  destruct (Nat.eqb (length vals) (Np.count mask)) eqn:Hcnt.
  - apply Nat.eqb_eq in Hcnt. injection H as <-. apply scatter_covers; assumption.
  - destruct vals as [|y [|z vals]]; try discriminate. injection H as <-.
    destruct Hin as [<- | []]. apply fill_covers; assumption.
Qed.

Section Cover.
Context {E : Env}.
Variables (peaks : list Peak) (data : list (PcData E))
          (params : CircusClustering.Params E).
Hypothesis Hnoise : hdbscan_noise_convention E.
Hypothesis Hcontig : hdbscan_contiguous E.

Lemma count_chan_mask_pos c :
  In c (map channel_index peaks) -> (0 < Np.count (chan_mask peaks c))%nat.
Proof.
  unfold chan_mask. rewrite count_map. intros Hin.
  apply in_map_iff in Hin as (p & Hp & Hin).
  assert (Hf : In p (filter (fun p => channel_index p =? c) peaks)).
  { apply filter_In. split; [exact Hin | apply Z.eqb_eq; exact Hp]. }
  destruct (filter _ peaks); [destruct Hf | simpl; lia].
Qed.

Lemma step_cover c visited st w st' w' :
  ~ In c visited -> In c (map channel_index peaks) ->
  CircusClustering.cluster_channel peaks data params c st w = (Ok st', w') ->
  labels_cover peaks visited st -> labels_cover peaks (c :: visited) st'.
Proof.
  intros Hnew Hc. destruct st as [pl nb], st' as [pl' nb'].
  intros H (Hlen & Hnb & Hrange & Hcov). simpl in *.
  apply cluster_channel_ok in H as (local & Hsrc & [(_ & -> & ->) | (Hass & ->)]).
  { unfold labels_cover; simpl.
    split; [exact Hlen|]. split; [exact Hnb|]. split; [|exact Hcov].
    intros i p l Hp Hl. destruct (Hrange i p l Hp Hl) as [Hr Hv].
    split; [exact Hr|]. intros Hn. apply Hv. intros Hin. apply Hn. right. exact Hin. }
  pose proof (local_source_lower Hnoise local Hsrc) as Hlow.
  pose proof (local_source_contiguous Hcontig local Hsrc) as Hup.
  pose proof (contiguous_labels_cover local Hlow Hup) as Hall.
  pose proof (shifted_range local nb Hup) as Hsr.
  pose proof (shifted_lower local nb Hlow Hnb) as Hsl.
  set (k := Z.of_nat (length (Np.unique (filter valid_label local)))) in *.
  assert (Hk : 0 <= k) by (unfold k; lia).
  pose proof (assign_masked_covers _ _ _ _ Hass (count_chan_mask_pos c Hc)) as Hcovers.
  apply assign_masked_nth in Hass as (Hlen' & Hlm & Hnth).
  unfold labels_cover; simpl. split; [lia|]. split; [lia|]. split.
  - intros i p l Hp Hl. pose proof (chan_mask_total peaks c i p Hp) as Hm.
    destruct (Hnth i) as [Hfalse Htrue].
    destruct (Z.eqb_spec (channel_index p) c) as [Heq | Hne].
    + destruct (Htrue Hm) as (u & Hu & Hin). rewrite Hl in Hu. injection Hu as <-.
      specialize (Hsr l Hin). specialize (Hsl l Hin).
      split; [lia|]. intros Hn. exfalso. apply Hn. left. symmetry. exact Heq.
    + rewrite (Hfalse Hm) in Hl. destruct (Hrange i p l Hp Hl) as [Hr Hv].
      split; [lia|]. intros Hn. apply Hv. intros Hin. apply Hn. right. exact Hin.
  - intros v Hv. destruct (Z.lt_ge_cases v nb) as [Hold | Hfresh].
    + assert (Hin : In v pl) by (apply Hcov; lia).
      apply In_nth_error in Hin as (i & Hi).
      assert (Hlt : (i < length peaks)%nat)
        by (rewrite <- Hlen; apply nth_error_Some; congruence).
      destruct (nth_error peaks i) as [p|] eqn:Hp.
      2:{ apply nth_error_None in Hp. lia. }
      destruct (Hrange i p v Hp Hi) as [_ Hvis].
      assert (Hne : channel_index p <> c).
      { intros Heq. subst c.
        assert (v = -1) by (apply Hvis; exact Hnew). lia. }
      pose proof (chan_mask_total peaks c i p Hp) as Hm.
      replace (channel_index p =? c) with false in Hm
        by (symmetry; apply Z.eqb_neq; exact Hne).
      destruct (Hnth i) as [Hfalse _]. rewrite <- (Hfalse Hm) in Hi.
      eapply nth_error_In. exact Hi.
    + apply Hcovers. unfold shifted. apply in_map_iff.
      destruct (Hall (v - nb)) as [Hin Hval]; [lia|].
      exists (v - nb). split; [rewrite Hval; lia | exact Hin].
Qed.

Lemma loop_cover cs : forall visited st w st' w',
  NoDup cs ->
  (forall c, In c cs -> ~ In c visited /\ In c (map channel_index peaks)) ->
  CircusClustering.cluster_channels peaks data params cs st w = (Ok st', w') ->
  labels_cover peaks visited st ->
  exists visited', labels_cover peaks visited' st'.
Proof.
  induction cs as [|c cs IH]; simpl; intros visited st w st' w' Hnd Hcs H Hinv.
  - apply ret_ok in H as [-> _]. exists visited. exact Hinv.
  - apply bind_ok in H as (st1 & w1 & H1 & H).
    inversion Hnd as [|? ? Hc Hnd']; subst.
    destruct (Hcs c (or_introl eq_refl)) as [Hnew Hin].
    apply (IH (c :: visited) st1 w1 st' w' Hnd'); [|exact H|].
    + intros c' Hc'. destruct (Hcs c' (or_intror Hc')) as [Hv Hp].
      split; [|exact Hp]. intros [-> | Hv']; [exact (Hc Hc') | exact (Hv Hv')].
    + eapply step_cover; eassumption.
Qed.

End Cover.

Lemma spikes_of_units peaks pl :
  length pl = length peaks ->
  exists spikes,
    spikes_of peaks pl = Ok spikes /\ map unit_index spikes = filter valid_label pl.
Proof.
  intros Hlen. unfold spikes_of.
  change (map (fun l : Z => -1 <? l) pl) with (map valid_label pl).
  rewrite (bool_index_ok peaks (map valid_label pl)) by (rewrite length_map; lia).
  rewrite (bool_index_ok pl (map valid_label pl)) by (rewrite length_map; lia).
  simpl. eexists. split; [reflexivity|].
  rewrite map_map. simpl.
  rewrite select_filter.
  assert (Hl : length (Np.select peaks (map valid_label pl))
               = length (filter valid_label pl)).
  { rewrite length_select by (rewrite length_map; lia). apply count_map. }
  revert Hl. generalize (Np.select peaks (map valid_label pl)) as sel.
  generalize (filter valid_label pl) as labs.
  induction labs as [|u labs IH]; intros [|p sel] Hl; simpl in *;
    try discriminate; [reflexivity|].
  f_equal. apply IH. lia.
Qed.

(** X1.  When hdbscan numbers noise [-1] and the [k] clusters of a call
    [0 .. k-1], the loop over channels of circus.py leaves exactly the
    labels [0 .. nb_clusters - 1] in [peak_labels]: the spikes carry the
    non-noise labels, and [unit_ids] (line 186) is the same array as
    [labels] (lines 177-178), so that template [u] is the template of
    label [u]. *)
Theorem unit_ids_are_the_labels
        (E : Env) (Hnoise : hdbscan_noise_convention E)
        (Hcontig : hdbscan_contiguous E)
        rec peaks (params : CircusClustering.Params E) w pl tmp w'
        (Hrun : CircusClustering.clustering_stage rec peaks params w
                = (Ok (pl, tmp), w')) :
  exists spikes,
    spikes_of peaks pl = Ok spikes
    /\ map unit_index spikes = filter valid_label pl
    /\ Np.arange (length (Np.unique (map unit_index spikes)))
       = filter (fun l => 0 <=? l) (Np.unique pl).
Proof.
  apply clustering_stage_ok in Hrun as (data & st & w1 & w2 & Hloop & ->).
  assert (Hinit : labels_cover peaks [] (repeat (-1) (length peaks), 0)).
  { unfold labels_cover; simpl. split; [apply repeat_length|]. split; [lia|]. split.
    - intros i p l _ Hl. apply nth_error_In in Hl. apply repeat_spec in Hl. lia.
    - intros v Hv. lia. }
  destruct (loop_cover peaks data params Hnoise Hcontig
              (Np.unique (map channel_index peaks)) [] _ _ _ _
              (sorted_NoDup _ (unique_sorted _))
              (fun c Hc => conj (fun F => F) (proj1 (in_unique _ _) Hc))
              Hloop Hinit)
    as (visited & Hlen & Hnb & Hrange & Hcov).
  destruct st as [pl nb]. simpl in *.
  destruct (spikes_of_units peaks pl Hlen) as (spikes & Hsp & Hunits).
  exists spikes. split; [exact Hsp|]. split; [exact Hunits|].
  rewrite Hunits, unique_filter_valid.
  assert (Hu : Np.unique (filter valid_label pl) = Np.arange (Z.to_nat nb)).
  { apply sorted_ext; [apply unique_sorted | apply arange_from_sorted|].
    intros x. rewrite in_unique, filter_In, in_arange. unfold valid_label. split.
    - intros [Hin Hval]. apply Z.ltb_lt in Hval.
      apply In_nth_error in Hin as (i & Hi).
      assert (Hlt : (i < length peaks)%nat)
        by (rewrite <- Hlen; apply nth_error_Some; congruence).
      destruct (nth_error peaks i) as [p|] eqn:Hp.
      2:{ apply nth_error_None in Hp. lia. }
      destruct (Hrange i p x Hp Hi) as [Hr _]. lia.
    - intros Hx. split; [apply Hcov; lia | apply Z.ltb_lt; lia]. }
  rewrite Hu, length_arange. reflexivity.
Qed.

(* ------------------------------------------------------------------ *)
(** ** Failures, resets and refused arguments *)

Section Decomposition.
Context {E : Env}.
Variables (peaks : list Peak) (data : list (PcData E))
          (params : CircusClustering.Params E).

Lemma cluster_channel_decomposed c st w st' w' :
  CircusClustering.cluster_channel peaks data params c st w = (Ok st', w') ->
  length data = length peaks
  /\ exists hd w1,
      tsvd_fit_transform E (snd (CircusClustering.n_svd params))
                         (Np.select data (chan_mask peaks c)) w = (Ok hd, w1).
Proof.
  unfold CircusClustering.cluster_channel. destruct st as [pl nb]. intros H.
  apply bind_ok in H as (sub & w1 & Hsub & H).
  apply lift_ok in Hsub as [Hsub ->].
  apply bind_ok in H as (hd & w2 & Hfit & _).
  fold (chan_mask peaks c) in Hsub.
  pose proof (bool_index_length _ _ _ Hsub) as Hlen.
  rewrite length_chan_mask in Hlen.
  rewrite (bool_index_ok data (chan_mask peaks c)) in Hsub
    by (rewrite length_chan_mask; exact Hlen).
  injection Hsub as <-. split; [exact Hlen|]. eauto.
Qed.

Lemma cluster_channels_decomposed cs : forall st w st' w',
  CircusClustering.cluster_channels peaks data params cs st w = (Ok st', w') ->
  forall c, In c cs ->
    length data = length peaks
    /\ exists w1 hd w2,
        tsvd_fit_transform E (snd (CircusClustering.n_svd params))
                           (Np.select data (chan_mask peaks c)) w1 = (Ok hd, w2).
Proof.
  induction cs as [|c0 cs IH]; simpl; intros st w st' w' H c Hc; [destruct Hc|].
  apply bind_ok in H as (st1 & w1 & H1 & H).
  destruct Hc as [<- | Hc].
  - apply cluster_channel_decomposed in H1 as (Hlen & hd & w2 & Hfit).
    split; [exact Hlen|]. eauto.
  - eapply IH; eassumption.
Qed.

End Decomposition.

(** X2.  Only hdbscan is inside the [try] of circus.py: the entry point
    returns only if the feature pipeline returned one row per peak and
    the per-channel [TruncatedSVD.fit_transform] returned on the rows of
    every channel that has a peak. *)
Theorem decomposition_is_not_guarded
        (E : Env) rec peaks (params : CircusClustering.Params E) w r w'
        (Hrun : CircusClustering.main_function rec peaks params w = (Ok r, w')) :
  exists model_folder w0 data w0',
    extract_features E rec peaks (CircusClustering.ms_before params)
                     (CircusClustering.ms_after params)
                     (CircusClustering.radius_um params) model_folder
                     (CircusKwargs.resolve_cpu_count
                        (cpu_count E) PyDict.k_n_jobs
                        (CircusClustering.job_kwargs params)) w0
    = (Ok data, w0')
    /\ forall c, In c (map channel_index peaks) ->
         length data = length peaks
         /\ exists w1 hd w2,
             tsvd_fit_transform E (snd (CircusClustering.n_svd params))
                                (Np.select data (chan_mask peaks c)) w1
             = (Ok hd, w2).
Proof.
  destruct r as [labels pl].
  apply circus_main_function_ok in Hrun
    as (params' & jk & verbose & T & pl0 & tmp & w1 & Hp & Hb & _).
  apply circus_prologue_ok in Hp
    as (_ & _ & Hjk & _ & Hmb & Hma & _ & _ & Hsvd & _ & _ & Hrad).
  apply circus_before_matching_ok in Hb as (w2 & Hcl & _).
  unfold CircusClustering.clustering_stage in Hcl.
  rewrite Hjk, Hmb, Hma, Hrad in Hcl. rewrite <- Hsvd.
  apply bind_ok in Hcl as (wnd & wa & _ & Hcl).
  apply bind_ok in Hcl as (u & wb & _ & Hcl).
  apply bind_ok in Hcl as (tmp0 & wc & _ & Hcl).
  apply bind_ok in Hcl as (u' & wd & _ & Hcl).
  apply bind_ok in Hcl as (few0 & we & _ & Hcl).
  apply bind_ok in Hcl as (few & wf & _ & Hcl).
  apply bind_ok in Hcl as (wfs & wg & _ & Hcl).
  apply bind_ok in Hcl as (tsvd & wh & _ & Hcl).
  apply bind_ok in Hcl as (mf & wi & _ & Hcl).
  apply bind_ok in Hcl as (data & wj & Hfeat & Hcl).
  apply bind_ok in Hcl as (st & wk & Hloop & _).
  exists mf, wi, data, wj. split; [exact Hfeat|].
  intros c Hc. apply (proj2 (in_unique _ _)) in Hc.
  exact (cluster_channels_decomposed peaks data params' _ _ _ _ _ Hloop c Hc).
Qed.

Lemma where_from_cons start b mask :
  Np.where_from start (b :: mask)
  = (if b then [start] else []) ++ Np.where_from (start + 1) mask.
Proof.
  unfold Np.where_from. cbn [length seq map].
  rewrite <- seq_shift, map_map.
  assert (Heq : map (fun i => start + Z.of_nat (S i)) (seq 0 (length mask))
                = map (fun i => start + 1 + Z.of_nat i) (seq 0 (length mask))).
  { apply map_ext. intros i. lia. }
  rewrite Heq. replace (start + Z.of_nat 0) with start by lia.
  destruct b; reflexivity.
Qed.

Lemma in_where_from mask : forall start x,
  In x (Np.where_from start mask)
  <-> exists i, x = start + Z.of_nat i /\ nth_error mask i = Some true.
Proof.
  induction mask as [|b mask IH]; intros start x.
  - unfold Np.where_from. simpl. split; [intros [] | intros (i & _ & Hi)].
    destruct i; discriminate.
  - rewrite where_from_cons, in_app_iff, IH. split.
    + intros [Hb | (i & -> & Hi)].
      * destruct b; [|destruct Hb]. destruct Hb as [<- | []].
        exists 0%nat. split; [lia | reflexivity].
      * exists (S i). split; [lia | exact Hi].
    + intros ([|i] & -> & Hi); simpl in Hi.
      * injection Hi as ->. left. left. lia.
      * right. exists i. split; [lia | exact Hi].
Qed.

Lemma flagged_isin flags l :
  existsb (Z.eqb l) (Np.where_ flags) = flagged flags l.
Proof.
  unfold flagged, Np.where_.
  destruct (existsb (Z.eqb l) (Np.where_from 0 flags)) eqn:Hex.
  - apply existsb_exists in Hex as (x & Hx & Heq). apply Z.eqb_eq in Heq. subst x.
    apply in_where_from in Hx as (i & -> & Hi). simpl.
    rewrite Nat2Z.id. symmetry. apply andb_true_intro. split; [apply Z.leb_le; lia|].
    rewrite (nth_error_nth _ _ _ Hi). reflexivity.
  - symmetry. apply not_true_is_false. intros Hf.
    apply andb_prop in Hf as [Hpos Hn]. apply Z.leb_le in Hpos.
    assert (Hin : In l (Np.where_from 0 flags)).
    { apply in_where_from. exists (Z.to_nat l). split; [lia|].
      destruct (nth_error flags (Z.to_nat l)) as [b|] eqn:Hb.
      - rewrite (nth_error_nth _ _ _ Hb) in Hn. congruence.
      - apply nth_error_None in Hb. rewrite nth_overflow in Hn by lia. discriminate. }
    assert (Htrue : existsb (Z.eqb l) (Np.where_from 0 flags) = true).
    { apply existsb_exists. exists l. split; [exact Hin | apply Z.eqb_refl]. }
    congruence.
Qed.

Lemma fill_isin a W v :
  Np.fill a (Np.isin a W) v
  = map (fun x => if existsb (Z.eqb x) W then v else x) a.
Proof.
  unfold Np.isin. induction a as [|x a IH]; simpl; [reflexivity|].
  rewrite IH. reflexivity.
Qed.

(** X3.  The two resets of random_projections.py (lines 169-173) map
    [peak_labels] label by label, with the flags of this very run: a
    label is replaced by [-1] exactly when it is the position of an
    all-False row of the mask [compute_sparsity] returned for the
    templates that passed the noise threshold, or the position of a
    template that failed the threshold, and is kept otherwise; no label
    is created, noise stays noise and the array keeps the length of the
    peak array. *)
Theorem pruning_only_resets
        (E : Env) rec peaks (params : RandomProjectionClustering.Params E)
        jk pl w T pl' w'
        (Hrun : RandomProjectionClustering.pruning_stage rec peaks params jk pl w
                = (Ok (T, pl'), w')) :
  exists valid mask,
    pruning_flags rec peaks params jk pl w valid mask w'
    /\ pl' = map (fun l => if flagged (TemplatesOps.empty_rows mask) l
                              || flagged (map negb valid) l
                           then -1 else l) pl
    /\ length pl' = length peaks
    /\ (forall l, In l pl' -> l = -1 \/ In l pl).
Proof.
  pose proof Hrun as Hlen. apply rp_pruning_stage_ok in Hlen as [Hlen _].
  unfold RandomProjectionClustering.pruning_stage in Hrun.
  apply bind_ok in Hrun as (spikes & w1 & Hsp & Hrun).
  apply lift_ok in Hsp as [Hsp ->].
  apply bind_ok in Hrun as (nb & w2 & Hnb & Hrun).
  apply lift_ok in Hnb as [Hnb ->].
  apply bind_ok in Hrun as (na & w3 & Hna & Hrun).
  apply lift_ok in Hna as [Hna ->].
  apply bind_ok in Hrun as (nl & w4 & Hnl & Hrun).
  apply bind_ok in Hrun as (arr & w5 & Harr & Hrun).
  apply bind_ok in Hrun as (valid & w6 & Hvalid & Hrun).
  apply lift_ok in Hvalid as [Hvalid ->].
  apply bind_ok in Hrun as (kept & w7 & Hkept & Hrun).
  apply lift_ok in Hkept as [Hkept ->].
  apply bind_ok in Hrun as (sp & w8 & Hsp' & Hrun).
  apply bind_ok in Hrun as (empty & w9 & Hempty & Hrun).
  apply lift_ok in Hempty as [Hempty ->]. simpl in Hempty. injection Hempty as <-.
  apply ret_ok in Hrun as [Hrun ->]. injection Hrun as _ ->.
  exists valid, sp. split.
  { exists spikes, nb, na, nl, w4, arr, w5, kept. repeat split; assumption. }
  assert (Hmap : forall empty,
             Np.fill
               (Np.fill pl (Np.isin pl (Np.where_ empty)) (-1))
               (Np.isin (Np.fill pl (Np.isin pl (Np.where_ empty)) (-1))
                        (Np.where_ (map negb valid))) (-1)
             = map (fun l => if flagged empty l || flagged (map negb valid) l
                             then -1 else l) pl).
  { intros empty. rewrite !fill_isin, map_map. apply map_ext. intros l.
    rewrite !flagged_isin.
    destruct (flagged empty l); simpl; [|reflexivity].
    destruct (flagged (map negb valid) (-1)); reflexivity. }
  rewrite Hmap. split; [reflexivity|]. split; [rewrite length_map; exact Hlen|].
  intros l Hl. apply in_map_iff in Hl as (x & <- & Hx).
  destruct (flagged (TemplatesOps.empty_rows sp) x || flagged (map negb valid) x);
    [left | right]; auto.
Qed.

(** X4.  With a seed outside [0 .. 2**32 - 1],
    [CircusClustering.main_function] raises, from lines 71-84 or from
    [np.random.seed], and leaves the global generator and the ambient
    state as it found them: nothing is reseeded and no folder is made. *)
Theorem circus_rejects_bad_seed
        (E : Env) rec peaks (params : CircusClustering.Params E) (w : W E)
        (Hseed : valid_seed (CircusClustering.random_seed params) = false) :
  CircusClustering.main_function rec peaks params w = (Raise, w).
Proof.
  apply circus_stops_before_seed. right. right. exact Hseed.
Qed.

(** X5.  With a seed outside [0 .. 2**32 - 1] or a negative
    [nb_projections], [RandomProjectionClustering.main_function] raises
    before any callee runs, the hidden state untouched. *)
Theorem projections_reject_bad_arguments
        (E : Env) rec peaks (params : RandomProjectionClustering.Params E) jk (w : W E)
        (Hbad : valid_seed (RandomProjectionClustering.random_seed params) = false
                \/ RandomProjectionClustering.nb_projections params < 0) :
  RandomProjectionClustering.main_function rec peaks params jk w = (Raise, w).
Proof.
  unfold RandomProjectionClustering.main_function,
         RandomProjectionClustering.before_matching,
         RandomProjectionClustering.clustering_stage,
         RandomProjectionClustering.projections, bind, lift, RandomState.
  destruct (have_hdbscan E); [|reflexivity].
  destruct (RandomProjectionClustering.samples _ _); [|reflexivity].
  destruct (RandomProjectionClustering.samples _ _); [|reflexivity].
  destruct (valid_seed (RandomProjectionClustering.random_seed params)) eqn:Hs;
    [|reflexivity].
  destruct Hbad as [Hbad | Hneg]; [discriminate|].
  unfold ret, rng_normal, RandomProjectionClustering.num_projections.
  replace (Z.min (Z.of_nat (get_num_channels E rec))
                 (RandomProjectionClustering.nb_projections params) <? 0)
    with true by (symmetry; apply Z.ltb_lt; lia).
  reflexivity.
Qed.

(* ------------------------------------------------------------------ *)
(** ** The caller: from labels to unit indices *)

Lemma last_position_some l labels u :
  last_position l labels = Some u -> nth_error labels u = Some l.
Proof.
  revert u. induction labels as [|x rest IH]; simpl; intros u H; [discriminate|].
  destruct (last_position l rest) as [v|].
  - injection H as <-. simpl. apply IH. reflexivity.
  - destruct (Z.eqb_spec x l) as [-> | _]; [|discriminate].
    injection H as <-. reflexivity.
Qed.

Lemma last_position_none l labels :
  last_position l labels = None <-> ~ In l labels.
Proof.
  induction labels as [|x rest IH]; simpl; [tauto|].
  destruct (last_position l rest) as [v|].
  - split; [discriminate|]. intros Hn. exfalso. apply Hn. right.
    destruct (in_dec Z.eq_dec l rest) as [Hin | Hout]; [exact Hin|].
    apply IH in Hout. discriminate.
  - destruct (Z.eqb_spec x l) as [-> | Hne].
    + split; [discriminate|]. intros Hn. exfalso. apply Hn. left. reflexivity.
    + split; [|reflexivity]. intros _ [Heq | Hin]; [congruence|].
      apply (proj1 IH eq_refl). exact Hin.
Qed.

Lemma last_position_unique l labels u :
  NoDup labels -> nth_error labels u = Some l -> last_position l labels = Some u.
Proof.
  revert u. induction labels as [|x rest IH]; intros u Hnd Hu.
  - destruct u; discriminate.
  - inversion Hnd as [|? ? Hx Hnd']; subst. simpl. destruct u as [|u]; simpl in Hu.
    + injection Hu as ->.
      rewrite (proj2 (last_position_none l rest) Hx), Z.eqb_refl. reflexivity.
    + rewrite (IH u Hnd' Hu). reflexivity.
Qed.

Section Relabel.
Variable sub : list Z.

Let step (unit_index : list Z) (cl : Z * Z) : list Z :=
  let '(count, l) := cl in Np.fill unit_index (map (fun x => x =? l) sub) count.

Lemma relabel_fold labels : forall k ui j l,
  length ui = length sub ->
  nth_error sub j = Some l ->
  nth_error
    (fold_left step (combine (map Z.of_nat (seq k (length labels))) labels) ui) j
  = match last_position l labels with
    | Some u => Some (Z.of_nat (k + u))
    | None => nth_error ui j
    end.
Proof.
  induction labels as [|x rest IH]; intros k ui j l Hlen Hj; [reflexivity|].
  cbn [length seq map combine fold_left].
  rewrite (IH (S k) _ j l); [|unfold step; rewrite length_fill; exact Hlen | exact Hj].
  cbn [last_position].
  destruct (last_position l rest) as [u|]; [f_equal; lia|].
  unfold step.
  assert (Hm : nth_error (map (fun y => y =? x) sub) j = Some (l =? x)).
  { rewrite nth_error_map, Hj. reflexivity. }
  destruct (fill_nth ui (map (fun y => y =? x) sub) (Z.of_nat k) j) as [Ht Hf];
    [rewrite length_map; exact Hlen|].
  rewrite (Z.eqb_sym x l).
  destruct (l =? x); [rewrite (Ht Hm); f_equal; lia | exact (Hf Hm)].
Qed.

End Relabel.

Lemma unit_index_of_nth labels sub j l :
  nth_error sub j = Some l ->
  nth_error (Spykingcircus2Sorter.unit_index_of labels sub) j
  = match last_position l labels with
    | Some u => Some (Z.of_nat u)
    | None => Some 0
    end.
Proof.
  intros Hj. unfold Spykingcircus2Sorter.unit_index_of, Np.arange.
  rewrite (relabel_fold sub labels 0 (repeat 0 (length sub)) j l);
    [|apply repeat_length | exact Hj].
  destruct (last_position l labels) as [u|]; [reflexivity|].
  apply nth_error_repeat. apply nth_error_Some. congruence.
Qed.

Lemma length_unit_index_of labels sub :
  length (Spykingcircus2Sorter.unit_index_of labels sub) = length sub.
Proof.
  unfold Spykingcircus2Sorter.unit_index_of.
  generalize (combine (Np.arange (length labels)) labels) as cls.
  assert (H : forall cls ui, length ui = length sub ->
              length (fold_left
                        (fun unit_index cl =>
                           let '(count, l) := cl in
                           Np.fill unit_index (map (fun x => x =? l) sub) count)
                        cls ui) = length sub).
  { induction cls as [|[c l] cls IH]; intros ui Hui; simpl; [exact Hui|].
    apply IH. rewrite length_fill. exact Hui. }
  intros cls. apply H. apply repeat_length.
Qed.

Lemma map_snd_combine {A B} (a : list A) (b : list B) :
  length a = length b -> map snd (combine a b) = b.
Proof.
  revert b. induction a as [|x a IH]; intros [|y b] H; simpl in *;
    try discriminate; [reflexivity|].
  f_equal. apply IH. lia.
Qed.

(** What [labeled_peaks] returns, whenever it returns. *)
Lemma labeled_peaks_ok labels pl peaks labeled unit_ids :
  Spykingcircus2Sorter.labeled_peaks labels pl peaks = Ok (labeled, unit_ids) ->
  length pl = length peaks
  /\ map unit_index labeled
     = Spykingcircus2Sorter.unit_index_of labels (filter valid_label pl)
  /\ unit_ids = Np.arange (length (Np.unique (map unit_index labeled))).
Proof.
  unfold Spykingcircus2Sorter.labeled_peaks. intros H.
  apply res_bind_ok in H as (sel & Hsel & H).
  apply res_bind_ok in H as (sub & Hsub & H).
  pose proof (bool_index_length _ _ _ Hsel) as Hlen. rewrite length_map in Hlen.
  change (map (fun l : Z => -1 <? l) pl) with (map valid_label pl) in *.
  rewrite (bool_index_ok peaks (map valid_label pl)) in Hsel
    by (rewrite length_map; exact Hlen).
  rewrite (bool_index_ok pl (map valid_label pl)) in Hsub
    by (rewrite length_map; reflexivity).
  injection Hsel as <-. injection Hsub as <-. rewrite select_filter in H.
  injection H as <- <-. split; [symmetry; exact Hlen|].
  split; [|reflexivity].
  rewrite map_map. cbn [unit_index].
  rewrite <- (map_map snd (fun u => u)), map_id.
  apply map_snd_combine.
  rewrite length_unit_index_of, length_select by (rewrite length_map; exact Hlen).
  apply count_map.
Qed.

(** X6.  spyking_circus2.py, lines 277-284.  When every non-noise entry of
    [peak_labels] is in [labels], each labelled peak gets as unit index
    a position of its label: [labels[unit_index]] is the label the
    clustering gave to the peak. *)
Theorem unit_index_recovers_label
        labels pl peaks labeled unit_ids
        (Hrun : Spykingcircus2Sorter.labeled_peaks labels pl peaks
                = Ok (labeled, unit_ids))
        (Hvalid : forall l, In l pl -> -1 < l -> In l labels) :
  Forall2 (fun s l => 0 <= unit_index s
                      /\ nth_error labels (Z.to_nat (unit_index s)) = Some l)
          labeled (filter valid_label pl).
Proof.
  apply labeled_peaks_ok in Hrun as (_ & Hunits & _).
  assert (Hall : forall j l, nth_error (filter valid_label pl) j = Some l ->
                 exists s, nth_error labeled j = Some s
                           /\ 0 <= unit_index s
                           /\ nth_error labels (Z.to_nat (unit_index s)) = Some l).
  { intros j l Hj.
    pose proof (unit_index_of_nth labels _ j l Hj) as Hu.
    rewrite <- Hunits, nth_error_map in Hu.
    destruct (nth_error labeled j) as [s|];
      [|destruct (last_position l labels); discriminate]. simpl in Hu.
    exists s. split; [reflexivity|].
    assert (Hin : In l labels).
    { apply nth_error_In in Hj. apply filter_In in Hj as [Hin Hv].
      apply Hvalid; [exact Hin | apply Z.ltb_lt; exact Hv]. }
    destruct (last_position l labels) as [u|] eqn:Hp.
    - injection Hu as ->. split; [lia|]. rewrite Nat2Z.id.
      apply last_position_some. exact Hp.
    - apply last_position_none in Hp. contradiction. }
  assert (Hlen : length labeled = length (filter valid_label pl)).
  { rewrite <- (length_map unit_index), Hunits. apply length_unit_index_of. }
  clear Hunits. revert labeled Hall Hlen.
  induction (filter valid_label pl) as [|l ls IH]; intros [|s labeled] Hall Hlen;
    simpl in Hlen; try discriminate; constructor.
  - destruct (Hall 0%nat l eq_refl) as (s' & Hs' & Hpos & Hnth).
    injection Hs' as <-. split; assumption.
  - apply IH; [|lia]. intros j l' Hj. exact (Hall (S j) l' Hj).
Qed.

(** X7.  spyking_circus2.py, lines 279-284.  A peak whose non-noise label is
    missing from [labels] is never written by the loop: it keeps the 0
    of [np.zeros] and is counted with the spikes of unit 0. *)
Theorem unknown_label_joins_unit_zero
        labels pl peaks labeled unit_ids
        (Hrun : Spykingcircus2Sorter.labeled_peaks labels pl peaks
                = Ok (labeled, unit_ids)) :
  Forall2 (fun s l => ~ In l labels -> unit_index s = 0)
          labeled (filter valid_label pl).
Proof.
  apply labeled_peaks_ok in Hrun as (_ & Hunits & _).
  assert (Hall : forall j l, nth_error (filter valid_label pl) j = Some l ->
                 exists s, nth_error labeled j = Some s
                           /\ (~ In l labels -> unit_index s = 0)).
  { intros j l Hj.
    pose proof (unit_index_of_nth labels _ j l Hj) as Hu.
    rewrite <- Hunits, nth_error_map in Hu.
    destruct (nth_error labeled j) as [s|];
      [|destruct (last_position l labels); discriminate]. simpl in Hu.
    exists s. split; [reflexivity|]. intros Hout.
    apply last_position_none in Hout. rewrite Hout in Hu. congruence. }
  assert (Hlen : length labeled = length (filter valid_label pl)).
  { rewrite <- (length_map unit_index), Hunits. apply length_unit_index_of. }
  clear Hunits. revert labeled Hall Hlen.
  induction (filter valid_label pl) as [|l ls IH]; intros [|s labeled] Hall Hlen;
    simpl in Hlen; try discriminate; constructor.
  - destruct (Hall 0%nat l eq_refl) as (s' & Hs' & Hz). injection Hs' as <-. exact Hz.
  - apply IH; [|lia]. intros j l' Hj. exact (Hall (S j) l' Hj).
Qed.

(** X8.  spyking_circus2.py, line 285.  When [labels] has no repetition,
    holds every non-noise label of [peak_labels] and only labels that
    some peak carries, the unit ids of the sorting are
    [0 .. len(labels) - 1]. *)
Theorem unit_ids_number_the_labels
        labels pl peaks labeled unit_ids
        (Hrun : Spykingcircus2Sorter.labeled_peaks labels pl peaks
                = Ok (labeled, unit_ids))
        (Hnodup : NoDup labels)
        (Hvalid : forall l, In l pl -> -1 < l -> In l labels)
        (Hused : forall l, In l labels -> In l pl /\ -1 < l) :
  unit_ids = Np.arange (length labels).
Proof.
  apply labeled_peaks_ok in Hrun as (_ & Hunits & ->). rewrite Hunits.
  f_equal. rewrite <- (length_arange (length labels)). f_equal.
  apply sorted_ext; [apply unique_sorted | apply arange_from_sorted|].
  intros x. rewrite in_unique, in_arange. split.
  - intros Hx. apply In_nth_error in Hx as (j & Hj).
    assert (Hlt : (j < length (filter valid_label pl))%nat).
    { rewrite <- (length_unit_index_of labels). apply nth_error_Some. congruence. }
    destruct (nth_error (filter valid_label pl) j) as [l|] eqn:Hl.
    2:{ apply nth_error_None in Hl. lia. }
    rewrite (unit_index_of_nth labels _ j l Hl) in Hj.
    assert (Hin : In l labels).
    { apply nth_error_In in Hl. apply filter_In in Hl as [Hin Hv].
      apply Hvalid; [exact Hin | apply Z.ltb_lt; exact Hv]. }
    destruct (last_position l labels) as [u|] eqn:Hp.
    + injection Hj as <-. apply last_position_some in Hp.
      assert (u < length labels)%nat by (apply nth_error_Some; congruence). lia.
    + apply last_position_none in Hp. contradiction.
  - intros Hx.
    destruct (nth_error labels (Z.to_nat x)) as [l|] eqn:Hl.
    2:{ apply nth_error_None in Hl. lia. }
    destruct (Hused l (nth_error_In _ _ Hl)) as [Hin Hv].
    assert (Hf : In l (filter valid_label pl)).
    { apply filter_In. split; [exact Hin | apply Z.ltb_lt; exact Hv]. }
    apply In_nth_error in Hf as (j & Hj).
    pose proof (unit_index_of_nth labels _ j l Hj) as Hu.
    rewrite (last_position_unique l labels _ Hnodup Hl) in Hu.
    rewrite Z2Nat.id in Hu by lia. eapply nth_error_In. exact Hu.
Qed.

(* ------------------------------------------------------------------ *)
(** ** The units of random_projections.py *)

Lemma sample_slice_in_bounds A i rows :
  sample_slice A i = Ok rows ->
  - Z.of_nat (dim_samples A) <= i < Z.of_nat (dim_samples A).
Proof.
  unfold sample_slice. intros Hs.
  destruct (Z.leb_spec (- Z.of_nat (dim_samples A)) i) as [Hlo | Hlo];
    destruct (Z.ltb_spec i (Z.of_nat (dim_samples A))) as [Hhi | Hhi];
    simpl in Hs; try discriminate Hs; lia.
Qed.

(** X9.  random_projections.py, lines 117-129.  When hdbscan numbers noise
    [-1] and its [k] clusters [0 .. k-1], the spikes carry the non-noise
    labels and [unit_ids] is the same array as [labels]: template [u] is
    the template of label [u]. *)
Theorem projections_units_are_the_labels
        (E : Env) (Hnoise : hdbscan_noise_convention E)
        (Hcontig : hdbscan_contiguous E)
        rec peaks (params : RandomProjectionClustering.Params E) jk w pl w1 T pl' w'
        (Hcl : RandomProjectionClustering.clustering_stage rec peaks params jk w
               = (Ok pl, w1))
        (Hpr : RandomProjectionClustering.pruning_stage rec peaks params jk pl w1
               = (Ok (T, pl'), w')) :
  exists spikes,
    spikes_of peaks pl = Ok spikes
    /\ map unit_index spikes = filter valid_label pl
    /\ Np.arange (length (Np.unique (map unit_index spikes)))
       = filter (fun l => 0 <=? l) (Np.unique pl).
Proof.
  apply rp_clustering_stage_ok in Hcl as (hd & w0 & Hh).
  pose proof (Hnoise _ _ _ _ _ Hh) as Hlow.
  pose proof (Hcontig _ _ _ _ _ Hh) as Hup.
  apply rp_pruning_stage_ok in Hpr as [Hlen _].
  destruct (spikes_of_units peaks pl Hlen) as (spikes & Hsp & Hunits).
  exists spikes. split; [exact Hsp|]. split; [exact Hunits|].
  rewrite Hunits, unique_filter_valid.
  set (u := Np.unique (filter valid_label pl)) in *.
  assert (Hu : u = map Z.of_nat (seq 0 (length u))).
  { apply sorted_in_range_full; [apply unique_sorted|].
    intros x Hx. unfold u in Hx. apply (proj1 (in_unique _ _)) in Hx.
    apply filter_In in Hx as [Hx Hval].
    rewrite Forall_forall in Hup. specialize (Hup x Hx).
    unfold valid_label in Hval. apply Z.ltb_lt in Hval. fold u in Hup. lia. }
  symmetry. exact Hu.
Qed.

(** X10.  random_projections.py, lines 131-149.  The templates are read at
    the sample [nbefore]: when [estimate_templates] returns
    [nbefore + nafter] samples per template, the entry point gets past
    line 148 only if the window of the templates has at least one sample
    after the peak. *)
Theorem pruning_needs_samples_after_the_peak
        (E : Env) rec peaks (params : RandomProjectionClustering.Params E)
        jk pl w T pl' w'
        (Hshape : forall nb na,
            RandomProjectionClustering.samples
              (RandomProjectionClustering.waveforms_ms_before params)
              (get_sampling_frequency E rec) = Ok nb ->
            RandomProjectionClustering.samples
              (RandomProjectionClustering.waveforms_ms_after params)
              (get_sampling_frequency E rec) = Ok na ->
            templates_span_window E rec nb na)
        (Hrun : RandomProjectionClustering.pruning_stage rec peaks params jk pl w
                = (Ok (T, pl'), w')) :
  exists nbefore nafter,
    RandomProjectionClustering.samples
      (RandomProjectionClustering.waveforms_ms_before params)
      (get_sampling_frequency E rec) = Ok nbefore
    /\ RandomProjectionClustering.samples
         (RandomProjectionClustering.waveforms_ms_after params)
         (get_sampling_frequency E rec) = Ok nafter
    /\ 0 < nafter /\ - nafter <= 2 * nbefore.
Proof.
  unfold RandomProjectionClustering.pruning_stage in Hrun.
  apply bind_ok in Hrun as (spikes & w1 & _ & Hrun).
  apply bind_ok in Hrun as (nb & w2 & Hnb & Hrun).
  apply lift_ok in Hnb as [Hnb _].
  apply bind_ok in Hrun as (na & w3 & Hna & Hrun).
  apply lift_ok in Hna as [Hna _].
  apply bind_ok in Hrun as (nl & w4 & _ & Hrun).
  apply bind_ok in Hrun as (arr & w5 & Harr & Hrun).
  apply bind_ok in Hrun as (valid & w6 & Hvalid & _).
  apply lift_ok in Hvalid as [Hvalid _].
  apply (Hshape nb na Hnb Hna) in Harr.
  unfold RandomProjectionClustering.valid_templates_of in Hvalid.
  apply res_bind_ok in Hvalid as (rows & Hrows & _).
  apply sample_slice_in_bounds in Hrows. rewrite Harr in Hrows.
  exists nb, na. split; [exact Hnb|]. split; [exact Hna|]. lia.
Qed.

(* ------------------------------------------------------------------ *)
(** ** Keyword dictionaries *)

Section DictFacts.
Import PyDict.

Lemma get_set_same k v d : get k (set k v d) = Some v.
Proof.
  induction d as [|[k' v'] d IH]; simpl.
  - rewrite String.eqb_refl. reflexivity.
  - destruct (String.eqb k' k) eqn:Hk; simpl.
    + rewrite String.eqb_refl. reflexivity.
    + rewrite Hk. exact IH.
Qed.

Lemma get_set_other k k' v d : k' <> k -> get k' (set k v d) = get k' d.
Proof.
  intros Hne. induction d as [|[k0 v0] d IH]; simpl.
  - destruct (String.eqb_spec k k') as [Heq | _]; [congruence | reflexivity].
  - destruct (String.eqb_spec k0 k) as [-> | Hk]; simpl.
    + destruct (String.eqb_spec k k') as [Heq | _]; [congruence | reflexivity].
    + destruct (String.eqb k0 k'); [reflexivity | exact IH].
Qed.

Lemma get_remove_same k d : get k (remove k d) = None.
Proof.
  unfold remove. induction d as [|[k0 v0] d IH]; simpl; [reflexivity|].
  destruct (String.eqb k0 k) eqn:Hk; simpl; [exact IH|].
  rewrite Hk. exact IH.
Qed.

Lemma get_remove_other k k' d : k' <> k -> get k' (remove k d) = get k' d.
Proof.
  intros Hne. unfold remove. induction d as [|[k0 v0] d IH]; simpl; [reflexivity|].
  destruct (String.eqb_spec k0 k) as [-> | Hk]; simpl.
  - destruct (String.eqb_spec k k') as [Heq | _]; [congruence | exact IH].
  - destruct (String.eqb k0 k'); [reflexivity | exact IH].
Qed.

Lemma mem_get k d : mem k d = false <-> get k d = None.
Proof. unfold mem. destruct (get k d); split; congruence. Qed.

(** Dropping a key that may be missing: [if k in d: d.pop(k)]. *)
Lemma get_drop k k' d :
  get k' (if mem k d then remove k d else d)
  = if String.eqb k k' then None else get k' d.
Proof.
  destruct (String.eqb_spec k k') as [<- | Hne].
  - destruct (mem k d) eqn:Hm; [apply get_remove_same | apply mem_get; exact Hm].
  - destruct (mem k d); [apply get_remove_other; congruence | reflexivity].
Qed.

Lemma get_resolve_other cpu key k d :
  k <> key -> get k (CircusKwargs.resolve_cpu_count cpu key d) = get k d.
Proof.
  intros Hne. unfold CircusKwargs.resolve_cpu_count.
  destruct (mem key d); [|reflexivity].
  destruct (get key d) as [v|]; [|reflexivity].
  destruct (eq_minus_one v); [apply get_set_other; exact Hne | reflexivity].
Qed.

Lemma get_resolve_same cpu key d :
  get key (CircusKwargs.resolve_cpu_count cpu key d)
  = match get key d with
    | Some v => Some (if eq_minus_one v then cpu else v)
    | None => None
    end.
Proof.
  unfold CircusKwargs.resolve_cpu_count, mem.
  destruct (get key d) as [v|] eqn:Hg; [|exact Hg].
  destruct (eq_minus_one v); [apply get_set_same | exact Hg].
Qed.

End DictFacts.

(** X11.  circus.py, lines 73-84.  [verbose] is read from
    [params["job_kwargs"]] itself: without that key the entry point
    raises, whatever [fix_job_kwargs] returns.  Otherwise only the values
    under ["n_jobs"] and ["core_dist_n_jobs"] can change, a [-1] being
    replaced by the number of processors. *)
Theorem prologue_needs_verbose
        (cpu_count : PyDict.PyVal)
        (fix_job_kwargs : PyDict.dict -> Res PyDict.dict)
        (job_kwargs hdbscan_kwargs : PyDict.dict) :
  (PyDict.mem PyDict.k_verbose job_kwargs = false ->
   CircusKwargs.prologue cpu_count fix_job_kwargs job_kwargs hdbscan_kwargs = Raise)
  /\
  (forall jk hk fixed verbose,
      CircusKwargs.prologue cpu_count fix_job_kwargs job_kwargs hdbscan_kwargs
      = Ok (jk, hk, fixed, verbose) ->
      PyDict.get PyDict.k_verbose job_kwargs = Some verbose
      /\ fix_job_kwargs jk = Ok fixed
      /\ (forall k, k <> PyDict.k_n_jobs -> PyDict.get k jk = PyDict.get k job_kwargs)
      /\ (forall k, k <> PyDict.k_core_dist_n_jobs ->
                    PyDict.get k hk = PyDict.get k hdbscan_kwargs)
      /\ (PyDict.eq_minus_one cpu_count = false ->
          forall v, PyDict.get PyDict.k_n_jobs jk = Some v \/
                    PyDict.get PyDict.k_core_dist_n_jobs hk = Some v ->
                    PyDict.eq_minus_one v = false)).
Proof.
  assert (Hverb : PyDict.get PyDict.k_verbose
                    (CircusKwargs.resolve_cpu_count cpu_count PyDict.k_n_jobs job_kwargs)
                  = PyDict.get PyDict.k_verbose job_kwargs).
  { apply get_resolve_other. discriminate. }
  split.
  - intros Hm. apply mem_get in Hm. unfold CircusKwargs.prologue, PyDict.getitem.
    rewrite Hverb, Hm.
    destruct (fix_job_kwargs _); reflexivity.
  - intros jk hk fixed verbose H. unfold CircusKwargs.prologue in H.
    apply res_bind_ok in H as (fixed' & Hfix & H).
    apply res_bind_ok in H as (verbose' & Hv & H).
    injection H as <- <- <- <-.
    unfold PyDict.getitem in Hv. rewrite Hverb in Hv.
    split.
    { destruct (PyDict.get PyDict.k_verbose job_kwargs); congruence. }
    split; [exact Hfix|]. split; [intros k Hk; apply get_resolve_other; exact Hk|].
    split; [intros k Hk; apply get_resolve_other; exact Hk|].
    intros Hcpu v [Hn | Hn]; rewrite get_resolve_same in Hn.
    + destruct (PyDict.get PyDict.k_n_jobs job_kwargs) as [v0|]; [|discriminate].
      injection Hn as <-. destruct (PyDict.eq_minus_one v0) eqn:Hv0; assumption.
    + destruct (PyDict.get PyDict.k_core_dist_n_jobs hdbscan_kwargs) as [v0|];
        [|discriminate].
      injection Hn as <-. destruct (PyDict.eq_minus_one v0) eqn:Hv0; assumption.
Qed.

(** X12.  circus.py, lines 207-214.  Whatever the job keywords, the matching
    pass of the deduplication gets [n_jobs = 1], chunks of 100 ms as its
    only chunk specification, no progress bar and no verbosity; every
    other keyword is passed as given. *)
Theorem matching_runs_on_one_job (job_kwargs : PyDict.dict) :
  let d := CircusKwargs.cleaning_matching_params job_kwargs in
  PyDict.get PyDict.k_chunk_duration d = Some (PyDict.PStr PyDict.s_100ms)
  /\ PyDict.get PyDict.k_n_jobs d = Some (PyDict.PInt 1)
  /\ PyDict.get PyDict.k_verbose d = Some (PyDict.PBool false)
  /\ PyDict.get PyDict.k_progress_bar d = Some (PyDict.PBool false)
  /\ PyDict.get PyDict.k_chunk_size d = None
  /\ PyDict.get PyDict.k_chunk_memory d = None
  /\ PyDict.get PyDict.k_total_memory d = None
  /\ (forall k,
         ~ In k [PyDict.k_chunk_size; PyDict.k_chunk_memory; PyDict.k_total_memory;
                 PyDict.k_chunk_duration; PyDict.k_n_jobs; PyDict.k_verbose;
                 PyDict.k_progress_bar] ->
         PyDict.get k d = PyDict.get k job_kwargs).
Proof.
  intros d. unfold d, CircusKwargs.cleaning_matching_params. cbn [fold_left].
  repeat split.
  - rewrite !get_set_other by discriminate. apply get_set_same.
  - rewrite !get_set_other by discriminate. apply get_set_same.
  - rewrite !get_set_other by discriminate. apply get_set_same.
  - apply get_set_same.
  - rewrite !get_set_other by discriminate. rewrite !get_drop. reflexivity.
  - rewrite !get_set_other by discriminate. rewrite !get_drop. reflexivity.
  - rewrite !get_set_other by discriminate. rewrite !get_drop. reflexivity.
  - intros k Hk. simpl in Hk.
    rewrite !get_set_other by (intros ->; apply Hk; tauto).
    rewrite !get_drop.
    repeat match goal with
           | |- context [String.eqb ?a k] =>
               destruct (String.eqb_spec a k) as [<- | _];
               [exfalso; apply Hk; tauto|]
           end.
    reflexivity.
Qed.

(** X13.  spyking_circus2.py, lines 317-319.  The method is popped from
    [params["matching"]] itself: after the call the key is gone from the
    caller's dictionary (and from the parameters of the matching), the
    other keys are kept, and the same lines run again on that dictionary
    raise. *)
Theorem matching_setup_consumes_the_method
        (matching : PyDict.dict) (templates : PyDict.PyVal)
        method matching_params left
        (Hrun : SorterKwargs.matching_setup matching templates
                = Ok (method, matching_params, left)) :
  PyDict.get PyDict.k_method matching = Some method
  /\ PyDict.get PyDict.k_method left = None
  /\ PyDict.get PyDict.k_method matching_params = None
  /\ PyDict.get PyDict.k_templates matching_params = Some templates
  /\ (forall k, k <> PyDict.k_method -> PyDict.get k left = PyDict.get k matching)
  /\ forall templates', SorterKwargs.matching_setup left templates' = Raise.
Proof.
  unfold SorterKwargs.matching_setup in Hrun.
  apply res_bind_ok in Hrun as ([m d] & Hpop & H). injection H as <- <- <-.
  unfold PyDict.pop in Hpop.
  destruct (PyDict.get PyDict.k_method matching) as [v|] eqn:Hg; [|discriminate].
  injection Hpop as <- <-.
  split; [reflexivity|]. split; [apply get_remove_same|].
  split; [rewrite get_set_other by discriminate; apply get_remove_same|].
  split; [apply get_set_same|].
  split; [intros k Hk; apply get_remove_other; exact Hk|].
  intros templates'. unfold SorterKwargs.matching_setup, PyDict.pop.
  rewrite get_remove_same. reflexivity.
Qed.

(** X14.  spyking_circus2.py, lines 246-270.  The sorter writes the windows,
    radius, noise levels, folder and threshold over whatever
    [params["clustering"]] holds under these keys: the window of the
    clustering and the window of the templates are the same pair, the
    threshold is the detection threshold (4 by default), [peak_sign] of
    the sparsity is the detection's unless the sparsity names one; the
    other keys pass through, and the method is circus unless ["legacy"]
    is given and false. *)
Theorem sorter_overrides_clustering_params
        (clustering sparsity detection_params : PyDict.dict)
        (peak_sign radius_um ms_before ms_after waveforms noise_levels
         verbose tmp_folder debug : PyDict.PyVal) :
  let p := SorterKwargs.clustering_params
             clustering sparsity detection_params peak_sign radius_um ms_before
             ms_after waveforms noise_levels verbose tmp_folder debug in
  PyDict.get PyDict.k_ms_before p = Some ms_before
  /\ PyDict.get PyDict.k_ms_after p = Some ms_after
  /\ PyDict.get PyDict.k_waveforms p
     = Some (PyDict.PDict [(PyDict.k_ms_before, ms_before);
                           (PyDict.k_ms_after, ms_after)])
  /\ PyDict.get PyDict.k_radius_um p = Some radius_um
  /\ PyDict.get PyDict.k_noise_levels p = Some noise_levels
  /\ PyDict.get PyDict.k_tmp_folder p = Some tmp_folder
  /\ PyDict.get PyDict.k_noise_threshold p
     = Some (PyDict.get_default PyDict.k_detect_threshold (PyDict.PInt 4)
                                detection_params)
  /\ (exists sk,
         PyDict.get PyDict.k_sparsity p = Some (PyDict.PDict sk)
         /\ PyDict.get PyDict.k_peak_sign sk
            = Some (PyDict.get_default PyDict.k_peak_sign peak_sign sparsity)
         /\ forall k, k <> PyDict.k_peak_sign ->
                      PyDict.get k sk = PyDict.get k sparsity)
  /\ (forall k,
         ~ In k [PyDict.k_waveforms; PyDict.k_sparsity; PyDict.k_radius_um;
                 PyDict.k_few_waveforms; PyDict.k_noise_levels; PyDict.k_ms_before;
                 PyDict.k_ms_after; PyDict.k_verbose; PyDict.k_tmp_folder;
                 PyDict.k_debug; PyDict.k_noise_threshold] ->
         PyDict.get k p = PyDict.get k clustering)
  /\ SorterKwargs.clustering_method p
     = if PyDict.truthy (PyDict.get_default PyDict.k_legacy (PyDict.PBool true)
                                            clustering)
       then PyDict.s_circus else PyDict.s_random_projections.
Proof.
  intros p. unfold p, SorterKwargs.clustering_params.
  assert (Hother : forall k,
             ~ In k [PyDict.k_waveforms; PyDict.k_sparsity; PyDict.k_radius_um;
                     PyDict.k_few_waveforms; PyDict.k_noise_levels;
                     PyDict.k_ms_before; PyDict.k_ms_after; PyDict.k_verbose;
                     PyDict.k_tmp_folder; PyDict.k_debug; PyDict.k_noise_threshold] ->
             forall a b c d e f g h i j l m base,
               PyDict.get k
                 (PyDict.set PyDict.k_noise_threshold a
                 (PyDict.set PyDict.k_debug b
                 (PyDict.set PyDict.k_tmp_folder c
                 (PyDict.set PyDict.k_verbose d
                 (PyDict.set PyDict.k_ms_after e
                 (PyDict.set PyDict.k_ms_before f
                 (PyDict.set PyDict.k_noise_levels g
                 (PyDict.set PyDict.k_few_waveforms h
                 (PyDict.set PyDict.k_waveforms i
                 (PyDict.set PyDict.k_waveforms j
                 (PyDict.set PyDict.k_radius_um l
                 (PyDict.set PyDict.k_sparsity m
                 (PyDict.set PyDict.k_waveforms (PyDict.PDict []) base)))))))))))))
               = PyDict.get k base).
  { intros k Hk a b c d e f g h i j l m base. simpl in Hk.
    rewrite !get_set_other by (intros ->; apply Hk; tauto). reflexivity. }
  repeat split.
  - rewrite !get_set_other by discriminate. apply get_set_same.
  - rewrite !get_set_other by discriminate. apply get_set_same.
  - rewrite !get_set_other by discriminate. apply get_set_same.
  - rewrite !get_set_other by discriminate. apply get_set_same.
  - rewrite !get_set_other by discriminate. apply get_set_same.
  - rewrite !get_set_other by discriminate. apply get_set_same.
  - apply get_set_same.
  - eexists. split.
    + rewrite !get_set_other by discriminate. apply get_set_same.
    + unfold PyDict.get_default, PyDict.mem.
      destruct (PyDict.get PyDict.k_peak_sign sparsity) as [v|] eqn:Hs; simpl.
      * split; [exact Hs | reflexivity].
      * split; [apply get_set_same | intros k Hk; apply get_set_other; exact Hk].
  - intros k Hk. apply Hother. exact Hk.
  - unfold SorterKwargs.clustering_method, PyDict.get_default.
    rewrite Hother; [reflexivity|]. simpl. intros H.
    repeat (destruct H as [H | H]; [discriminate H|]). exact H.
Qed.

(* ------------------------------------------------------------------ *)
(** ** More runs of the small environment *)

(** X1, an instance.  Two channels with one cluster each. *)
Lemma unit_ids_are_the_labels_witness :
  exists spikes,
    spikes_of peaks_two_channels [0; 1; 0] = Ok spikes
    /\ map unit_index spikes = filter valid_label [0; 1; 0]
    /\ Np.arange (length (Np.unique (map unit_index spikes)))
       = filter (fun l => 0 <=? l) (Np.unique [0; 1; 0]).
Proof.
  apply (unit_ids_are_the_labels
           (env_merging 1)
           (toy_noise_convention _ _ _ _ _ hdb_zeros_noise)
           (toy_contiguous _ _ _ _ _ hdb_zeros_contiguous)
           (toy_rec 1) peaks_two_channels (circus_params (env_merging 1) toy_kwargs)
           toy_world [0; 1; 0] 0 (mkWorld 45 1)).
  vm_compute. reflexivity.
Defined.

(** X2, an instance.  The decomposition returned on the row of channel 1. *)
Lemma decomposition_is_not_guarded_witness :
  CircusClustering.main_function
    (E:=env_merging 1) (toy_rec 1) peaks_two_channels
    (circus_params (env_merging 1) toy_kwargs) toy_world
  = (Ok ([0], [0; 0; 0]), mkWorld 45 1)
  /\ exists w1 hd w2,
      tsvd_fit_transform (env_merging 1) 10 [20] w1 = (Ok hd, w2).
Proof.
  split; [vm_compute; reflexivity|].
  destruct (decomposition_is_not_guarded
              (env_merging 1) (toy_rec 1) peaks_two_channels
              (circus_params (env_merging 1) toy_kwargs) toy_world
              ([0], [0; 0; 0]) (mkWorld 45 1))
    as (mf & w0 & data & w0' & Hfeat & Hall); [vm_compute; reflexivity|].
  injection Hfeat as <- _.
  destruct (Hall 1) as (_ & w1 & hd & w2 & Hfit); [simpl; tauto|].
  exists w1, hd, w2. exact Hfit.
Defined.

(** X3, an instance.  Unit 0 fails the noise threshold and, of the two
    templates left, the first gets an empty mask: both flags point at
    label 0, which is reset; labels 1 and 2 are kept. *)
Lemma pruning_only_resets_witness :
  exists valid mask,
    pruning_flags (E:=env_index_slip) (toy_rec 1) peaks_one_channel
                  (rp_params env_index_slip toy_kwargs 10) toy_kwargs
                  [0; 1; 2] toy_world valid mask toy_world
    /\ valid = [false; true; true]
    /\ TemplatesOps.empty_rows mask = [true; false]
    /\ [-1; 1; 2]
       = map (fun l => if flagged (TemplatesOps.empty_rows mask) l
                          || flagged (map negb valid) l
                       then -1 else l) [0; 1; 2].
Proof.
  edestruct (pruning_only_resets
               env_index_slip (toy_rec 1) peaks_one_channel
               (rp_params env_index_slip toy_kwargs 10) toy_kwargs [0; 1; 2] toy_world)
    as (valid & mask & Hflags & Hmap & _);
    [vm_compute; reflexivity|].
  exists valid, mask. split; [exact Hflags|].
  destruct Hflags as (spikes & nb & na & noise & w1 & arr & w2 & kept
                      & Hsp & Hnb & Hna & Hnoise & Harr & Hvalid & Hkept & Hmask).
  vm_compute in Hsp. injection Hsp as <-.
  vm_compute in Hnb. injection Hnb as <-.
  vm_compute in Hna. injection Hna as <-.
  vm_compute in Hnoise. injection Hnoise as <- <-.
  vm_compute in Harr. injection Harr as <- <-.
  vm_compute in Hvalid. injection Hvalid as <-.
  vm_compute in Hkept. injection Hkept as <-.
  vm_compute in Hmask. injection Hmask as <-.
  split; [reflexivity|]. split; [reflexivity|]. exact Hmap.
Defined.

(** X4, an instance.  The seed [-1]. *)
Lemma circus_rejects_bad_seed_witness :
  valid_seed (-1) = false
  /\ CircusClustering.main_function
       (E:=env_merging 1) (toy_rec 1) peaks_two_channels
       (circus_params_bad_seed (env_merging 1) toy_kwargs) toy_world
     = (Raise, toy_world).
Proof.
  split; [reflexivity|].
  apply (circus_rejects_bad_seed (env_merging 1)). reflexivity.
Defined.

(** X5, an instance.  [nb_projections = -3]. *)
Lemma projections_reject_bad_arguments_witness :
  RandomProjectionClustering.main_function
    (E:=env_merging 1) (toy_rec 1) peaks_two_channels
    (rp_params (env_merging 1) toy_kwargs (-3)) toy_kwargs toy_world
  = (Raise, toy_world).
Proof.
  apply (projections_reject_bad_arguments (env_merging 1)).
  right. simpl. lia.
Defined.

(** X6, an instance.  Labels 3 and 7 become units 0 and 1. *)
Lemma unit_index_recovers_label_witness :
  Spykingcircus2Sorter.labeled_peaks [3; 7] [7; -1; 3; 7] four_peaks
  = Ok ([mkSpike 10 1 0; mkSpike 30 0 0; mkSpike 40 1 0], [0; 1])
  /\ Forall2 (fun s l => 0 <= unit_index s
                         /\ nth_error [3; 7] (Z.to_nat (unit_index s)) = Some l)
             [mkSpike 10 1 0; mkSpike 30 0 0; mkSpike 40 1 0] [7; 3; 7].
Proof.
  split; [reflexivity|].
  apply (unit_index_recovers_label [3; 7] [7; -1; 3; 7] four_peaks _ [0; 1]);
    [reflexivity|].
  intros l Hin Hl. simpl in *. intuition lia.
Defined.

(** X7, an instance.  Label 7 is not in [labels]: its peaks join unit 0. *)
Lemma unknown_label_joins_unit_zero_witness :
  Spykingcircus2Sorter.labeled_peaks [3] [7; -1; 3; 7] four_peaks
  = Ok ([mkSpike 10 0 0; mkSpike 30 0 0; mkSpike 40 0 0], [0])
  /\ Forall2 (fun s l => ~ In l [3] -> unit_index s = 0)
             [mkSpike 10 0 0; mkSpike 30 0 0; mkSpike 40 0 0] [7; 3; 7].
Proof.
  split; [reflexivity|].
  apply (unknown_label_joins_unit_zero [3] [7; -1; 3; 7] four_peaks _ [0]).
  reflexivity.
Defined.

(** X8, an instance.  Two labels, two unit ids. *)
Lemma unit_ids_number_the_labels_witness :
  [0; 1] = Np.arange (length [3; 7]).
Proof.
  apply (unit_ids_number_the_labels [3; 7] [7; -1; 3; 7] four_peaks
                                    [mkSpike 10 1 0; mkSpike 30 0 0; mkSpike 40 1 0]).
  - reflexivity.
  - repeat constructor; simpl; intuition lia.
  - intros l Hin Hl. simpl in *. intuition lia.
  - intros l Hin. simpl in *. intuition lia.
Defined.

(** X9, an instance.  One cluster for the three peaks. *)
Lemma projections_units_are_the_labels_witness :
  exists spikes,
    spikes_of peaks_two_channels [0; 0; 0] = Ok spikes
    /\ map unit_index spikes = filter valid_label [0; 0; 0]
    /\ Np.arange (length (Np.unique (map unit_index spikes)))
       = filter (fun l => 0 <=? l) (Np.unique [0; 0; 0]).
Proof.
  eapply (projections_units_are_the_labels
            (env_merging 1)
            (toy_noise_convention _ _ _ _ _ hdb_zeros_noise)
            (toy_contiguous _ _ _ _ _ hdb_zeros_contiguous)
            (toy_rec 1) peaks_two_channels (rp_params (env_merging 1) toy_kwargs 10) toy_kwargs
            toy_world [0; 0; 0] toy_world);
    vm_compute; reflexivity.
Defined.

(** X10, an instance.  Two samples on each side at 1 kHz. *)
Lemma pruning_needs_samples_after_the_peak_witness :
  exists nbefore nafter,
    RandomProjectionClustering.samples (F64.of_Z 2) (F64.of_Z 1000) = Ok nbefore
    /\ RandomProjectionClustering.samples (F64.of_Z 2) (F64.of_Z 1000) = Ok nafter
    /\ 0 < nafter /\ - nafter <= 2 * nbefore.
Proof.
  eapply (pruning_needs_samples_after_the_peak
            (env_merging 1) (toy_rec 1) peaks_two_channels
            (rp_params (env_merging 1) toy_kwargs 10) toy_kwargs [0; 0; 0] toy_world).
  - intros nb na Hb Ha. vm_compute in Hb, Ha.
    injection Hb as <-. injection Ha as <-.
    intros spikes ids kw w arr w' H. simpl in H.
    apply ret_ok in H as [-> _]. reflexivity.
  - vm_compute. reflexivity.
Defined.

(** X13, an instance.  The default [params["matching"]]. *)
Lemma matching_setup_consumes_the_method_witness :
  SorterKwargs.matching_setup matching_default (PyDict.PObj 1)
  = Ok (PyDict.PStr PyDict.s_circus_omp_svd,
        [(PyDict.k_templates, PyDict.PObj 1)], [])
  /\ forall templates', SorterKwargs.matching_setup [] templates' = Raise.
Proof.
  split; [reflexivity|].
  apply (matching_setup_consumes_the_method
           matching_default (PyDict.PObj 1)
           (PyDict.PStr PyDict.s_circus_omp_svd)
           [(PyDict.k_templates, PyDict.PObj 1)] []).
  reflexivity.
Defined.
